(** * hr_duty_planner: the allocated service ([service.allocate])

    A shallow embedding of [hr_duty_planner/models/service_allocate.py]
    and the properties of its coverage checks, its duration rule, the
    generation of the next service at creation, the conflict hook of
    [write] and the cascading [unlink].

    The model is an Odoo 12 one ([@api.multi] is used by the source):
    - a recordset is the list of its ids, a record is a row of a table
      kept in the environment, and a field is read through the table;
    - reading or assigning a field through a recordset asks for a
      singleton ([ensure_one]); reading through the empty recordset gives
      the null value of the field;
    - a row that has been deleted cannot be read ([MissingError]);
    - assigning a field of a stored record is a call of the record's
      [write]; in an onchange the assignment stays in the record's cache.

    Methods are functions of a state and error monad over the environment.
    An error stands for a raised exception: the transaction is rolled back
    and no environment is returned. *)

From stdpp Require Import gmap strings list.
From Stdlib Require Import ZArith Lia Ascii.

#[local] Open Scope Z_scope.

(** ** Exceptions and the method monad *)

Inductive Error : Type :=
  | ExpectedSingleton   (* ValueError("Expected singleton") of ensure_one *)
  | MissingError        (* the record does not exist or has been deleted *)
  | IndexError          (* recordset[0] on an empty recordset *)
  | IntegrityError      (* NOT NULL constraint of a required field *)
  | RecursionError      (* maximum recursion depth exceeded *)
  | TypeError           (* an operand of the wrong type, as in False + 'text' *)
  | OverflowError       (* a timedelta or a datetime out of its range *)
  | RuleError (msg : string). (* raised by the service.rule subsystem *)

Inductive Result (A : Type) : Type :=
  | Ok (a : A)
  | Err (e : Error).
Arguments Ok {A} a.
Arguments Err {A} e.

(** ** The tables *)

(** A category of resources as the checks read it: [request.skill_id],
    [request.eqp_cat_id] or [request.vehicle_category_id], with its [id]
    and its [name]. *)
Record category := {
  cat_id : positive;
  cat_name : string;
}.

(** Modelled from the spec: the models of the lines of [exp_skill_ids],
    [exp_eqp_cat_ids] and [exp_vehicle_ids] are declared in files that are
    not among the sources. A line is a requirement (category, minimum,
    maximum); the source names the category field [skill_id], [eqp_cat_id]
    and [vehicle_category_id], and the quantities are integers. *)
Record request := {
  req_category : category;
  min_qty : Z;
  max_qty : Z;
}.

(** Modelled from the spec: the model [service.template] is declared in a
    file that is not among the sources. These are the fields of a template
    that [service.allocate] reads: its duration in hours, a whole number,
    its next template if it has one, the ordered list of the containers it
    allows, and its three lists of requirements. *)
Record template := {
  duration : Z;
  next_template_id : option positive;
  service_container_ids : list positive;
  exp_skill_ids : list request;
  exp_eqp_cat_ids : list request;
  exp_vehicle_ids : list request;
}.

(** The stored fields of [service.allocate] that the methods read or
    write. A datetime is a number of seconds from 1970-01-01 00:00:00, in
    the range of Python's [datetime]; [None] is Odoo's [False]. *)
Record service := {
  service_template_id : option positive;
  service_container_id : option positive;
  generation_id : option string;
  vehicle_ids : list positive;
  vehicle_check : option string;
  employee_ids : list positive;
  employee_check : option string;
  equipment_ids : list positive;
  equipment_check : option string;
  scheduled_start : option Z;
  scheduled_stop : option Z;
  parent_service_id : option positive;
  next_service_id : option positive;
}.

(** A row of [hr.employee.skill]. *)
Record employee_skill := {
  es_employee_id : positive;
  es_skill_id : positive;
}.

(** The database seen by the methods: the table of the services with its
    sequence of ids, the tables that the methods read, the clock (the text
    that [strftime("%Y-%m-%d-%H-%M-%S")] gives for [datetime.now()]), and
    two journals that the properties speak about: the calls of
    [service.rule.double_assign] and the calls of the inherited [unlink]. *)
Record Env := {
  services : gmap positive service;
  service_seq : positive;
  templates : gmap positive template;
  hr_employee_skill : list employee_skill;
  maintenance_equipment : gmap positive (option positive);
  fleet_vehicle : gmap positive (option positive);
  clock : string;
  rule_calls : list (string * option positive);
  unlink_calls : list (list positive);
}.

Definition with_services (f : gmap positive service → gmap positive service)
    (env : Env) : Env :=
  {| services := f (services env);
     service_seq := service_seq env;
     templates := templates env;
     hr_employee_skill := hr_employee_skill env;
     maintenance_equipment := maintenance_equipment env;
     fleet_vehicle := fleet_vehicle env;
     clock := clock env;
     rule_calls := rule_calls env;
     unlink_calls := unlink_calls env |}.

Definition with_service_seq (n : positive) (env : Env) : Env :=
  {| services := services env;
     service_seq := n;
     templates := templates env;
     hr_employee_skill := hr_employee_skill env;
     maintenance_equipment := maintenance_equipment env;
     fleet_vehicle := fleet_vehicle env;
     clock := clock env;
     rule_calls := rule_calls env;
     unlink_calls := unlink_calls env |}.

Definition log_rule_call (call : string * option positive) (env : Env) : Env :=
  {| services := services env;
     service_seq := service_seq env;
     templates := templates env;
     hr_employee_skill := hr_employee_skill env;
     maintenance_equipment := maintenance_equipment env;
     fleet_vehicle := fleet_vehicle env;
     clock := clock env;
     rule_calls := rule_calls env ++ [call];
     unlink_calls := unlink_calls env |}.

Definition log_unlink_call (ids : list positive) (env : Env) : Env :=
  {| services := services env;
     service_seq := service_seq env;
     templates := templates env;
     hr_employee_skill := hr_employee_skill env;
     maintenance_equipment := maintenance_equipment env;
     fleet_vehicle := fleet_vehicle env;
     clock := clock env;
     rule_calls := rule_calls env;
     unlink_calls := unlink_calls env ++ [ids] |}.

(** ** The monad *)

Definition M (A : Type) : Type := Env → Result (A * Env).

Definition ret {A} (a : A) : M A := fun env => Ok (a, env).

Definition raise {A} (e : Error) : M A := fun _ => Err e.

(** An expression that does not read the environment: its value, or the
    exception that it raises. *)
Definition lift {A} (res : Result A) : M A :=
  fun env =>
    match res with
    | Ok a => Ok (a, env)
    | Err e => Err e
    end.

Definition bind {A B} (m : M A) (k : A → M B) : M B :=
  fun env =>
    match m env with
    | Ok (a, env') => k a env'
    | Err e => Err e
    end.

Notation "'let!' x ':=' m 'in' k" := (bind m (fun x => k))
  (at level 10, x name, m at level 100, k at level 200).
Notation "m '>>' k" := (bind m (fun _ => k))
  (at level 100, k at level 200, right associativity).

(** [for x in l: body x] *)
Fixpoint for_each {A} (body : A → M unit) (l : list A) : M unit :=
  match l with
  | [] => ret tt
  | x :: l' => body x >> for_each body l'
  end.

(** [if c: body] *)
Definition when (c : bool) (body : M unit) : M unit :=
  if c then body else ret tt.

(** ** Records of [service.allocate] *)

(** [record.field] for a record of the loop: the row must exist. *)
Definition read {A} (field : service → A) (sid : positive) : M A :=
  fun env =>
    match services env !! sid with
    | Some r => Ok (field r, env)
    | None => Err MissingError
    end.

(** [self.field] through a recordset: the null value on the empty
    recordset, [ensure_one] otherwise. *)
Definition read_self {A} (field : service → option A) (self : list positive)
    : M (option A) :=
  match self with
  | [] => ret None
  | [sid] => read field sid
  | _ => raise ExpectedSingleton
  end.

(** [self.id] *)
Definition self_id (self : list positive) : M (option positive) :=
  match self with
  | [] => ret None
  | [sid] => ret (Some sid)
  | _ => raise ExpectedSingleton
  end.

(** The assignment of a field in the cache of a record. *)
Definition update (f : service → service) (sid : positive) : M unit :=
  fun env =>
    match services env !! sid with
    | Some r => Ok (tt, with_services (insert sid (f r)) env)
    | None => Err MissingError
    end.

(** [service.service_template_id]: the fields of the template of a record;
    an empty reference reads as the null values. *)
Definition null_template : template :=
  {| duration := 0; next_template_id := None; service_container_ids := [];
     exp_skill_ids := []; exp_eqp_cat_ids := []; exp_vehicle_ids := [] |}.

Definition template_of (sid : positive) : M template :=
  let! ref := read service_template_id sid in
  match ref with
  | None => ret null_template
  | Some tid =>
      fun env =>
        match templates env !! tid with
        | Some t => Ok (t, env)
        | None => Err MissingError
        end
  end.

(** ** The duration rule *)

Definition set_scheduled_stop (v : option Z) (r : service) : service :=
  {| service_template_id := service_template_id r;
     service_container_id := service_container_id r;
     generation_id := generation_id r;
     vehicle_ids := vehicle_ids r;
     vehicle_check := vehicle_check r;
     employee_ids := employee_ids r;
     employee_check := employee_check r;
     equipment_ids := equipment_ids r;
     equipment_check := equipment_check r;
     scheduled_start := scheduled_start r;
     scheduled_stop := v;
     parent_service_id := parent_service_id r;
     next_service_id := next_service_id r |}.

(** The range of [datetime]: [datetime.min] is 0001-01-01 00:00:00 and
    [datetime.max] is 9999-12-31 23:59:59, in seconds from 1970-01-01
    00:00:00. *)
Definition datetime_min : Z := -62135596800.
Definition datetime_max : Z := 253402300799.

(** [datetime.timedelta(hours=slot)], in seconds: a timedelta is kept as a
    number of days and a rest, and the number of days must have a
    magnitude of 999999999 at most. *)
Definition timedelta_hours (slot : Z) : Result Z :=
  if Z.abs (slot / 24) <=? 999999999 then Ok (slot * 3600)
  else Err OverflowError.

(** [start + delta] for a datetime and a timedelta: the result must be a
    datetime. *)
Definition datetime_add (start delta : Z) : Result Z :=
  let stop := start + delta in
  if (datetime_min <=? stop) && (stop <=? datetime_max) then Ok stop
  else Err OverflowError.

(** [_compute_scheduled_stop], lines 93 to 103. *)
Definition _compute_scheduled_stop (self : list positive) : M unit :=
  for_each (fun service =>
    let! start := read scheduled_start service in
    match start with
    | Some start =>
        let! tmpl := template_of service in
        let slot := duration tmpl in
        (* avoid empty value of duration *)
        let slot := if 0 <? slot then slot else 1 in
        let! delta := lift (timedelta_hours slot) in
        let! stop := lift (datetime_add start delta) in
        update (set_scheduled_stop (Some stop)) service
    | None => ret tt
    end) self.

(** ** The coverage checks

    The three checks are called by the onchange methods of the source
    (lines 106 to 129): their assignments are assignments in the cache of
    the record, which the form then saves with the other fields. *)

Definition set_employee_check (v : option string) (r : service) : service :=
  {| service_template_id := service_template_id r;
     service_container_id := service_container_id r;
     generation_id := generation_id r;
     vehicle_ids := vehicle_ids r;
     vehicle_check := vehicle_check r;
     employee_ids := employee_ids r;
     employee_check := v;
     equipment_ids := equipment_ids r;
     equipment_check := equipment_check r;
     scheduled_start := scheduled_start r;
     scheduled_stop := scheduled_stop r;
     parent_service_id := parent_service_id r;
     next_service_id := next_service_id r |}.

Definition set_equipment_check (v : option string) (r : service) : service :=
  {| service_template_id := service_template_id r;
     service_container_id := service_container_id r;
     generation_id := generation_id r;
     vehicle_ids := vehicle_ids r;
     vehicle_check := vehicle_check r;
     employee_ids := employee_ids r;
     employee_check := employee_check r;
     equipment_ids := equipment_ids r;
     equipment_check := v;
     scheduled_start := scheduled_start r;
     scheduled_stop := scheduled_stop r;
     parent_service_id := parent_service_id r;
     next_service_id := next_service_id r |}.

Definition set_vehicle_check (v : option string) (r : service) : service :=
  {| service_template_id := service_template_id r;
     service_container_id := service_container_id r;
     generation_id := generation_id r;
     vehicle_ids := vehicle_ids r;
     vehicle_check := v;
     employee_ids := employee_ids r;
     employee_check := employee_check r;
     equipment_ids := equipment_ids r;
     equipment_check := equipment_check r;
     scheduled_start := scheduled_start r;
     scheduled_stop := scheduled_stop r;
     parent_service_id := parent_service_id r;
     next_service_id := next_service_id r |}.

(** [self.field = value] in an onchange: [ensure_one], then the cache. *)
Definition assign_cache (f : service → service) (self : list positive)
    : M unit :=
  match self with
  | [sid] => update f sid
  | _ => raise ExpectedSingleton
  end.

(** [self.field += text]: the field is read through [self], the text is
    appended and the result is assigned through [self]. A field that reads
    as [False] cannot be added to a string. *)
Definition append_cache (get : service → option string)
    (set : option string → service → service) (text : string)
    (self : list positive) : M unit :=
  let! old := read_self get self in
  match old with
  | Some s => assign_cache (set (Some (s +:+ text))) self
  | None => raise TypeError
  end.

Definition newline : string := String "010"%char EmptyString.

(** [_('Missing %s\n') % name] and [_('Too many %s\n') % name], in the
    source language. *)
Definition missing_msg (name : string) : string :=
  "Missing " +:+ name +:+ newline.
Definition too_many_msg (name : string) : string :=
  "Too many " +:+ name +:+ newline.

(** The three searches; each returns the recordset found. *)
Definition search_employee_skill (employee skill : positive) (env : Env)
    : list employee_skill :=
  List.filter (fun row => Pos.eqb (es_employee_id row) employee
                          && Pos.eqb (es_skill_id row) skill)
              (hr_employee_skill env).

Definition search_equipment (equipment categ : positive) (env : Env)
    : list positive :=
  match maintenance_equipment env !! equipment with
  | Some (Some c) => if Pos.eqb c categ then [equipment] else []
  | _ => []
  end.

Definition search_vehicle (vehicle categ : positive) (env : Env)
    : list positive :=
  match fleet_vehicle env !! vehicle with
  | Some (Some c) => if Pos.eqb c categ then [vehicle] else []
  | _ => []
  end.

(** The truth value of a recordset. *)
Definition truthy {A} (found : list A) : bool :=
  match found with [] => false | _ => true end.

(** [_check_skill_request], lines 142 to 169. *)
Definition _check_skill_request (self : list positive) : M unit :=
  for_each (fun service =>
    (* clear error message *)
    assign_cache (set_employee_check (Some "")) self >>
    (* get requested skills by template *)
    let! tmpl := template_of service in
    let skill_request := exp_skill_ids tmpl in
    (* for each request counts available employees *)
    for_each (fun request =>
      let! employees := read employee_ids service in
      let! available_qty := fun env =>
        Ok (fold_left (fun qty employee =>
              if truthy (search_employee_skill employee
                           (cat_id (req_category request)) env)
              then qty + 1 else qty) employees 0, env) in
      when (available_qty <? min_qty request)
        (append_cache employee_check set_employee_check
           (missing_msg (cat_name (req_category request))) self) >>
      when ((0 <? max_qty request) && (max_qty request <? available_qty))
        (append_cache employee_check set_employee_check
           (too_many_msg (cat_name (req_category request))) self))
      skill_request) self >>
  let! check := read_self employee_check self in
  when (bool_decide (check = Some ""))
    (assign_cache (set_employee_check (Some "All covered")) self).

(** [_check_equipment_request], lines 171 to 198. *)
Definition _check_equipment_request (self : list positive) : M unit :=
  for_each (fun service =>
    assign_cache (set_equipment_check (Some "")) self >>
    let! tmpl := template_of service in
    let category_request := exp_eqp_cat_ids tmpl in
    for_each (fun request =>
      let! equipments := read equipment_ids service in
      let! available_qty := fun env =>
        Ok (fold_left (fun qty equipment =>
              if truthy (search_equipment equipment
                           (cat_id (req_category request)) env)
              then qty + 1 else qty) equipments 0, env) in
      when (available_qty <? min_qty request)
        (append_cache equipment_check set_equipment_check
           (missing_msg (cat_name (req_category request))) self) >>
      when ((0 <? max_qty request) && (max_qty request <? available_qty))
        (append_cache equipment_check set_equipment_check
           (too_many_msg (cat_name (req_category request))) self))
      category_request) self >>
  let! check := read_self equipment_check self in
  when (bool_decide (check = Some ""))
    (assign_cache (set_equipment_check (Some "All covered")) self).

(** [_check_vehicle_request], lines 200 to 227. *)
Definition _check_vehicle_request (self : list positive) : M unit :=
  for_each (fun service =>
    assign_cache (set_vehicle_check (Some "")) self >>
    let! tmpl := template_of service in
    let vehicle_request := exp_vehicle_ids tmpl in
    for_each (fun request =>
      let! vehicles := read vehicle_ids service in
      let! available_qty := fun env =>
        Ok (fold_left (fun qty vehicle =>
              if truthy (search_vehicle vehicle
                           (cat_id (req_category request)) env)
              then qty + 1 else qty) vehicles 0, env) in
      when (available_qty <? min_qty request)
        (append_cache vehicle_check set_vehicle_check
           (missing_msg (cat_name (req_category request))) self) >>
      when ((0 <? max_qty request) && (max_qty request <? available_qty))
        (append_cache vehicle_check set_vehicle_check
           (too_many_msg (cat_name (req_category request))) self))
      vehicle_request) self >>
  let! check := read_self vehicle_check self in
  when (bool_decide (check = Some ""))
    (assign_cache (set_vehicle_check (Some "All covered")) self).

(** ** The inherited methods of the ORM *)

(** The dictionary [values] of [create] and [write]: [None] is an absent
    key. A required field has no other null value; for the two references
    between services [Some None] is the key with the value [False]. *)
Record Values := {
  v_service_template_id : option positive;
  v_service_container_id : option positive;
  v_generation_id : option string;
  v_vehicle_ids : option (list positive);
  v_vehicle_check : option string;
  v_employee_ids : option (list positive);
  v_employee_check : option string;
  v_equipment_ids : option (list positive);
  v_equipment_check : option string;
  v_scheduled_start : option Z;
  v_parent_service_id : option (option positive);
  v_next_service_id : option (option positive);
}.

Definition no_values : Values :=
  {| v_service_template_id := None; v_service_container_id := None;
     v_generation_id := None; v_vehicle_ids := None; v_vehicle_check := None;
     v_employee_ids := None; v_employee_check := None;
     v_equipment_ids := None; v_equipment_check := None;
     v_scheduled_start := None; v_parent_service_id := None;
     v_next_service_id := None |}.

Definition null_service : service :=
  {| service_template_id := None; service_container_id := None;
     generation_id := None; vehicle_ids := []; vehicle_check := None;
     employee_ids := []; employee_check := None; equipment_ids := [];
     equipment_check := None; scheduled_start := None;
     scheduled_stop := None; parent_service_id := None;
     next_service_id := None |}.

(** The value of a key when it is present, the old value otherwise. *)
Definition keep {A} (new : option A) (old : A) : A :=
  match new with Some v => v | None => old end.
Definition keep_opt {A} (new : option A) (old : option A) : option A :=
  match new with Some v => Some v | None => old end.

Definition apply_values (values : Values) (r : service) : service :=
  {| service_template_id :=
       keep_opt (v_service_template_id values) (service_template_id r);
     service_container_id :=
       keep_opt (v_service_container_id values) (service_container_id r);
     generation_id := keep_opt (v_generation_id values) (generation_id r);
     vehicle_ids := keep (v_vehicle_ids values) (vehicle_ids r);
     vehicle_check := keep_opt (v_vehicle_check values) (vehicle_check r);
     employee_ids := keep (v_employee_ids values) (employee_ids r);
     employee_check := keep_opt (v_employee_check values) (employee_check r);
     equipment_ids := keep (v_equipment_ids values) (equipment_ids r);
     equipment_check :=
       keep_opt (v_equipment_check values) (equipment_check r);
     scheduled_start := keep_opt (v_scheduled_start values) (scheduled_start r);
     scheduled_stop := scheduled_stop r;
     parent_service_id :=
       keep (v_parent_service_id values) (parent_service_id r);
     next_service_id := keep (v_next_service_id values) (next_service_id r) |}.

(** [super().create(values)]: the three required fields without a default
    must be given, the row takes the next id of the sequence, and the
    stored computed field [scheduled_stop] is computed. *)
Definition base_create (values : Values) : M positive :=
  match v_service_template_id values, v_service_container_id values,
        v_scheduled_start values with
  | Some _, Some _, Some _ =>
      let! sid := fun env =>
        let sid := service_seq env in
        Ok (sid, with_service_seq (Pos.succ sid)
                   (with_services
                      (insert sid (apply_values values null_service)) env)) in
      _compute_scheduled_stop [sid] >>
      ret sid
  | _, _, _ => raise IntegrityError
  end.

(** [super().write(values)]: every row of [self] must exist; the stored
    computed field follows its dependency [scheduled_start]. *)
Definition base_write (self : list positive) (values : Values) : M bool :=
  for_each (update (apply_values values)) self >>
  when (bool_decide (is_Some (v_scheduled_start values)))
       (_compute_scheduled_stop self) >>
  ret true.

(** The foreign keys [parent_service_id] and [next_service_id] are
    [ON DELETE SET NULL]. *)
Definition set_null (ids : list positive) (ref : option positive)
    : option positive :=
  match ref with
  | Some n => if bool_decide (n ∈ ids) then None else Some n
  | None => None
  end.

Definition null_refs (ids : list positive) (r : service) : service :=
  {| service_template_id := service_template_id r;
     service_container_id := service_container_id r;
     generation_id := generation_id r;
     vehicle_ids := vehicle_ids r;
     vehicle_check := vehicle_check r;
     employee_ids := employee_ids r;
     employee_check := employee_check r;
     equipment_ids := equipment_ids r;
     equipment_check := equipment_check r;
     scheduled_start := scheduled_start r;
     scheduled_stop := scheduled_stop r;
     parent_service_id := set_null ids (parent_service_id r);
     next_service_id := set_null ids (next_service_id r) |}.

Definition delete_rows (ids : list positive) (m : gmap positive service)
    : gmap positive service :=
  null_refs ids <$> foldr delete m ids.

(** [super().unlink()]: the rows of [self] are deleted, a row that is
    already gone is not an error, and the call is written in the journal. *)
Definition base_unlink (self : list positive) : M bool :=
  match self with
  | [] => ret true
  | _ => fun env =>
      Ok (true, log_unlink_call self (with_services (delete_rows self) env))
  end.

(** ** The methods of [service.allocate] on stored records *)

(** Modelled from the spec: the model [service.rule] is not among the
    sources. Its [double_assign] is the external double-booking check: it
    is given a scope and the id of a service, reads the database, and
    either returns a result, of a type of its own, or raises. *)
Class ServiceRule := {
  rule_result : Type;
  service_rule_double_assign :
    string → option positive → Env → Result rule_result;
}.

Record parameters := {
  resource_type : string;
  srv_id : option positive;
}.

Section Methods.
Context {rule : ServiceRule}.

(** [double_assign], lines 243 to 249. *)
Definition double_assign (self : list positive) (p : parameters)
    : M rule_result :=
  fun env =>
    match service_rule_double_assign (resource_type p) (srv_id p) env with
    | Ok result => Ok (result, log_rule_call (resource_type p, srv_id p) env)
    | Err e => Err e
    end.

(** [write], lines 318 to 327. *)
Definition write (self : list positive) (values : Values) : M bool :=
  let! ServiceAllocate_write := base_write self values in
  (* call double assignment *)
  let! srv := self_id self in
  double_assign self {| resource_type := "all"; srv_id := srv |} >>
  ret ServiceAllocate_write.

(** [record.field = value] on a stored record: [ensure_one], then the
    [write] of the record. *)
Definition assign (values : Values) (sid : positive) : M unit :=
  write [sid] values >> ret tt.

(** The truth value of a [Char] field. *)
Definition truthy_char (v : option string) : bool :=
  match v with
  | None | Some EmptyString => false
  | Some _ => true
  end.

(** [datetime.datetime.now().strftime("M %Y-%m-%d-%H-%M-%S")] *)
Definition now_strftime : M string :=
  fun env => Ok ("M " +:+ clock env, env).

(** [recordset[0].id] *)
Definition first_id (l : list positive) : M positive :=
  match l with
  | x :: _ => ret x
  | [] => raise IndexError
  end.

(** [create], lines 284 to 316. *)
Definition create (values : Values) : M positive :=
  let! new_service := base_create values in
  (* generation id can be set by the automatic flow *)
  let! generation := read generation_id new_service in
  when (negb (truthy_char generation))
    (let! stamp := now_strftime in
     assign {| v_service_template_id := None; v_service_container_id := None;
               v_generation_id := Some stamp;
               v_vehicle_ids := None; v_vehicle_check := None;
               v_employee_ids := None; v_employee_check := None;
               v_equipment_ids := None; v_equipment_check := None;
               v_scheduled_start := None; v_parent_service_id := None;
               v_next_service_id := None |} new_service) >>
  (* generate next service if present on template *)
  let! tmpl := template_of new_service in
  match next_template_id tmpl with
  | Some next_serv =>
      (* get end of the original service *)
      let! next_strt := read scheduled_stop new_service in
      (* get first container of the next service template
         (the comment of the source; the list that the source indexes is
         the one of [new_service.service_template_id], which is [tmpl]) *)
      let! next_cont := first_id (service_container_ids tmpl) in
      let! generation := read generation_id new_service in
      let new_service_data :=
        {| v_service_template_id := Some next_serv;
           v_service_container_id := Some next_cont;
           v_generation_id := generation;
           v_vehicle_ids := None; v_vehicle_check := None;
           v_employee_ids := None; v_employee_check := None;
           v_equipment_ids := None; v_equipment_check := None;
           v_scheduled_start := next_strt;
           v_parent_service_id := Some (Some new_service);
           v_next_service_id := None |} in
      let! new_service_nxt := base_create new_service_data in
      (* save child reference *)
      assign {| v_service_template_id := None;
                v_service_container_id := None; v_generation_id := None;
                v_vehicle_ids := None; v_vehicle_check := None;
                v_employee_ids := None; v_employee_check := None;
                v_equipment_ids := None; v_equipment_check := None;
                v_scheduled_start := None; v_parent_service_id := None;
                v_next_service_id := Some (Some new_service_nxt) |}
             new_service
  | None => ret tt
  end >>
  ret new_service.

End Methods.

(** [unlink], lines 329 to 340. The recursion of the source is bounded by
    the depth of the interpreter's stack: [depth] frames are left. The body
    of the loop is [unlink_next], in which [unlink] is the method called on
    the next service. *)
Definition unlink_next (unlink : list positive → M bool)
    (self : list positive) (service : positive) : M unit :=
  let! next := read next_service_id service in
  match next with
  | Some next =>
      (* when next service is defined and not yet present in self list *)
      when (negb (bool_decide (next ∈ self)))
           (unlink [next] >> ret tt)
  | None => ret tt
  end.

Fixpoint unlink (depth : nat) (self : list positive) : M bool :=
  match depth with
  | O => raise RecursionError
  | S depth' =>
      (* scan services for next element *)
      for_each (unlink_next (unlink depth') self) self >>
      base_unlink self
  end.

(** ** The vocabulary of the properties *)

(** The template that [service.service_template_id] reads for a row. *)
Definition the_template (env : Env) (r : service) : template :=
  match service_template_id r with
  | Some tid => default null_template (templates env !! tid)
  | None => null_template
  end.

(** The reference of a row to its template can be followed. *)
Definition template_resolves (env : Env) (r : service) : Prop :=
  match service_template_id r with
  | Some tid => is_Some (templates env !! tid)
  | None => True
  end.

(** The stop that the duration rule of the specification gives:
    [start + max(duration, 1)] hours. *)
Definition resolve_stop (start hours : Z) : Z :=
  start + Z.max hours 1 * 3600.

(** The stop of a row once [_compute_scheduled_stop] has visited it, and
    the table once it has visited the rows of [self]. *)
Definition stop_after (env : Env) (r : service) : option Z :=
  match scheduled_start r with
  | Some start => Some (resolve_stop start (duration (the_template env r)))
  | None => scheduled_stop r
  end.

Definition recompute_stop (env : Env) (r : service) : service :=
  set_scheduled_stop (stop_after env r) r.

Definition stops_recomputed (self : list positive) (env : Env) : Env :=
  with_services
    (map_imap (fun sid r =>
       Some (if bool_decide (sid ∈ self) then recompute_stop env r else r)))
    env.

(** In every row the stop is set when the start is, and is one hour after
    the start at least. *)
Definition stop_floor (env : Env) : Prop :=
  ∀ sid r start, services env !! sid = Some r →
    scheduled_start r = Some start →
    ∃ stop, scheduled_stop r = Some stop ∧ start + 3600 ≤ stop.

(** Every row of a recordset exists and refers to a template that exists. *)
Definition rows_resolve (env : Env) (self : list positive) : Prop :=
  ∀ sid, sid ∈ self →
    ∃ r, services env !! sid = Some r ∧ template_resolves env r.

(** The stop that the rule gives for a start and a duration can be
    computed: the timedelta of the hours is a timedelta, and the stop is a
    datetime. *)
Definition stop_fits (start hours : Z) : Prop :=
  Z.max hours 1 / 24 ≤ 999999999 ∧
  datetime_min ≤ resolve_stop start hours ≤ datetime_max.

Definition row_fits (env : Env) (r : service) : Prop :=
  match scheduled_start r with
  | Some start => stop_fits start (duration (the_template env r))
  | None => True
  end.

(** The stop of every row of a recordset can be computed. *)
Definition rows_fit (env : Env) (self : list positive) : Prop :=
  ∀ sid r, sid ∈ self → services env !! sid = Some r → row_fits env r.

(** The same as tests. *)
Definition stop_fits_b (start hours : Z) : bool :=
  (Z.max hours 1 / 24 <=? 999999999)
  && (datetime_min <=? resolve_stop start hours)
  && (resolve_stop start hours <=? datetime_max).

Definition rows_fit_b (env : Env) (self : list positive) : bool :=
  forallb (fun sid =>
    match services env !! sid with
    | Some r =>
        match scheduled_start r with
        | Some start => stop_fits_b start (duration (the_template env r))
        | None => true
        end
    | None => true
    end) self.

(** The stops of a creation can be computed: the stop of the created
    service, from the start of the values and the duration of its
    template [tmpl], and the stop of its next service, which starts at the
    stop of the created service and follows the next template. *)
Definition creation_fits (env : Env) (start : Z) (tmpl : template) : Prop :=
  stop_fits start (duration tmpl) ∧
  ∀ next_serv next_tmpl,
    next_template_id tmpl = Some next_serv →
    templates env !! next_serv = Some next_tmpl →
    stop_fits (resolve_stop start (duration tmpl)) (duration next_tmpl).

(** The three checks have one shape. A kind of resource gives the list of
    requests of a template, the assigned resources and the check field of
    a service, and the search that tells whether a resource holds a
    category. *)
Record check_kind := {
  requested : template → list request;
  assigned : service → list positive;
  check_of : service → option string;
  set_check : option string → service → service;
  found : positive → positive → Env → bool;
}.

Definition skill_kind : check_kind :=
  {| requested := exp_skill_ids;
     assigned := employee_ids;
     check_of := employee_check;
     set_check := set_employee_check;
     found := fun employee skill env =>
       truthy (search_employee_skill employee skill env) |}.

Definition equipment_kind : check_kind :=
  {| requested := exp_eqp_cat_ids;
     assigned := equipment_ids;
     check_of := equipment_check;
     set_check := set_equipment_check;
     found := fun equipment categ env =>
       truthy (search_equipment equipment categ env) |}.

Definition vehicle_kind : check_kind :=
  {| requested := exp_vehicle_ids;
     assigned := vehicle_ids;
     check_of := vehicle_check;
     set_check := set_vehicle_check;
     found := fun vehicle categ env =>
       truthy (search_vehicle vehicle categ env) |}.

Definition request_turn (k : check_kind) (self : list positive)
    (service : positive) (request : request) : M unit :=
  let! resources := read (assigned k) service in
  let! available_qty := fun env =>
    Ok (fold_left (fun qty resource =>
          if found k resource (cat_id (req_category request)) env
          then qty + 1 else qty) resources 0, env) in
  when (available_qty <? min_qty request)
    (append_cache (check_of k) (set_check k)
       (missing_msg (cat_name (req_category request))) self) >>
  when ((0 <? max_qty request) && (max_qty request <? available_qty))
    (append_cache (check_of k) (set_check k)
       (too_many_msg (cat_name (req_category request))) self).

Definition check_request (k : check_kind) (self : list positive) : M unit :=
  for_each (fun service =>
    assign_cache (set_check k (Some "")) self >>
    let! tmpl := template_of service in
    for_each (request_turn k self service) (requested k tmpl)) self >>
  let! check := read_self (check_of k) self in
  when (bool_decide (check = Some ""))
    (assign_cache (set_check k (Some "All covered")) self).

(** What the specification says of a check. The count of a request is the
    number of assigned resources that hold its category. *)
Definition count_holding (k : check_kind) (env : Env) (r : service)
    (q : request) : Z :=
  Z.of_nat (length (List.filter
    (fun resource => found k resource (cat_id (req_category q)) env)
    (assigned k r))).

Definition under_covered (count : Z) (q : request) : Prop :=
  count < min_qty q.

Definition over_covered (count : Z) (q : request) : Prop :=
  0 < max_qty q ∧ max_qty q < count.

(** A request is satisfied: the count is at least the minimum and, when the
    maximum is positive, at most the maximum. *)
Definition satisfied (count : Z) (q : request) : Prop :=
  min_qty q ≤ count ∧ (0 < max_qty q → count ≤ max_qty q).

(** The lines of a diagnostic, request after request. *)
Definition violation_lines (count : request → Z) (reqs : list request)
    : list string :=
  flat_map (fun q =>
    ((if count q <? min_qty q
      then [missing_msg (cat_name (req_category q))] else []) ++
     (if (0 <? max_qty q) && (max_qty q <? count q)
      then [too_many_msg (cat_name (req_category q))] else []))%list) reqs.

Definition join_lines (lines : list string) : string :=
  foldr String.append "" lines.

(** The diagnostic [diag] of a service for the requests [reqs]. *)
Definition diagnostic_spec (count : request → Z) (reqs : list request)
    (diag : option string) : Prop :=
  (diag = Some "All covered" ↔ Forall (fun q => satisfied (count q) q) reqs) ∧
  (¬ Forall (fun q => satisfied (count q) q) reqs →
     diag = Some (join_lines (violation_lines count reqs))) ∧
  (∀ q, q ∈ reqs → under_covered (count q) q →
     missing_msg (cat_name (req_category q)) ∈ violation_lines count reqs) ∧
  (∀ q, q ∈ reqs → over_covered (count q) q →
     too_many_msg (cat_name (req_category q)) ∈ violation_lines count reqs) ∧
  (∀ line, line ∈ violation_lines count reqs →
     ∃ q, q ∈ reqs ∧
       ((under_covered (count q) q ∧
         line = missing_msg (cat_name (req_category q))) ∨
        (over_covered (count q) q ∧
         line = too_many_msg (cat_name (req_category q))))).

(** The outcome of a check on the singleton [sid]: it ends, and the check
    field of the row is a diagnostic of the requests of its template. *)
Definition check_outcome (k : check_kind) (env : Env) (sid : positive)
    (r : service) (res : Result (unit * Env)) : Prop :=
  ∃ env' r',
    res = Ok (tt, env') ∧ services env' !! sid = Some r' ∧
    diagnostic_spec (count_holding k env r) (requested k (the_template env r))
                    (check_of k r').

(** What the proofs use of a kind: the check field is a field of its own,
    and the searches do not read the table of the services. *)
Record kind_laws (k : check_kind) : Prop := {
  check_of_set v r : check_of k (set_check k v r) = v;
  set_check_twice v w r : set_check k v (set_check k w r) = set_check k v r;
  assigned_set v r : assigned k (set_check k v r) = assigned k r;
  template_set v r :
    service_template_id (set_check k v r) = service_template_id r;
  found_frame resource categ f env :
    found k resource categ (with_services f env) = found k resource categ env;
}.

(** A line is not empty and does not start as "All covered" does. *)
Definition starts_line (text : string) : Prop :=
  ∃ c rest, text = String c rest ∧ c ≠ "A"%char.

(** The environment in which the check field of [sid] holds [text], the
    other fields of the row being those of [r0]. *)
Definition with_check (k : check_kind) (env0 : Env) (sid : positive)
    (r0 : service) (text : string) : Env :=
  with_services (insert sid (set_check k (Some text) r0)) env0.

(** The text that a check leaves for the lines [lines]. *)
Definition diagnostic_of (lines : list string) : string :=
  if bool_decide (join_lines lines = "") then "All covered"
  else join_lines lines.

(** The three kinds of resource, each with its check method, its check
    field and the assignment of that field. *)
Inductive resource_kind := Skill | EquipmentCategory | VehicleCategory.

Definition kind_of (kind : resource_kind) : check_kind :=
  match kind with
  | Skill => skill_kind
  | EquipmentCategory => equipment_kind
  | VehicleCategory => vehicle_kind
  end.

Definition check_method (kind : resource_kind) : list positive → M unit :=
  match kind with
  | Skill => _check_skill_request
  | EquipmentCategory => _check_equipment_request
  | VehicleCategory => _check_vehicle_request
  end.

Definition check_field (kind : resource_kind) : service → option string :=
  match kind with
  | Skill => employee_check
  | EquipmentCategory => equipment_check
  | VehicleCategory => vehicle_check
  end.

Definition set_check_field (kind : resource_kind)
    : option string → service → service :=
  match kind with
  | Skill => set_employee_check
  | EquipmentCategory => set_equipment_check
  | VehicleCategory => set_vehicle_check
  end.

(** The row that [super().create(values)] stores, and the row that
    [super().write(values)] leaves in the place of [r]. *)
Definition created_row (env : Env) (values : Values) : service :=
  recompute_stop env (apply_values values null_service).

Definition written_row (env : Env) (values : Values) (r : service)
    : service :=
  match v_scheduled_start values with
  | Some _ => recompute_stop env (apply_values values r)
  | None => apply_values values r
  end.

(** The values that assign one field. *)
Definition generation_values (stamp : string) : Values :=
  {| v_service_template_id := None; v_service_container_id := None;
     v_generation_id := Some stamp;
     v_vehicle_ids := None; v_vehicle_check := None;
     v_employee_ids := None; v_employee_check := None;
     v_equipment_ids := None; v_equipment_check := None;
     v_scheduled_start := None; v_parent_service_id := None;
     v_next_service_id := None |}.

Definition next_values (next : option positive) : Values :=
  {| v_service_template_id := None; v_service_container_id := None;
     v_generation_id := None;
     v_vehicle_ids := None; v_vehicle_check := None;
     v_employee_ids := None; v_employee_check := None;
     v_equipment_ids := None; v_equipment_check := None;
     v_scheduled_start := None; v_parent_service_id := None;
     v_next_service_id := Some next |}.

(** The row of a created service once its generation id is set. *)
Definition stamped_row (env : Env) (r : service) : service :=
  if truthy_char (generation_id r) then r
  else apply_values (generation_values ("M " +:+ clock env)) r.

(** The values of the next service of [parent]. *)
Definition successor_values (next_serv next_cont : positive)
    (next_strt : option Z) (parent : positive) (generation : option string)
    : Values :=
  {| v_service_template_id := Some next_serv;
     v_service_container_id := Some next_cont;
     v_generation_id := generation;
     v_vehicle_ids := None; v_vehicle_check := None;
     v_employee_ids := None; v_employee_check := None;
     v_equipment_ids := None; v_equipment_check := None;
     v_scheduled_start := next_strt;
     v_parent_service_id := Some (Some parent);
     v_next_service_id := None |}.

(** The table of the services after a creation that has stored [r] at
    [sid], for the template [tmpl] of [r]. *)
Definition created_services (env : Env) (sid : positive) (r : service)
    (tmpl : template) : gmap positive service :=
  match next_template_id tmpl, service_container_ids tmpl with
  | Some next_serv, next_cont :: _ =>
      <[sid := apply_values (next_values (Some (Pos.succ sid))) r]>
        (<[Pos.succ sid :=
             created_row env
               (successor_values next_serv next_cont (scheduled_stop r) sid
                  (generation_id r))]>
           (<[sid := r]> (services env)))
  | _, _ => <[sid := r]> (services env)
  end.

(** The ids of the table come from the sequence, which is ahead of them. *)
Definition ids_fresh (env : Env) : Prop :=
  ∀ sid, is_Some (services env !! sid) → (sid < service_seq env)%positive.

(** The link of the specification between a service and its next one: the
    next service exists, its parent is the service, and both have the same
    generation id. *)
Definition linked (env : Env) (sid : positive) (r : service) : Prop :=
  ∀ next, next_service_id r = Some next →
    ∃ rn, services env !! next = Some rn ∧
          parent_service_id rn = Some sid ∧
          generation_id rn = generation_id r.

Definition chain_linked (env : Env) : Prop :=
  ∀ sid r, services env !! sid = Some r → linked env sid r.

(** The rule subsystem raises nothing for a service. *)
Definition rule_passes `{ServiceRule} (sid : positive) : Prop :=
  ∀ env, ∃ result,
    service_rule_double_assign "all" (Some sid) env = Ok result.

(** The scan of [unlink]: its loop, before the inherited [unlink]. *)
Definition unlink_scan (depth : nat) (self : list positive) : M unit :=
  for_each (unlink_next (unlink (pred depth)) self) self.

(** The environment after the inherited [unlink] of a recordset that is
    not empty. *)
Definition deleted (ids : list positive) (env : Env) : Env :=
  log_unlink_call ids (with_services (delete_rows ids) env).

(** A batch that holds the next service of each of its services. *)
Definition closed_batch (env : Env) (self : list positive) : Prop :=
  ∀ sid, sid ∈ self →
    ∃ r, services env !! sid = Some r ∧
         ∀ next, next_service_id r = Some next → next ∈ self.

(** The services that follow [sid] through the next pointers, up to a
    service that has no next service or is its own next service. *)
Inductive chain_from (env : Env) : positive → list positive → Prop :=
  | chain_end sid r :
      services env !! sid = Some r →
      next_service_id r = None ∨ next_service_id r = Some sid →
      chain_from env sid []
  | chain_step sid r next l :
      services env !! sid = Some r →
      next_service_id r = Some next → next ≠ sid →
      chain_from env next l →
      chain_from env sid (next :: l).

(** A batch whose cascades can be run with [depth] frames: its services
    exist, and the chain that follows a next service out of the batch is
    finite, stays out of the batch and fits in the stack. *)
Definition cascading_batch (env : Env) (self : list positive) (depth : nat)
    : Prop :=
  ∀ sid, sid ∈ self →
    ∃ r, services env !! sid = Some r ∧
      ∀ n, next_service_id r = Some n → n ∉ self →
        ∃ l, chain_from env n l ∧ (∀ k, k ∈ n :: l → k ∉ self) ∧
             (S (length l) < depth)%nat.

(** The environment after the deletion of [sid] and of the chain [l] that
    follows it: the last service of the chain is deleted first. *)
Fixpoint cascade (env : Env) (sid : positive) (l : list positive) : Env :=
  match l with
  | [] => deleted [sid] env
  | next :: l' => deleted [sid] (cascade env next l')
  end.

(** From [env] to [env'] rows have only been deleted, and a next pointer
    has only been set to null, when the row it referred to was deleted. *)
Definition shrinks (env env' : Env) : Prop :=
  ∀ k r', services env' !! k = Some r' →
    ∃ r, services env !! k = Some r ∧
      (next_service_id r' = next_service_id r ∨
       (next_service_id r' = None ∧
        ∃ n, next_service_id r = Some n ∧ services env' !! n = None)).

(** From [env] to [env'] the deletion has followed the next pointers: with
    a service of [env] that is gone, its next service is gone. *)
Definition cascaded (env env' : Env) : Prop :=
  ∀ k r n, services env !! k = Some r → services env' !! k = None →
    next_service_id r = Some n → services env' !! n = None.

(** What the proofs ask of the method called on the next service: when
    it ends, the table has shrunk and the rows of its recordset are
    gone. *)
Definition deletes (rec : list positive → M bool) : Prop :=
  ∀ self env b env', rec self env = Ok (b, env') →
    shrinks env env' ∧ (∀ sid, sid ∈ self → services env' !! sid = None).

(** ** Sample data *)

(** A rule subsystem that finds no conflict. *)
Definition quiet_rule : ServiceRule :=
  {| rule_result := unit;
     service_rule_double_assign := fun _ _ _ => Ok tt |}.

Definition driver : category := {| cat_id := 7; cat_name := "driver" |}.
Definition van : category := {| cat_id := 8; cat_name := "van" |}.

(** Template 1 lasts two hours, is held in container 10, asks for two
    drivers or more and for exactly one van, and is followed by template 2;
    template 2 has no duration, is held in container 20 and has no next
    template; template 3 is followed by template 4, which has no
    container; template 5 is followed by template 1; template 6 has no
    container and is followed by template 2. *)
Definition sample_templates : gmap positive template :=
  <[1%positive :=
      {| duration := 2; next_template_id := Some 2%positive;
         service_container_ids := [10%positive];
         exp_skill_ids :=
           [{| req_category := driver; min_qty := 2; max_qty := 0 |}];
         exp_eqp_cat_ids := [];
         exp_vehicle_ids :=
           [{| req_category := van; min_qty := 1; max_qty := 1 |}] |}]>
  (<[2%positive :=
      {| duration := 0; next_template_id := None;
         service_container_ids := [20%positive];
         exp_skill_ids := []; exp_eqp_cat_ids := [];
         exp_vehicle_ids := [] |}]>
  (<[3%positive :=
      {| duration := 1; next_template_id := Some 4%positive;
         service_container_ids := [30%positive];
         exp_skill_ids := []; exp_eqp_cat_ids := [];
         exp_vehicle_ids := [] |}]>
  (<[4%positive :=
      {| duration := 1; next_template_id := None;
         service_container_ids := [];
         exp_skill_ids := []; exp_eqp_cat_ids := [];
         exp_vehicle_ids := [] |}]>
  (<[5%positive :=
      {| duration := 3; next_template_id := Some 1%positive;
         service_container_ids := [50%positive];
         exp_skill_ids := []; exp_eqp_cat_ids := [];
         exp_vehicle_ids := [] |}]>
  (<[6%positive :=
      {| duration := 1; next_template_id := Some 2%positive;
         service_container_ids := [];
         exp_skill_ids := []; exp_eqp_cat_ids := [];
         exp_vehicle_ids := [] |}]> ∅))))).

(** An empty table of services; employee 5 is a driver, vehicles 40 and 41
    are vans. *)
Definition sample_env : Env :=
  {| services := ∅;
     service_seq := 1;
     templates := sample_templates;
     hr_employee_skill := [{| es_employee_id := 5; es_skill_id := 7 |}];
     maintenance_equipment := ∅;
     fleet_vehicle := <[40%positive := Some 8%positive]>
                        (<[41%positive := Some 8%positive]> ∅);
     clock := "2024-01-01-08-00-00";
     rule_calls := [];
     unlink_calls := [] |}.

(** Service 1 follows template 1 with employee 5 and the vehicles 40 and
    41. *)
Definition staffed_service : service :=
  {| service_template_id := Some 1%positive;
     service_container_id := Some 10%positive;
     generation_id := Some "G";
     vehicle_ids := [40%positive; 41%positive];
     vehicle_check := None;
     employee_ids := [5%positive];
     employee_check := None;
     equipment_ids := [];
     equipment_check := None;
     scheduled_start := Some 28800;
     scheduled_stop := Some 36000;
     parent_service_id := None;
     next_service_id := None |}.

Definition staffed_env : Env :=
  with_service_seq 2
    (with_services (insert 1%positive staffed_service) sample_env).

(** The values of a creation: a template, a container and a start. *)
Definition new_values (tmpl cont : positive) (start : Z) : Values :=
  {| v_service_template_id := Some tmpl;
     v_service_container_id := Some cont;
     v_generation_id := None; v_vehicle_ids := None; v_vehicle_check := None;
     v_employee_ids := None; v_employee_check := None;
     v_equipment_ids := None; v_equipment_check := None;
     v_scheduled_start := Some start; v_parent_service_id := None;
     v_next_service_id := None |}.

(** A rule subsystem that finds a conflict and raises. *)
Definition strict_rule : ServiceRule :=
  {| rule_result := unit;
     service_rule_double_assign := fun _ _ _ =>
       Err (RuleError "Elements with overlapped shift") |}.

(** The values of a creation with a generation id. *)
Definition batch_values (tmpl cont : positive) (start : Z) (batch : string)
    : Values :=
  {| v_service_template_id := Some tmpl;
     v_service_container_id := Some cont;
     v_generation_id := Some batch;
     v_vehicle_ids := None; v_vehicle_check := None;
     v_employee_ids := None; v_employee_check := None;
     v_equipment_ids := None; v_equipment_check := None;
     v_scheduled_start := Some start; v_parent_service_id := None;
     v_next_service_id := None |}.

(** 9999-12-31 23:00:00, and the table in which service 1 follows
    template 1 and starts then, before its stop is computed. *)
Definition last_hour : Z := 253402297200.

Definition late_env : Env :=
  with_services
    (insert 1%positive (apply_values (new_values 1 10 last_hour) null_service))
    sample_env.

(** The environment of a successful call, the one before otherwise. *)
Definition env_after {A} (env : Env) (res : Result (A * Env)) : Env :=
  match res with
  | Ok (_, env') => env'
  | Err _ => env
  end.

(** Two services created one after the other from template 2, which has
    no next template, and a write that makes the second the next service
    of the first. *)
Definition two_services_env : Env :=
  env_after sample_env
    (create (rule := quiet_rule) (new_values 2 20 32400)
       (env_after sample_env
          (create (rule := quiet_rule) (new_values 2 20 28800) sample_env))).

Definition relinked_env : Env :=
  env_after two_services_env
    (write (rule := quiet_rule) [1%positive]
       (next_values (Some 2%positive)) two_services_env).

(** Service 1, created from template 1, and its next service 2. *)
Definition chained_env : Env :=
  env_after sample_env
    (create (rule := quiet_rule) (new_values 1 10 28800) sample_env).

(** Service 1, its next service 2, and a service 3 that a [write] has
    made the next service of service 2. *)
Definition three_chain_env : Env :=
  env_after chained_env
    (write (rule := quiet_rule) [2%positive] (next_values (Some 3%positive))
       (env_after chained_env
          (create (rule := quiet_rule) (new_values 2 20 39600)
             chained_env))).

(** ** The other methods of [service.allocate]

    The methods below read tables that the methods above do not: the
    employees with their name and the parameters of their profile. Their
    state is passed beside the environment. *)

(** Modelled from the spec: the parameters of a profile are declared in
    files that are not among the sources. A parameter gives the method of
    its rule ([rule.rule_id.method]), the name of its field
    ([rule.rule_field_id.field_name]) and a value ([rule.field_value]). *)
Record rule_parameter := {
  rule_method_name : string;
  rule_field_name : string;
  field_value : string;
}.

(** The fields of [hr.employee] that the methods read: [employee.name],
    which is [None] when it is [False], and
    [employee.profile_id.parameter_ids]. *)
Record employee := {
  employee_name : option string;
  parameter_ids : list rule_parameter;
}.

(** [for x in l: s = body x s], with the exceptions of [body]. *)
Fixpoint fold_result {A S E : Type} (body : A → S → E + S) (l : list A)
    (s : S) : E + S :=
  match l with
  | [] => inr s
  | x :: l' =>
      match body x s with
      | inr s' => fold_result body l' s'
      | inl e => inl e
      end
  end.

(** [_compute_emply_name], lines 132 to 140. The column [employee_names]
    is kept beside the rows: [names !! sid] is the text of the service
    [sid], and no entry is [False]. The augmented assignment reads the
    text of the service before it reads the name of the employee. *)
Definition _compute_emply_name (hr_employee : gmap positive employee)
    (self : list positive) (env : Env) (names : gmap positive string)
    : Error + gmap positive string :=
  fold_result (fun service names =>
    let names := <[service := ""]> names in
    match services env !! service with
    | None => inl MissingError
    | Some r =>
        fold_result (fun employee names =>
          match names !! service with
          | None => inl TypeError
          | Some text =>
              match hr_employee !! employee with
              | None => inl MissingError
              | Some e =>
                  match employee_name e with
                  | None => inl TypeError
                  | Some name =>
                      inr (<[service := text +:+ (name +:+ newline)]> names)
                  end
              end
          end) (employee_ids r) names
    end) self names.

(** [_employee_ids_change], [_equipment_ids_change] and
    [_vehicle_ids_change], lines 106 to 129. *)
Definition _employee_ids_change (hr_employee : gmap positive employee)
    (self : list positive) (env : Env) (names : gmap positive string)
    : Error + (Env * gmap positive string) :=
  match _compute_emply_name hr_employee self env names with
  | inl e => inl e
  | inr names' =>
      match _check_skill_request self env with
      | Ok (_, env') => inr (env', names')
      | Err e => inl e
      end
  end.

Definition _equipment_ids_change (self : list positive) : M unit :=
  _check_equipment_request self.

Definition _vehicle_ids_change (self : list positive) : M unit :=
  _check_vehicle_request self.

Definition set_service_container_id (v : option positive) (r : service)
    : service :=
  {| service_template_id := service_template_id r;
     service_container_id := v;
     generation_id := generation_id r;
     vehicle_ids := vehicle_ids r;
     vehicle_check := vehicle_check r;
     employee_ids := employee_ids r;
     employee_check := employee_check r;
     equipment_ids := equipment_ids r;
     equipment_check := equipment_check r;
     scheduled_start := scheduled_start r;
     scheduled_stop := scheduled_stop r;
     parent_service_id := parent_service_id r;
     next_service_id := next_service_id r |}.

(** [self.service_template_id]: the template read through a recordset. *)
Definition template_of_self (self : list positive) : M template :=
  match self with
  | [] => ret null_template
  | [sid] => template_of sid
  | _ => raise ExpectedSingleton
  end.

(** [_get_template_container], lines 230 to 241. The value assigned to the
    many2one field is the list [[(5)]], which is neither an id nor a
    record: the field is reset. The result is the list of ids of the
    domain [[('id', 'in', container_services)]]. *)
Definition _get_template_container (self : list positive)
    : M (list positive) :=
  let container_services := [] in
  (* reset value to avoid errors *)
  assign_cache (set_service_container_id None) self >>
  let! tmpl := template_of_self self in
  let container_services :=
    fold_left (fun container_services glob_srv =>
                 container_services ++ [glob_srv])
              (service_container_ids tmpl) container_services in
  ret container_services.

(** A Python dictionary with text keys: the keys in the order of their
    insertion, each once. [dict_get] is [d[k]], [None] being [KeyError];
    [dict_set] is [d[k] = v]. *)
Fixpoint dict_get {V} (k : string) (d : list (string * V)) : option V :=
  match d with
  | [] => None
  | (k', v) :: d' => if decide (k = k') then Some v else dict_get k d'
  end.

Fixpoint dict_set {V} (k : string) (v : V) (d : list (string * V))
    : list (string * V) :=
  match d with
  | [] => [(k, v)]
  | (k', v') :: d' =>
      if decide (k = k') then (k, v) :: d' else (k', v') :: dict_set k v d'
  end.

(** One turn of the inner loop of [check_resource_rule], lines 271 to 279:
    the element of the method is created if the lookup raises, and the
    value is stored under the field in it. [None] is a [KeyError]. *)
Definition rule_method_turn
    (rule_method : list (string * list (string * string)))
    (rule : rule_parameter)
    : option (list (string * list (string * string))) :=
  (* create rule element if not exists *)
  let rule_method :=
    match dict_get (rule_method_name rule) rule_method with
    | Some _ => rule_method
    | None => dict_set (rule_method_name rule) [] rule_method
    end in
  (* save rile/field value *)
  match dict_get (rule_method_name rule) rule_method with
  | Some fields =>
      Some (dict_set (rule_method_name rule)
              (dict_set (rule_field_name rule) (field_value rule) fields)
              rule_method)
  | None => None
  end.

Fixpoint rule_method_of (rules : list rule_parameter)
    (rule_method : list (string * list (string * string)))
    : option (list (string * list (string * string))) :=
  match rules with
  | [] => Some rule_method
  | rule :: rules' =>
      match rule_method_turn rule_method rule with
      | Some rule_method' => rule_method_of rules' rule_method'
      | None => None
      end
  end.

(** The exceptions of [check_resource_rule]. *)
Inductive RuleCheckError : Type :=
  | OrmError (e : Error)
  | KeyError.

(** [check_resource_rule], lines 259 to 282. [json_dumps] is [json.dumps];
    the result is the list of the messages given to the logger. The
    service is searched by its id, and the employees of no service are
    none. *)
Definition check_resource_rule
    (json_dumps : list (string * list (string * string)) → string)
    (hr_employee : gmap positive employee) (srv_id : option positive)
    (env : Env) : RuleCheckError + list string :=
  let found :=
    match srv_id with
    | Some sid =>
        match services env !! sid with
        | Some r => employee_ids r
        | None => []
        end
    | None => []
    end in
  fold_result (fun employee logged =>
    match hr_employee !! employee with
    | None => inl (OrmError MissingError)
    | Some e =>
        (* memorixe a dictionary of rules and fields *)
        match rule_method_of (parameter_ids e) [] with
        | None => inl KeyError
        | Some rule_method =>
            match employee_name e with
            | None => inl (OrmError TypeError)
            | Some name =>
                inr (logged ++ [name +:+ " " +:+ json_dumps rule_method])
            end
        end
    end) found [].

(** The vocabulary of their properties. The text of a team: the names of
    its employees, each followed by a newline. *)
Definition team_text (hr_employee : gmap positive employee)
    (team : list positive) : string :=
  join_lines
    ((fun e => default "" (hr_employee !! e ≫= employee_name) +:+ newline)
       <$> team).

(** Every employee of a team exists and has a name. *)
Definition team_named (hr_employee : gmap positive employee)
    (team : list positive) : Prop :=
  ∀ e, e ∈ team →
    ∃ row name, hr_employee !! e = Some row ∧ employee_name row = Some name.

(** The value of the last rule of a list for a method and a field. *)
Fixpoint last_value (m f : string) (rules : list rule_parameter)
    : option string :=
  match rules with
  | [] => None
  | rule :: rules' =>
      match last_value m f rules' with
      | Some v => Some v
      | None =>
          if decide (rule_method_name rule = m ∧ rule_field_name rule = f)
          then Some (field_value rule) else None
      end
  end.

(** The value that a dictionary of rules gives for a method and a field. *)
Definition rule_value (m f : string)
    (rule_method : list (string * list (string * string))) : option string :=
  dict_get m rule_method ≫= dict_get f.

(** The bounds of a request are coherent: no maximum, or a minimum that
    is not above it. *)
Definition coherent_bounds (q : request) : Prop :=
  max_qty q ≤ 0 ∨ min_qty q ≤ max_qty q.

(** The lines of a service without any resource of the kind: a "Missing"
    line for each request with a positive minimum. *)
Definition unassigned_lines (reqs : list request) : list string :=
  (fun q => missing_msg (cat_name (req_category q)))
    <$> List.filter (fun q => 0 <? min_qty q) reqs.

(** A chain of next pointers that never ends: [chain i] is a service whose
    next service is [chain (S i)], another service. *)
Definition endless (env : Env) (chain : nat → positive) : Prop :=
  ∀ i, ∃ r, services env !! chain i = Some r ∧
            next_service_id r = Some (chain (S i)) ∧
            chain (S i) ≠ chain i.

(** From [env] to [env'] services have only been deleted: the sequence,
    the templates and the journal of the rule subsystem are the same, and
    a service that is left is the old one with its references to deleted
    services set to null. *)
Definition only_deleted (env env' : Env) : Prop :=
  service_seq env' = service_seq env ∧
  templates env' = templates env ∧
  rule_calls env' = rule_calls env ∧
  ∀ k r', services env' !! k = Some r' →
    ∃ r ids, services env !! k = Some r ∧ r' = null_refs ids r ∧
             ∀ j, j ∈ ids → services env' !! j = None.

(** Services 1 and 2, each the next service of the other. *)
Definition cyclic_env : Env :=
  env_after chained_env
    (write (rule := quiet_rule) [2%positive]
       (next_values (Some 1%positive)) chained_env).

(** A message of [check_resource_rule] for an employee: the name, a
    space and the dump of a dictionary that gives, for each method and
    field, the value of the last parameter of the profile for them. *)
Definition logged_line
    (json_dumps : list (string * list (string * string)) → string)
    (hr_employee : gmap positive employee) (e : positive) (line : string)
    : Prop :=
  ∃ row name d,
    hr_employee !! e = Some row ∧ employee_name row = Some name ∧
    line = name +:+ " " +:+ json_dumps d ∧
    ∀ m f, rule_value m f d = last_value m f (parameter_ids row).

(** Employee 5 is Ada; her profile sets the hours of rest twice. *)
Definition sample_rules : list rule_parameter :=
  [ {| rule_method_name := "rest"; rule_field_name := "hours";
       field_value := "8" |};
    {| rule_method_name := "shift"; rule_field_name := "max";
       field_value := "2" |};
    {| rule_method_name := "rest"; rule_field_name := "hours";
       field_value := "11" |} ].

Definition sample_employees : gmap positive employee :=
  {[ 5%positive := {| employee_name := Some "Ada";
                      parameter_ids := sample_rules |} ]}.

(** A dump that keeps the methods only. *)
Definition sample_dumps (d : list (string * list (string * string)))
    : string :=
  join_lines ((fun entry => fst entry +:+ ";") <$> d).

(** * Properties *)

(** ** The monad *)

Lemma bind_ok {A B} (m : M A) (k : A → M B) env a env' :
  m env = Ok (a, env') → bind m k env = k a env'.
Proof. intros H. unfold bind. by rewrite H. Qed.

Lemma bind_err {A B} (m : M A) (k : A → M B) env e :
  m env = Err e → bind m k env = Err e.
Proof. intros H. unfold bind. by rewrite H. Qed.

Lemma bind_inv {A B} (m : M A) (k : A → M B) env b env2 :
  bind m k env = Ok (b, env2) →
  ∃ a env1, m env = Ok (a, env1) ∧ k a env1 = Ok (b, env2).
Proof.
  unfold bind. destruct (m env) as [[a env1]|e]; [eauto | discriminate].
Qed.

Lemma bind_ret {A B} (a : A) (k : A → M B) env : bind (ret a) k env = k a env.
Proof. done. Qed.

Lemma bind_ret_ok {A} (m : M unit) (x : A) env :
  (∃ env', m env = Ok (tt, env')) →
  ∃ env', (m >> ret x) env = Ok (x, env').
Proof. intros [env' H]. exists env'. by rewrite (bind_ok _ _ _ _ _ H). Qed.

Lemma read_ok {A} (field : service → A) sid env r :
  services env !! sid = Some r → read field sid env = Ok (field r, env).
Proof. intros H. unfold read. by rewrite H. Qed.

Lemma update_ok f sid env r :
  services env !! sid = Some r →
  update f sid env = Ok (tt, with_services (insert sid (f r)) env).
Proof. intros H. unfold update. by rewrite H. Qed.

Lemma template_of_ok sid env r :
  services env !! sid = Some r → template_resolves env r →
  template_of sid env = Ok (the_template env r, env).
Proof.
  intros Hr Ht. unfold template_of.
  rewrite (bind_ok _ _ _ _ _ (read_ok _ _ _ _ Hr)).
  unfold template_resolves, the_template in *.
  destruct (service_template_id r) as [tid|]; [|done].
  destruct Ht as [t Ht]. by rewrite Ht.
Qed.

Lemma for_each_app {A} (body : A → M unit) l1 l2 env env1 :
  for_each body l1 env = Ok (tt, env1) →
  for_each body (l1 ++ l2) env = for_each body l2 env1.
Proof.
  revert env. induction l1 as [|x l1 IH]; intros env H; simpl in *.
  - unfold ret in H. by inversion H.
  - apply bind_inv in H as ([] & env0 & Hx & Hl).
    rewrite (bind_ok _ _ _ _ _ Hx). by apply IH.
Qed.

Lemma for_each_single {A} (body : A → M unit) x env :
  for_each body [x] env = body x env.
Proof.
  cbn [for_each]. unfold bind, ret.
  by destruct (body x env) as [[[] env1]|e].
Qed.

Lemma bind_for_each_single {A B} (body : A → M unit) x (k : unit → M B) env :
  bind (for_each body [x]) k env = bind (body x) k env.
Proof. unfold bind. by rewrite for_each_single. Qed.

Lemma for_each_cons {A} (body : A → M unit) x l env :
  for_each body (x :: l) env = (body x >> for_each body l) env.
Proof. done. Qed.

(** ** The duration rule *)

Lemma set_scheduled_stop_id r : set_scheduled_stop (scheduled_stop r) r = r.
Proof. by destruct r. Qed.

Lemma set_scheduled_stop_twice v w r :
  set_scheduled_stop v (set_scheduled_stop w r) = set_scheduled_stop v r.
Proof. done. Qed.

Lemma slot_floor d : (if 0 <? d then d else 1) = Z.max d 1.
Proof. destruct (Z.ltb_spec 0 d); lia. Qed.

Lemma with_services_ext f g env :
  f (services env) = g (services env) →
  with_services f env = with_services g env.
Proof. intros H. unfold with_services. by rewrite H. Qed.

Lemma with_services_id f env :
  f (services env) = services env → with_services f env = env.
Proof. intros H. unfold with_services. rewrite H. by destruct env. Qed.

Lemma with_services_twice f g env :
  with_services f (with_services g env) = with_services (f ∘ g) env.
Proof. done. Qed.

Lemma stop_fits_dec start hours :
  stop_fits start hours ∨ ¬ stop_fits start hours.
Proof.
  unfold stop_fits.
  destruct (decide (Z.max hours 1 / 24 ≤ 999999999));
    destruct (decide (datetime_min ≤ resolve_stop start hours));
    destruct (decide (resolve_stop start hours ≤ datetime_max));
    tauto.
Qed.

Lemma row_fits_dec env r : row_fits env r ∨ ¬ row_fits env r.
Proof.
  unfold row_fits. destruct (scheduled_start r); [apply stop_fits_dec|].
  by left.
Qed.

(** The expression of line 100 and the rule: the expression has a value,
    the stop of the rule, when the stop can be computed, and raises
    [OverflowError] otherwise. *)
Lemma stop_expression start d :
  let slot := if 0 <? d then d else 1 in
  (stop_fits start d →
   timedelta_hours slot = Ok (slot * 3600) ∧
   datetime_add start (slot * 3600) = Ok (resolve_stop start d)) ∧
  (¬ stop_fits start d →
   timedelta_hours slot = Err OverflowError ∨
   (timedelta_hours slot = Ok (slot * 3600) ∧
    datetime_add start (slot * 3600) = Err OverflowError)).
Proof.
  intros slot. unfold slot. rewrite slot_floor.
  unfold stop_fits, timedelta_hours, datetime_add, resolve_stop.
  assert (H0 : 0 ≤ Z.max d 1 / 24) by (apply Z.div_pos; lia).
  rewrite (Z.abs_eq _ H0).
  destruct (Z.leb_spec (Z.max d 1 / 24) 999999999) as [Hd|Hd].
  - destruct (Z.leb_spec datetime_min (start + Z.max d 1 * 3600)) as [Hl|Hl];
      destruct (Z.leb_spec (start + Z.max d 1 * 3600) datetime_max)
        as [Hu|Hu]; simpl; split; intros H; try done; try lia; by right.
  - split; intros H; [lia | by left].
Qed.

(** One turn of the loop of [_compute_scheduled_stop]. *)
Lemma compute_scheduled_stop_turn sid env r :
  services env !! sid = Some r → template_resolves env r →
  row_fits env r →
  _compute_scheduled_stop [sid] env =
    Ok (tt, with_services (insert sid (recompute_stop env r)) env).
Proof.
  intros Hr Ht Hfit.
  unfold _compute_scheduled_stop, recompute_stop, stop_after.
  rewrite for_each_single.
  rewrite (bind_ok _ _ _ _ _ (read_ok _ _ _ _ Hr)).
  unfold row_fits in Hfit.
  destruct (scheduled_start r) as [start|].
  - rewrite (bind_ok _ _ _ _ _ (template_of_ok _ _ _ Hr Ht)).
    destruct (stop_expression start (duration (the_template env r)))
      as [Hok _].
    destruct (Hok Hfit) as [Hdelta Hstop].
    unfold bind at 1, lift at 1. rewrite Hdelta.
    unfold bind at 1, lift at 1. rewrite Hstop.
    by rewrite (update_ok _ _ _ _ Hr).
  - rewrite set_scheduled_stop_id. unfold ret.
    rewrite with_services_id; [done|]. by apply insert_id.
Qed.

(** A turn for a row whose stop cannot be computed raises
    [OverflowError]. *)
Lemma compute_scheduled_stop_turn_fails sid env r :
  services env !! sid = Some r → template_resolves env r →
  ¬ row_fits env r →
  _compute_scheduled_stop [sid] env = Err OverflowError.
Proof.
  intros Hr Ht Hfit. unfold _compute_scheduled_stop.
  rewrite for_each_single.
  rewrite (bind_ok _ _ _ _ _ (read_ok _ _ _ _ Hr)).
  unfold row_fits in Hfit.
  destruct (scheduled_start r) as [start|]; [|done].
  rewrite (bind_ok _ _ _ _ _ (template_of_ok _ _ _ Hr Ht)).
  destruct (stop_expression start (duration (the_template env r)))
    as [_ Hko].
  destruct (Hko Hfit) as [Hdelta|[Hdelta Hstop]].
  - unfold bind at 1, lift at 1. by rewrite Hdelta.
  - unfold bind at 1, lift at 1. rewrite Hdelta.
    unfold bind at 1, lift at 1. by rewrite Hstop.
Qed.

(** A turn that ends has computed the stop. *)
Lemma compute_scheduled_stop_turn_fits sid env r env1 :
  services env !! sid = Some r → template_resolves env r →
  _compute_scheduled_stop [sid] env = Ok (tt, env1) →
  row_fits env r.
Proof.
  intros Hr Ht Hrun.
  destruct (row_fits_dec env r) as [Hfit|Hfit]; [done|].
  by rewrite (compute_scheduled_stop_turn_fails sid env r Hr Ht Hfit) in Hrun.
Qed.

Lemma recompute_stop_frame env env1 r :
  templates env1 = templates env →
  recompute_stop env1 r = recompute_stop env r.
Proof.
  intros Ht. unfold recompute_stop, stop_after, the_template. by rewrite Ht.
Qed.

Lemma recompute_stop_idem env r :
  recompute_stop env (recompute_stop env r) = recompute_stop env r.
Proof.
  unfold recompute_stop, stop_after, the_template. simpl.
  by destruct (scheduled_start r).
Qed.

Lemma template_resolves_frame env env1 r v :
  templates env1 = templates env →
  template_resolves env r →
  template_resolves env1 (set_scheduled_stop v r).
Proof. intros Ht. unfold template_resolves. simpl. by rewrite Ht. Qed.

Lemma row_fits_frame env env1 r v :
  templates env1 = templates env →
  row_fits env1 (set_scheduled_stop v r) ↔ row_fits env r.
Proof. intros Ht. unfold row_fits, the_template. simpl. by rewrite Ht. Qed.

(** The rows of [l] after the turn of [x]. *)
Lemma rows_after_turn env x r l :
  services env !! x = Some r →
  let env1 := with_services (insert x (recompute_stop env r)) env in
  (rows_resolve env (x :: l) → rows_resolve env1 l) ∧
  (rows_fit env (x :: l) → rows_fit env1 l) ∧
  (row_fits env r → rows_fit env1 l → rows_fit env (x :: l)).
Proof.
  intros Hr env1.
  assert (Htm : templates env1 = templates env) by done.
  split; [|split].
  - intros Hall sid Hsid.
    destruct (Hall sid) as (rs & Hrs & Hts); [by right|].
    unfold env1. simpl. rewrite lookup_insert. case_decide.
    + subst sid. rewrite Hr in Hrs. injection Hrs as <-.
      eexists. split; [done|]. by apply (template_resolves_frame env).
    + eauto.
  - intros Hfit sid rs Hsid Hrs. unfold env1 in Hrs. simpl in Hrs.
    rewrite lookup_insert in Hrs. case_decide.
    + subst sid. injection Hrs as <-.
      apply (row_fits_frame env env1); [done|]. apply (Hfit x); [left|done].
    + unfold row_fits, the_template. rewrite Htm.
      apply (Hfit sid); [by right|done].
  - intros Hx Hfit sid rs Hsid Hrs.
    destruct (decide (sid = x)) as [->|Hne].
    + rewrite Hr in Hrs. by injection Hrs as <-.
    + apply elem_of_cons in Hsid as [?|Hsid]; [done|].
      assert (Hrs1 : services env1 !! sid = Some rs).
      { unfold env1. simpl. by rewrite lookup_insert_ne. }
      specialize (Hfit sid rs Hsid Hrs1).
      unfold row_fits, the_template in *. by rewrite Htm in Hfit.
Qed.

(** The whole loop: every row of [self] gets the stop of the rule, and
    nothing else changes. *)
Lemma compute_scheduled_stop_all self env :
  rows_resolve env self → rows_fit env self →
  _compute_scheduled_stop self env = Ok (tt, stops_recomputed self env).
Proof.
  revert env. induction self as [|x l IH]; intros env Hall Hfit.
  - unfold _compute_scheduled_stop, stops_recomputed. simpl. unfold ret.
    rewrite with_services_id; [done|].
    apply map_eq. intros k. rewrite map_lookup_imap.
    by destruct (services env !! k).
  - destruct (Hall x) as (r & Hr & Ht); [left|].
    assert (Hfx : row_fits env r) by (apply (Hfit x); [left|done]).
    pose proof (compute_scheduled_stop_turn x env r Hr Ht Hfx) as Hx.
    destruct (rows_after_turn env x r l Hr) as (_ & Hfit1 & _).
    specialize (Hfit1 Hfit).
    unfold _compute_scheduled_stop in *. rewrite for_each_cons.
    rewrite for_each_single in Hx. rewrite (bind_ok _ _ _ _ _ Hx).
    set (env1 := with_services (insert x (recompute_stop env r)) env) in *.
    assert (Htm : templates env1 = templates env) by done.
    rewrite IH; [| |exact Hfit1].
    + f_equal. f_equal. unfold stops_recomputed, env1.
      rewrite with_services_twice. apply with_services_ext. simpl.
      apply map_eq. intros k. rewrite !map_lookup_imap, lookup_insert.
      case_decide as Hk.
      * subst k. rewrite Hr. simpl.
        rewrite (bool_decide_eq_true_2 (x ∈ x :: l)); [|left].
        case_bool_decide; [|done].
        by rewrite (recompute_stop_frame env env1), recompute_stop_idem.
      * destruct (services env !! k) as [rk|]; simpl; [|done].
        rewrite (recompute_stop_frame env env1) by done.
        f_equal. rewrite (bool_decide_ext (k ∈ x :: l) (k ∈ l)); [done|].
        rewrite elem_of_cons. intuition congruence.
    + intros sid Hsid. destruct (Hall sid) as (rs & Hrs & Hts); [by right|].
      unfold env1. simpl. rewrite lookup_insert. case_decide.
      * subst sid. eexists. split; [done|].
        by apply (template_resolves_frame env).
      * eauto.
Qed.

(** The whole loop ends when every stop can be computed, and raises
    [OverflowError] otherwise. *)
Lemma compute_scheduled_stop_cases self env :
  rows_resolve env self →
  (rows_fit env self ∧
   _compute_scheduled_stop self env = Ok (tt, stops_recomputed self env)) ∨
  (¬ rows_fit env self ∧
   _compute_scheduled_stop self env = Err OverflowError).
Proof.
  revert env. induction self as [|x l IH]; intros env Hall.
  - assert (Hfit : rows_fit env []).
    { intros sid r Hsid. by apply not_elem_of_nil in Hsid. }
    left. split; [done|]. by apply compute_scheduled_stop_all.
  - destruct (Hall x) as (r & Hr & Ht); [left|].
    destruct (rows_after_turn env x r l Hr) as (Hres1 & Hfit1 & Hback).
    destruct (row_fits_dec env r) as [Hfx|Hfx].
    + destruct (IH _ (Hres1 Hall)) as [[Hf Hrun]|[Hf Hrun]].
      * left. assert (Hfit : rows_fit env (x :: l)) by by apply Hback.
        split; [done|]. by apply compute_scheduled_stop_all.
      * right. split; [intros H; by apply Hf, Hfit1|].
        pose proof (compute_scheduled_stop_turn x env r Hr Ht Hfx) as Hx.
        unfold _compute_scheduled_stop in *. rewrite for_each_cons.
        rewrite for_each_single in Hx. by rewrite (bind_ok _ _ _ _ _ Hx).
    + right. split.
      * intros H. apply Hfx, (H x); [left|done].
      * pose proof (compute_scheduled_stop_turn_fails x env r Hr Ht Hfx)
          as Hx.
        unfold _compute_scheduled_stop in *. rewrite for_each_cons.
        rewrite for_each_single in Hx. by apply bind_err.
Qed.

(** A loop that ends has computed the stops of the rule. *)
Lemma compute_scheduled_stop_inv self env env' :
  rows_resolve env self →
  _compute_scheduled_stop self env = Ok (tt, env') →
  rows_fit env self ∧ env' = stops_recomputed self env.
Proof.
  intros Hall Hrun.
  destruct (compute_scheduled_stop_cases self env Hall)
    as [[Hfit Hok]|[_ Hko]]; [|congruence].
  split; [done|]. congruence.
Qed.

(** The tests of [stop_fits] and [rows_fit]. *)
Lemma stop_fits_check start hours :
  stop_fits_b start hours = true → stop_fits start hours.
Proof.
  unfold stop_fits_b. intros H.
  apply andb_prop in H as [H Hu]. apply andb_prop in H as [Hd Hl].
  unfold stop_fits. lia.
Qed.

Lemma rows_fit_check env self :
  rows_fit_b env self = true → rows_fit env self.
Proof.
  unfold rows_fit_b. rewrite forallb_forall.
  intros H sid r Hsid Hr.
  apply list_elem_of_In in Hsid. specialize (H sid Hsid).
  rewrite Hr in H. unfold row_fits.
  destruct (scheduled_start r); [by apply stop_fits_check|done].
Qed.

Lemma the_template_lookup env r tid tmpl :
  service_template_id r = Some tid → templates env !! tid = Some tmpl →
  the_template env r = tmpl.
Proof. intros Hr Ht. unfold the_template. by rewrite Hr, Ht. Qed.

Lemma stops_recomputed_lookup self env sid r :
  sid ∈ self → services env !! sid = Some r →
  services (stops_recomputed self env) !! sid = Some (recompute_stop env r).
Proof.
  intros Hin Hr. unfold stops_recomputed. simpl.
  rewrite map_lookup_imap, Hr. simpl. by rewrite bool_decide_eq_true_2.
Qed.

(** C3, the part that holds. When the stop of every service of the
    recordset can be computed (the hours make a timedelta and the stop is
    a datetime, 9999-12-31 23:59:59 at most), [_compute_scheduled_stop]
    ends and, for every service of the recordset whose scheduled start is
    set, stores a scheduled stop equal to the start plus max(duration of
    the template, 1) hours; when the duration is zero or negative the stop
    is the start plus one hour, and in every case the stop is at least one
    hour after the start. When the stop of a service of the recordset
    cannot be computed, the method raises [OverflowError] and stores no
    stop. *)
Theorem scheduled_stop_rule (env : Env) (self : list positive) :
  rows_resolve env self →
  (rows_fit env self →
   ∃ env', _compute_scheduled_stop self env = Ok (tt, env') ∧
     ∀ sid r start tid tmpl,
       sid ∈ self → services env !! sid = Some r →
       scheduled_start r = Some start →
       service_template_id r = Some tid → templates env !! tid = Some tmpl →
       ∃ r' stop,
         services env' !! sid = Some r' ∧
         scheduled_start r' = Some start ∧
         scheduled_stop r' = Some stop ∧
         stop = start + Z.max (duration tmpl) 1 * 3600 ∧
         (duration tmpl ≤ 0 → stop = start + 3600) ∧
         start + 3600 ≤ stop) ∧
  (¬ rows_fit env self →
   _compute_scheduled_stop self env = Err OverflowError).
Proof.
  intros Hall. split.
  - intros Hfit. exists (stops_recomputed self env).
    split; [by apply compute_scheduled_stop_all|].
    intros sid r start tid tmpl Hin Hr Hstart Htid Htmpl.
    exists (recompute_stop env r), (resolve_stop start (duration tmpl)).
    split; [by apply stops_recomputed_lookup|].
    unfold recompute_stop, stop_after. simpl.
    rewrite Hstart, (the_template_lookup env r tid tmpl) by done.
    unfold resolve_stop. repeat split; lia.
  - intros Hfit.
    by destruct (compute_scheduled_stop_cases self env Hall)
      as [[Hf _]|[_ Hrun]].
Qed.

Lemma scheduled_stop_rule_witness :
  ∃ env',
    _compute_scheduled_stop [1%positive]
      (with_services (insert 1%positive
         (apply_values (new_values 2 20 28800) null_service)) sample_env)
    = Ok (tt, env') ∧
    ∃ r', services env' !! 1%positive = Some r' ∧
          scheduled_stop r' = Some 32400.
Proof.
  set (r := apply_values (new_values 2 20 28800) null_service).
  set (env := with_services (insert 1%positive r) sample_env).
  assert (Hall : rows_resolve env [1%positive]).
  { intros sid Hin. apply list_elem_of_singleton in Hin. subst sid.
    exists r. split; [reflexivity|]. simpl. eexists. reflexivity. }
  assert (Hfit : rows_fit env [1%positive])
    by (apply rows_fit_check; vm_compute; reflexivity).
  destruct (scheduled_stop_rule env [1%positive] Hall) as [Hends _].
  destruct (Hends Hfit) as (env' & Hrun & Hpost).
  exists env'. split; [exact Hrun|].
  destruct (Hpost 1%positive r 28800 2%positive
              {| duration := 0; next_template_id := None;
                 service_container_ids := [20%positive];
                 exp_skill_ids := []; exp_eqp_cat_ids := [];
                 exp_vehicle_ids := [] |})
    as (r' & stop & Hr' & _ & Hstop & Heq & _);
    [ left | reflexivity | reflexivity | reflexivity | reflexivity | ].
  exists r'. split; [exact Hr'|]. rewrite Hstop, Heq. reflexivity.
Defined.

(** C3 as it is stated fails. The service 1 follows template 1, which
    lasts two hours, and starts on 9999-12-31 at 23:00:00: its row and its
    template exist and its start is set, but the stop of the rule is after
    the last datetime, and [_compute_scheduled_stop] raises
    [OverflowError] instead of storing it. The creation of this service
    raises the same error. *)
Lemma stop_after_last_datetime :
  rows_resolve late_env [1%positive] ∧
  (∃ r, services late_env !! 1%positive = Some r ∧
        scheduled_start r = Some last_hour ∧
        duration (the_template late_env r) = 2 ∧
        datetime_min ≤ last_hour ≤ datetime_max ∧
        datetime_max < last_hour + Z.max 2 1 * 3600) ∧
  _compute_scheduled_stop [1%positive] late_env = Err OverflowError ∧
  create (rule := quiet_rule) (new_values 1 10 last_hour) sample_env
    = Err OverflowError.
Proof.
  split; [|split; [|split]].
  - intros sid Hin. apply list_elem_of_singleton in Hin. subst sid.
    eexists. split; [reflexivity|]. simpl. eexists. reflexivity.
  - eexists. split; [reflexivity|]. split; [reflexivity|].
    split; [reflexivity|].
    unfold datetime_min, datetime_max, last_hour. lia.
  - vm_compute. reflexivity.
  - vm_compute. reflexivity.
Qed.

(** ** The coverage checks *)

Lemma skill_kind_laws : kind_laws skill_kind.
Proof. by split. Qed.

Lemma equipment_kind_laws : kind_laws equipment_kind.
Proof. by split. Qed.

Lemma vehicle_kind_laws : kind_laws vehicle_kind.
Proof. by split. Qed.

Lemma check_skill_request_shape :
  _check_skill_request = check_request skill_kind.
Proof. reflexivity. Qed.

Lemma check_equipment_request_shape :
  _check_equipment_request = check_request equipment_kind.
Proof. reflexivity. Qed.

Lemma check_vehicle_request_shape :
  _check_vehicle_request = check_request vehicle_kind.
Proof. reflexivity. Qed.

Lemma append_cons x (a b : string) : String x a +:+ b = String x (a +:+ b).
Proof. reflexivity. Qed.

Lemma append_nil_l (b : string) : "" +:+ b = b.
Proof. reflexivity. Qed.

Lemma append_assoc (a b c : string) : (a +:+ b) +:+ c = a +:+ (b +:+ c).
Proof.
  induction a as [|x a IH]; rewrite ?append_cons, ?append_nil_l; congruence.
Qed.

Lemma append_nil_r (a : string) : a +:+ "" = a.
Proof.
  induction a as [|x a IH]; rewrite ?append_cons, ?append_nil_l; congruence.
Qed.

Lemma join_lines_app l1 l2 :
  join_lines (l1 ++ l2) = join_lines l1 +:+ join_lines l2.
Proof.
  induction l1 as [|x l1 IH]; simpl; [done|].
  by rewrite IH, append_assoc.
Qed.

Lemma count_loop (test : positive → bool) l (acc : Z) :
  fold_left (fun qty x => if test x then qty + 1 else qty) l acc
  = acc + Z.of_nat (length (List.filter test l)).
Proof.
  revert acc. induction l as [|x l IH]; intros acc; simpl; [lia|].
  rewrite IH. destruct (test x); simpl; lia.
Qed.

Section OneService.
Context (k : check_kind) (Hk : kind_laws k).
Context (env0 : Env) (sid : positive) (r0 : service).

#[local] Abbreviation put := (with_check k env0 sid r0).
#[local] Abbreviation count := (count_holding k env0 r0).

Lemma put_lookup text :
  services (put text) !! sid = Some (set_check k (Some text) r0).
Proof. apply lookup_insert_eq. Qed.

Lemma put_again text text' :
  with_services
    (insert sid (set_check k (Some text') (set_check k (Some text) r0)))
    (put text) = put text'.
Proof.
  unfold put. rewrite with_services_twice. apply with_services_ext. simpl.
  by rewrite insert_insert_eq, (set_check_twice k Hk).
Qed.

Lemma append_cache_put text line :
  append_cache (check_of k) (set_check k) line [sid] (put text)
  = Ok (tt, put (text +:+ line)).
Proof.
  unfold append_cache, read_self.
  rewrite (bind_ok _ _ _ _ _ (read_ok _ _ _ _ (put_lookup text))).
  rewrite (check_of_set k Hk). unfold assign_cache.
  rewrite (update_ok _ _ _ _ (put_lookup text)). by rewrite put_again.
Qed.

Lemma request_turn_put text q :
  request_turn k [sid] sid q (put text)
  = Ok (tt, put (text +:+ join_lines (violation_lines count [q]))).
Proof.
  unfold request_turn.
  rewrite (bind_ok _ _ _ _ _ (read_ok _ _ _ _ (put_lookup text))).
  rewrite (assigned_set k Hk). unfold bind at 1.
  rewrite count_loop, Z.add_0_l.
  assert (Hc : Z.of_nat (length (List.filter
            (fun x => found k x (cat_id (req_category q)) (put text))
            (assigned k r0))) = count q).
  { unfold count, count_holding, put. f_equal. f_equal.
    apply List.filter_ext. intros x. apply (found_frame k Hk). }
  rewrite Hc. clear Hc. simpl. rewrite app_nil_r.
  destruct (count q <? min_qty q); simpl.
  - rewrite (bind_ok _ _ _ _ _ (append_cache_put _ _)).
    destruct ((0 <? max_qty q) && (max_qty q <? count q)); simpl.
    + rewrite append_cache_put. by rewrite append_assoc, append_nil_r.
    + unfold ret. by rewrite append_nil_r.
  - unfold ret at 1. unfold bind at 1.
    destruct ((0 <? max_qty q) && (max_qty q <? count q)); simpl.
    + rewrite append_cache_put. by rewrite append_nil_r.
    + unfold ret. by rewrite append_nil_r.
Qed.

Lemma requests_loop_put reqs text :
  for_each (request_turn k [sid] sid) reqs (put text)
  = Ok (tt, put (text +:+ join_lines (violation_lines count reqs))).
Proof.
  revert text. induction reqs as [|q reqs IH]; intros text.
  - simpl. unfold ret. by rewrite append_nil_r.
  - rewrite for_each_cons.
    rewrite (bind_ok _ _ _ _ _ (request_turn_put text q)).
    rewrite IH. rewrite append_assoc.
    change (q :: reqs) with ([q] ++ reqs)%list.
    unfold violation_lines at 3. rewrite flat_map_app.
    by rewrite join_lines_app.
Qed.

(** The check of one service on its own. *)
Lemma check_request_single :
  services env0 !! sid = Some r0 → template_resolves env0 r0 →
  check_request k [sid] env0
  = Ok (tt, put (diagnostic_of
                   (violation_lines count
                      (requested k (the_template env0 r0))))).
Proof.
  intros Hr Ht. unfold check_request.
  assert (Hloop : for_each (fun service =>
      assign_cache (set_check k (Some "")) [sid] >>
      let! tmpl := template_of service in
      for_each (request_turn k [sid] service) (requested k tmpl)) [sid] env0
    = Ok (tt, put (join_lines (violation_lines count
                     (requested k (the_template env0 r0)))))).
  { rewrite for_each_single. unfold assign_cache at 1.
    rewrite (bind_ok _ _ _ _ _ (update_ok _ _ _ _ Hr)).
    fold (put "").
    assert (Htmpl : template_of sid (put "")
                    = Ok (the_template env0 r0, put "")).
    { rewrite (template_of_ok _ _ _ (put_lookup "")).
      - unfold the_template. by rewrite (template_set k Hk).
      - unfold template_resolves. by rewrite (template_set k Hk). }
    rewrite (bind_ok _ _ _ _ _ Htmpl). by rewrite requests_loop_put. }
  rewrite (bind_ok _ _ _ _ _ Hloop). unfold read_self.
  rewrite (bind_ok _ _ _ _ _ (read_ok _ _ _ _ (put_lookup _))).
  rewrite (check_of_set k Hk). unfold diagnostic_of, when.
  set (text := join_lines _).
  destruct (decide (text = "")) as [He|He].
  - rewrite !bool_decide_eq_true_2; [|done|by rewrite He].
    unfold assign_cache. rewrite (update_ok _ _ _ _ (put_lookup _)).
    by rewrite put_again.
  - rewrite !bool_decide_eq_false_2; [done|done|congruence].
Qed.

End OneService.

(** *** The lines of a diagnostic *)

Lemma request_lines_nil count q :
  (if count q <? min_qty q
   then [missing_msg (cat_name (req_category q))] else []) ++
  (if (0 <? max_qty q) && (max_qty q <? count q)
   then [too_many_msg (cat_name (req_category q))] else []) = []
  ↔ satisfied (count q) q.
Proof.
  unfold satisfied.
  destruct (Z.ltb_spec (count q) (min_qty q));
    destruct (Z.ltb_spec 0 (max_qty q));
    destruct (Z.ltb_spec (max_qty q) (count q)); simpl;
    split; try done; try lia; intros [? ?]; lia.
Qed.

Lemma violation_lines_nil count reqs :
  violation_lines count reqs = [] ↔
  Forall (fun q => satisfied (count q) q) reqs.
Proof.
  induction reqs as [|q reqs IH]; simpl.
  - split; [constructor | done].
  - rewrite Forall_cons, <- IH, <- request_lines_nil.
    split.
    + intros H. by apply app_eq_nil in H.
    + intros [-> ->]. done.
Qed.

Lemma violation_lines_elem count reqs line :
  line ∈ violation_lines count reqs ↔
  ∃ q, q ∈ reqs ∧
    ((under_covered (count q) q ∧
      line = missing_msg (cat_name (req_category q))) ∨
     (over_covered (count q) q ∧
      line = too_many_msg (cat_name (req_category q)))).
Proof.
  unfold violation_lines, under_covered, over_covered.
  rewrite list_elem_of_In, in_flat_map.
  split.
  - intros (q & Hq & Hline). exists q. split; [by apply list_elem_of_In|].
    apply in_app_or in Hline as [Hline|Hline].
    + destruct (Z.ltb_spec (count q) (min_qty q)); [|done].
      destruct Hline as [<-|[]]. by left.
    + destruct (Z.ltb_spec 0 (max_qty q));
        destruct (Z.ltb_spec (max_qty q) (count q)); simpl in Hline;
        try done.
      destruct Hline as [<-|[]]. by right.
  - intros (q & Hq & Hline). exists q. split; [by apply list_elem_of_In|].
    apply in_or_app. destruct Hline as [[Hlt ->]|[[Hpos Hlt] ->]].
    + left. destruct (Z.ltb_spec (count q) (min_qty q)); [by left | lia].
    + right. destruct (Z.ltb_spec 0 (max_qty q)); [|lia].
      destruct (Z.ltb_spec (max_qty q) (count q)); [by left | lia].
Qed.

Lemma violation_line_starts count reqs line :
  line ∈ violation_lines count reqs → starts_line line.
Proof.
  intros H. apply violation_lines_elem in H as (q & _ & [[_ ->]|[_ ->]]).
  - by exists "M"%char, ("issing " +:+ cat_name (req_category q) +:+ newline).
  - by exists "T"%char, ("oo many " +:+ cat_name (req_category q) +:+ newline).
Qed.

Lemma join_lines_starts lines :
  lines ≠ [] → (∀ line, line ∈ lines → starts_line line) →
  starts_line (join_lines lines).
Proof.
  destruct lines as [|line lines]; [done|]. intros _ H.
  destruct (H line) as (c & rest & -> & Hc); [left|].
  exists c, (rest +:+ join_lines lines). by split.
Qed.

Lemma diagnostic_of_nil : diagnostic_of [] = "All covered".
Proof. done. Qed.

Lemma diagnostic_of_lines lines :
  lines ≠ [] → (∀ line, line ∈ lines → starts_line line) →
  diagnostic_of lines = join_lines lines ∧
  diagnostic_of lines ≠ "All covered".
Proof.
  intros Hne Hl.
  destruct (join_lines_starts lines Hne Hl) as (c & rest & Hj & Hc).
  unfold diagnostic_of. rewrite Hj.
  rewrite bool_decide_eq_false_2; [|done].
  split; [done|]. intros Heq. injection Heq as Heq _. done.
Qed.

Lemma diagnostic_of_spec count reqs :
  diagnostic_spec count reqs
    (Some (diagnostic_of (violation_lines count reqs))).
Proof.
  unfold diagnostic_spec.
  assert (Hcase : violation_lines count reqs = [] ∨
                  (diagnostic_of (violation_lines count reqs)
                     = join_lines (violation_lines count reqs) ∧
                   diagnostic_of (violation_lines count reqs)
                     ≠ "All covered" ∧
                   violation_lines count reqs ≠ [])).
  { destruct (violation_lines count reqs) as [|l ls] eqn:E; [by left|].
    right. rewrite <- E.
    assert (Hne : violation_lines count reqs ≠ []) by by rewrite E.
    destruct (diagnostic_of_lines (violation_lines count reqs) Hne)
      as [? ?]; [|done].
    intros line. apply violation_line_starts. }
  split; [|split; [|split; [|split]]].
  - destruct Hcase as [Hnil|(_ & Hne & Hlines)].
    + rewrite Hnil, diagnostic_of_nil.
      split; [intros _; by apply violation_lines_nil | done].
    + split; [intros [=]; done|].
      intros H. by apply violation_lines_nil in H.
  - intros Hnot. destruct Hcase as [Hnil|(Hj & _ & _)].
    + by apply violation_lines_nil in Hnil.
    + by rewrite Hj.
  - intros q Hq Hu. apply violation_lines_elem. exists q. split; [done|].
    by left.
  - intros q Hq Ho. apply violation_lines_elem. exists q. split; [done|].
    by right.
  - intros line. apply violation_lines_elem.
Qed.

Lemma check_request_outcome k env sid r :
  kind_laws k → services env !! sid = Some r → template_resolves env r →
  check_outcome k env sid r (check_request k [sid] env).
Proof.
  intros Hk Hr Ht. unfold check_outcome.
  rewrite (check_request_single k Hk env sid r Hr Ht).
  eexists _, _. split; [done|]. split; [apply lookup_insert_eq|].
  rewrite (check_of_set k Hk). apply diagnostic_of_spec.
Qed.

(** C1. For a service validated on its own and for each kind of resource,
    the check ends and the stored diagnostic is "All covered" if and only
    if every request of the template is satisfied by the assigned
    resources (the count of the resources that hold the category is at
    least the minimum and, when the maximum is positive, at most the
    maximum); otherwise it is made of the lines of the requests, with a
    "Missing" line for each request that is under-covered and a "Too many"
    line for each request that is over-covered, and of no other line. *)
Theorem coverage_diagnostic (env : Env) (sid : positive) (r : service) :
  services env !! sid = Some r → template_resolves env r →
  check_outcome skill_kind env sid r (_check_skill_request [sid] env) ∧
  check_outcome equipment_kind env sid r
    (_check_equipment_request [sid] env) ∧
  check_outcome vehicle_kind env sid r (_check_vehicle_request [sid] env).
Proof.
  intros Hr Ht.
  rewrite check_skill_request_shape, check_equipment_request_shape,
    check_vehicle_request_shape.
  split; [|split]; apply check_request_outcome;
    auto using skill_kind_laws, equipment_kind_laws, vehicle_kind_laws.
Qed.

Lemma coverage_diagnostic_witness :
  check_outcome skill_kind staffed_env 1 staffed_service
    (_check_skill_request [1%positive] staffed_env) ∧
  check_outcome equipment_kind staffed_env 1 staffed_service
    (_check_equipment_request [1%positive] staffed_env) ∧
  check_outcome vehicle_kind staffed_env 1 staffed_service
    (_check_vehicle_request [1%positive] staffed_env).
Proof.
  apply (coverage_diagnostic staffed_env 1%positive staffed_service).
  - reflexivity.
  - simpl. eexists. reflexivity.
Defined.

(** The two scenarios of the specification, run on the source: one driver
    where two are asked for, two vans where one is allowed. *)
Example missing_driver :
  employee_check <$>
    (services (env_after staffed_env
                 (_check_skill_request [1%positive] staffed_env))
       !! 1%positive)
  = Some (Some ("Missing driver" +:+ newline)).
Proof. vm_compute. reflexivity. Qed.

Example too_many_van :
  vehicle_check <$>
    (services (env_after staffed_env
                 (_check_vehicle_request [1%positive] staffed_env))
       !! 1%positive)
  = Some (Some ("Too many van" +:+ newline)).
Proof. vm_compute. reflexivity. Qed.

Example equipment_all_covered :
  equipment_check <$>
    (services (env_after staffed_env
                 (_check_equipment_request [1%positive] staffed_env))
       !! 1%positive)
  = Some (Some "All covered").
Proof. vm_compute. reflexivity. Qed.

(** *** The check of a kind writes the field of that kind only *)

Lemma assign_cache_inv f self env env' :
  assign_cache f self env = Ok (tt, env') →
  ∃ sid r, self = [sid] ∧ services env !! sid = Some r ∧
           env' = with_services (insert sid (f r)) env.
Proof.
  destruct self as [|sid [|? ?]]; try discriminate.
  unfold assign_cache, update.
  destruct (services env !! sid) as [r|] eqn:Hr; [|discriminate].
  intros [= <-]. eauto.
Qed.

Lemma template_of_inv sid env t env' :
  template_of sid env = Ok (t, env') →
  ∃ r, services env !! sid = Some r ∧ template_resolves env r.
Proof.
  unfold template_of, bind, read.
  destruct (services env !! sid) as [r|] eqn:Hr; [|discriminate].
  intros H. exists r. split; [done|]. unfold template_resolves.
  destruct (service_template_id r) as [tid|]; [|done].
  destruct (templates env !! tid) as [t'|]; [eauto | discriminate].
Qed.

(** A check that ends has either found nothing to do, or has been run on
    one service, of which it has set the check field. *)
Lemma check_request_effect k self env env' :
  kind_laws k →
  check_request k self env = Ok (tt, env') →
  env' = env ∨
  ∃ sid r text, services env !! sid = Some r ∧
    env' = with_services (insert sid (set_check k (Some text) r)) env.
Proof.
  intros Hk H. destruct self as [|sid self].
  - left. unfold check_request in H. simpl in H. by injection H.
  - right. assert (Hrun := H). unfold check_request in H.
    apply bind_inv in H as ([] & env1 & Hloop & _).
    rewrite for_each_cons in Hloop.
    apply bind_inv in Hloop as ([] & env2 & Hturn & _).
    apply bind_inv in Hturn as ([] & env3 & Hset & Htmpl).
    apply assign_cache_inv in Hset as (sid' & r & [= <- ->] & Hr & ->).
    apply bind_inv in Htmpl as (t & env4 & Ht & _).
    apply template_of_inv in Ht as (r' & Hr' & Hres).
    simpl in Hr'. rewrite lookup_insert_eq in Hr'. injection Hr' as <-.
    assert (Hres0 : template_resolves env r).
    { unfold template_resolves in *.
      by rewrite (template_set k Hk) in Hres. }
    rewrite (check_request_single k Hk env sid r Hr Hres0) in Hrun.
    injection Hrun as <-. eauto.
Qed.

(** C9. When the check of one kind of resource ends, every service has
    kept all its fields but the check field of that kind: the check fields
    of the two other kinds are unchanged. The check of a service on its
    own ends when the service and its template exist. *)
Theorem check_fields_independent (kind other : resource_kind)
    (self : list positive) (env : Env) :
  other ≠ kind →
  (∀ env', check_method kind self env = Ok (tt, env') →
     ∀ sid r, services env !! sid = Some r →
       ∃ r', services env' !! sid = Some r' ∧
             check_field other r' = check_field other r ∧
             r' = set_check_field kind (check_field kind r') r) ∧
  (∀ sid r, self = [sid] → services env !! sid = Some r →
     template_resolves env r →
     ∃ env', check_method kind self env = Ok (tt, env')).
Proof.
  intros Hother. split.
  - intros env' Hrun sid r Hr.
    assert (Heff : env' = env ∨
      ∃ sid0 r0 text, services env !! sid0 = Some r0 ∧
        env' = with_services
                 (insert sid0 (set_check_field kind (Some text) r0)) env).
    { destruct kind; simpl in Hrun.
      - apply (check_request_effect skill_kind self env env' skill_kind_laws).
        by rewrite <- check_skill_request_shape.
      - apply (check_request_effect equipment_kind self env env'
                 equipment_kind_laws).
        by rewrite <- check_equipment_request_shape.
      - apply (check_request_effect vehicle_kind self env env'
                 vehicle_kind_laws).
        by rewrite <- check_vehicle_request_shape. }
    destruct Heff as [->|(sid0 & r0 & text & Hr0 & ->)].
    + exists r. split; [done|]. split; [done|].
      destruct kind, r; reflexivity.
    + simpl. rewrite lookup_insert. case_decide as Hsid.
      * subst sid0. rewrite Hr in Hr0. injection Hr0 as <-.
        eexists. split; [done|].
        split; destruct kind, other; done.
      * exists r. split; [done|]. split; [done|].
        destruct kind, r; reflexivity.
  - intros sid r -> Hr Hres.
    destruct kind; simpl; eexists.
    + rewrite check_skill_request_shape.
      apply (check_request_single skill_kind skill_kind_laws env sid r Hr Hres).
    + rewrite check_equipment_request_shape.
      apply (check_request_single equipment_kind equipment_kind_laws
               env sid r Hr Hres).
    + rewrite check_vehicle_request_shape.
      apply (check_request_single vehicle_kind vehicle_kind_laws
               env sid r Hr Hres).
Qed.

Lemma check_fields_independent_witness :
  ∃ r', services (env_after staffed_env
                    (_check_skill_request [1%positive] staffed_env))
          !! 1%positive = Some r' ∧
        vehicle_check r' = None ∧
        r' = set_employee_check (employee_check r') staffed_service.
Proof.
  assert (Hother : VehicleCategory ≠ Skill) by discriminate.
  destruct (check_fields_independent Skill VehicleCategory [1%positive]
              staffed_env Hother) as [Hframe Hends].
  assert (Hres : template_resolves staffed_env staffed_service).
  { simpl. eexists. reflexivity. }
  destruct (Hends 1%positive staffed_service eq_refl eq_refl Hres)
    as [env' Hrun].
  change (check_method Skill [1%positive] staffed_env)
    with (_check_skill_request [1%positive] staffed_env) in *.
  rewrite Hrun. cbn [env_after].
  exact (Hframe env' Hrun 1%positive staffed_service eq_refl).
Defined.

(** ** The inherited methods *)

Lemma template_resolves_lookup env r tid :
  service_template_id r = Some tid → is_Some (templates env !! tid) →
  template_resolves env r.
Proof. intros Hr Ht. unfold template_resolves. by rewrite Hr. Qed.

Lemma created_row_fits values env tid start tmpl :
  v_service_template_id values = Some tid →
  v_scheduled_start values = Some start →
  templates env !! tid = Some tmpl →
  row_fits env (apply_values values null_service)
  ↔ stop_fits start (duration tmpl).
Proof.
  intros Ht Hs Htmpl. unfold row_fits, the_template. simpl.
  rewrite Hs, Ht. simpl. by rewrite Htmpl.
Qed.

Lemma base_create_ok values env tid cid start tmpl :
  v_service_template_id values = Some tid →
  v_service_container_id values = Some cid →
  v_scheduled_start values = Some start →
  templates env !! tid = Some tmpl →
  stop_fits start (duration tmpl) →
  base_create values env =
    Ok (service_seq env,
        with_service_seq (Pos.succ (service_seq env))
          (with_services
             (insert (service_seq env) (created_row env values)) env)).
Proof.
  intros Ht Hc Hs Htmpl Hfit. unfold base_create. rewrite Ht, Hc, Hs.
  unfold bind at 1.
  set (sid := service_seq env).
  set (r := apply_values values null_service).
  set (env0 := with_service_seq _ _).
  assert (Hr : services env0 !! sid = Some r) by apply lookup_insert_eq.
  assert (Hres0 : template_resolves env0 r).
  { apply (template_resolves_lookup _ _ tid); [|by eexists].
    unfold r. simpl. by rewrite Ht. }
  assert (Hfit0 : row_fits env0 r).
  { by apply (created_row_fits values env0 tid start tmpl). }
  rewrite (bind_ok _ _ _ _ _
             (compute_scheduled_stop_turn sid env0 r Hr Hres0 Hfit0)).
  unfold ret. f_equal. f_equal.
  unfold env0, with_services, with_service_seq. simpl.
  by rewrite insert_insert_eq.
Qed.

Lemma base_create_inv values env sid env1 :
  base_create values env = Ok (sid, env1) →
  ∃ tid cid start,
    v_service_template_id values = Some tid ∧
    v_service_container_id values = Some cid ∧
    v_scheduled_start values = Some start ∧
    is_Some (templates env !! tid) ∧
    sid = service_seq env ∧
    env1 = with_service_seq (Pos.succ sid)
             (with_services (insert sid (created_row env values)) env).
Proof.
  intros H. assert (Hrun := H). unfold base_create in H.
  destruct (v_service_template_id values) as [tid|] eqn:Ht; [|done].
  destruct (v_service_container_id values) as [cid|] eqn:Hc; [|done].
  destruct (v_scheduled_start values) as [start|] eqn:Hs; [|done].
  unfold bind at 1 in H.
  apply bind_inv in H as ([] & env2 & Hcomp0 & _).
  assert (Hres : is_Some (templates env !! tid)).
  { assert (Hcomp := Hcomp0).
    unfold _compute_scheduled_stop in Hcomp.
    rewrite for_each_single in Hcomp.
    apply bind_inv in Hcomp as (st & env3 & Hread & Hrest).
    unfold read in Hread. simpl in Hread.
    rewrite lookup_insert_eq in Hread. injection Hread as <- <-.
    simpl in Hrest. rewrite Hs in Hrest.
    apply bind_inv in Hrest as (t & env4 & Htmpl & _).
    apply template_of_inv in Htmpl as (r' & Hr' & Hres).
    simpl in Hr'. rewrite lookup_insert_eq in Hr'. injection Hr' as <-.
    unfold template_resolves in Hres. simpl in Hres.
    by rewrite Ht in Hres. }
  destruct Hres as [tmpl Htmpl].
  assert (Hfit : stop_fits start (duration tmpl)).
  { match type of Hcomp0 with
    | _compute_scheduled_stop [?sid] ?env0 = _ =>
        apply (created_row_fits values env0 tid start tmpl Ht Hs Htmpl);
        apply (compute_scheduled_stop_turn_fits sid env0 _ env2);
          [apply lookup_insert_eq | | exact Hcomp0]
    end.
    apply (template_resolves_lookup _ _ tid); [|by eexists].
    simpl. by rewrite Ht. }
  rewrite (base_create_ok values env tid cid start tmpl Ht Hc Hs Htmpl Hfit)
    in Hrun.
  injection Hrun as <- <-. exists tid, cid, start. eauto 10.
Qed.

Lemma base_write_single sid values env r :
  services env !! sid = Some r →
  (is_Some (v_scheduled_start values) →
   template_resolves env (apply_values values r) ∧
   row_fits env (apply_values values r)) →
  base_write [sid] values env =
    Ok (true, with_services (insert sid (written_row env values r)) env).
Proof.
  intros Hr Hres. unfold base_write, written_row.
  rewrite bind_for_each_single.
  rewrite (bind_ok _ _ _ _ _ (update_ok _ _ _ _ Hr)).
  set (env0 := with_services _ env).
  destruct (v_scheduled_start values) as [start|] eqn:Hs.
  - rewrite bool_decide_eq_true_2 by eauto. unfold when.
    assert (Hr0 : services env0 !! sid = Some (apply_values values r))
      by apply lookup_insert_eq.
    assert (Hres0 : template_resolves env0 (apply_values values r)).
    { apply Hres. eauto. }
    assert (Hfit0 : row_fits env0 (apply_values values r)).
    { apply Hres. eauto. }
    rewrite (bind_ok _ _ _ _ _
               (compute_scheduled_stop_turn sid env0 _ Hr0 Hres0 Hfit0)).
    unfold ret. f_equal. f_equal.
    unfold env0, with_services. simpl. by rewrite insert_insert_eq.
  - rewrite bool_decide_eq_false_2; [done|]. by intros [? ?].
Qed.

Lemma base_write_single_inv sid values env b env1 :
  base_write [sid] values env = Ok (b, env1) →
  ∃ r, services env !! sid = Some r ∧ b = true ∧
       env1 = with_services (insert sid (written_row env values r)) env.
Proof.
  intros H. assert (Hrun := H). unfold base_write in H.
  apply bind_inv in H as ([] & env2 & Hupd & Hrest).
  rewrite for_each_single in Hupd. unfold update in Hupd.
  destruct (services env !! sid) as [r|] eqn:Hr; [|done].
  injection Hupd as <-.
  assert (Hres : is_Some (v_scheduled_start values) →
                 template_resolves env (apply_values values r) ∧
                 row_fits env (apply_values values r)).
  { intros Hsome. rewrite bool_decide_eq_true_2 in Hrest by done.
    apply bind_inv in Hrest as ([] & env3 & Hcomp0 & _).
    unfold when in Hcomp0. assert (Hcomp := Hcomp0).
    unfold _compute_scheduled_stop in Hcomp.
    rewrite for_each_single in Hcomp.
    apply bind_inv in Hcomp as (st & env4 & Hread & Hrest).
    unfold read in Hread. simpl in Hread.
    rewrite lookup_insert_eq in Hread. injection Hread as <- <-.
    destruct Hsome as [start Hs]. simpl in Hrest. rewrite Hs in Hrest.
    apply bind_inv in Hrest as (t & env5 & Htmpl & _).
    apply template_of_inv in Htmpl as (r' & Hr' & Hres).
    simpl in Hr'. rewrite lookup_insert_eq in Hr'. injection Hr' as <-.
    split; [done|].
    match type of Hcomp0 with
    | _compute_scheduled_stop [_] ?env0 = _ =>
        apply (compute_scheduled_stop_turn_fits sid env0 _ env3);
          [apply lookup_insert_eq | exact Hres | exact Hcomp0]
    end. }
  rewrite (base_write_single sid values env r Hr Hres) in Hrun.
  injection Hrun as <- <-. eauto.
Qed.

(** ** The conflict hook of [write] *)

Section Hook.
Context {rule : ServiceRule}.

Lemma double_assign_inv self p env result env' :
  double_assign self p env = Ok (result, env') →
  service_rule_double_assign (resource_type p) (srv_id p) env = Ok result ∧
  env' = log_rule_call (resource_type p, srv_id p) env.
Proof.
  unfold double_assign.
  destruct (service_rule_double_assign _ _ env); [|done].
  by intros [= <- <-].
Qed.

(** [write] on one service: the inherited [write] comes first, the rule is
    then called once on the written table, and its result is dropped. *)
Lemma write_single sid values env r :
  services env !! sid = Some r →
  (is_Some (v_scheduled_start values) →
   template_resolves env (apply_values values r) ∧
   row_fits env (apply_values values r)) →
  write [sid] values env =
    let env1 := with_services (insert sid (written_row env values r)) env in
    match service_rule_double_assign "all" (Some sid) env1 with
    | Ok _ => Ok (true, log_rule_call ("all", Some sid) env1)
    | Err e => Err e
    end.
Proof.
  intros Hr Hres. unfold write.
  rewrite (bind_ok _ _ _ _ _ (base_write_single sid values env r Hr Hres)).
  unfold self_id. unfold bind at 1, ret at 1.
  unfold bind, double_assign. simpl.
  by destruct (service_rule_double_assign _ _ _).
Qed.

Lemma write_single_inv sid values env b env' :
  write [sid] values env = Ok (b, env') →
  ∃ r, services env !! sid = Some r ∧ b = true ∧
       env' = log_rule_call ("all", Some sid)
                (with_services (insert sid (written_row env values r)) env).
Proof.
  intros H. unfold write in H.
  apply bind_inv in H as (b' & env1 & Hbase & Hrest).
  apply base_write_single_inv in Hbase as (r & Hr & -> & ->).
  apply bind_inv in Hrest as (srv & env2 & Hid & Hrest).
  injection Hid as <- <-.
  apply bind_inv in Hrest as (res & env3 & Hrule & Hret).
  apply double_assign_inv in Hrule as [_ ->].
  injection Hret as <- <-. eauto.
Qed.

Lemma assign_inv sid values env env' :
  assign values sid env = Ok (tt, env') →
  ∃ r, services env !! sid = Some r ∧
       env' = log_rule_call ("all", Some sid)
                (with_services (insert sid (written_row env values r)) env).
Proof.
  intros H. unfold assign in H.
  apply bind_inv in H as (b & env1 & Hw & Hret).
  injection Hret as <-.
  apply write_single_inv in Hw as (r & Hr & _ & ->). eauto.
Qed.

Lemma assign_ok sid values env r :
  services env !! sid = Some r →
  v_scheduled_start values = None →
  rule_passes sid →
  assign values sid env =
    Ok (tt, log_rule_call ("all", Some sid)
              (with_services (insert sid (apply_values values r)) env)).
Proof.
  intros Hr Hs Hpass. unfold assign.
  rewrite (bind_ok _ _ _ true
    (log_rule_call ("all", Some sid)
       (with_services (insert sid (apply_values values r)) env))); [done|].
  rewrite (write_single sid values env r Hr).
  - unfold written_row. rewrite Hs. simpl.
    by destruct (Hpass (with_services (insert sid (apply_values values r)) env))
      as [res ->].
  - rewrite Hs. by intros [? ?].
Qed.

End Hook.

(** ** The creation *)

Section Creation.
Context {rule : ServiceRule}.

Lemma stamped_row_template env r :
  service_template_id (stamped_row env r) = service_template_id r.
Proof. unfold stamped_row. by destruct (truthy_char _). Qed.

Lemma stamped_row_stop env r :
  scheduled_stop (stamped_row env r) = scheduled_stop r.
Proof. unfold stamped_row. by destruct (truthy_char _). Qed.

Lemma first_id_inv l x env env' :
  first_id l env = Ok (x, env') → ∃ rest, l = x :: rest ∧ env' = env.
Proof. destruct l as [|y rest]; [done|]. intros [= <- <-]. eauto. Qed.

(** What a creation that ends has done. *)
Lemma create_inv values env sid env' :
  create values env = Ok (sid, env') →
  ∃ tid cid start tmpl,
    v_service_template_id values = Some tid ∧
    v_service_container_id values = Some cid ∧
    v_scheduled_start values = Some start ∧
    templates env !! tid = Some tmpl ∧
    sid = service_seq env ∧
    templates env' = templates env ∧
    services env' =
      created_services env sid (stamped_row env (created_row env values)) tmpl ∧
    match next_template_id tmpl with
    | Some next_serv =>
        service_container_ids tmpl ≠ [] ∧
        is_Some (templates env !! next_serv) ∧
        service_seq env' = Pos.succ (Pos.succ sid)
    | None => service_seq env' = Pos.succ sid
    end.
Proof.
  intros H. unfold create in H.
  apply bind_inv in H as (new_service & env1 & Hbase & H).
  apply base_create_inv in Hbase
    as (tid & cid & start & Ht & Hc & Hs & [tmpl Htmpl] & -> & ->).
  set (sid0 := service_seq env) in *.
  exists tid, cid, start, tmpl. do 4 (split; [done|]).
  assert (Htid0 : service_template_id (created_row env values) = Some tid).
  { unfold created_row. simpl. by rewrite Ht. }
  remember (created_row env values) as r0 eqn:Hr0def.
  set (env1 := with_service_seq _ _) in *.
  assert (Hr0 : services env1 !! sid0 = Some r0) by apply lookup_insert_eq.
  apply bind_inv in H as (generation & env2 & Hgen & H).
  rewrite (read_ok _ _ _ _ Hr0) in Hgen. injection Hgen as <- <-.
  apply bind_inv in H as ([] & env3 & Hstamp & H).
  assert (Henv3 : services env3 = <[sid0 := stamped_row env r0]> (services env)
                  ∧ service_seq env3 = Pos.succ sid0
                  ∧ templates env3 = templates env).
  { unfold stamped_row.
    destruct (truthy_char (generation_id r0)) eqn:Hg;
      cbn [negb when] in Hstamp.
    - by injection Hstamp as <-.
    - apply bind_inv in Hstamp as (stamp & env4 & Hnow & Ha).
      injection Hnow as <- <-.
      apply assign_inv in Ha as (r & Hr & ->).
      rewrite Hr0 in Hr. injection Hr as <-.
      simpl. by rewrite insert_insert_eq. }
  destruct Henv3 as (Hsv3 & Hseq3 & Htm3).
  set (r1 := stamped_row env r0) in *.
  assert (Hr1 : services env3 !! sid0 = Some r1).
  { rewrite Hsv3. apply lookup_insert_eq. }
  assert (Htid1 : service_template_id r1 = Some tid).
  { unfold r1. by rewrite stamped_row_template. }
  apply bind_inv in H as (tmpl' & env6 & Htm & H).
  assert (Htm' : template_of sid0 env3 = Ok (tmpl, env3)).
  { rewrite (template_of_ok _ _ _ Hr1).
    - by rewrite (the_template_lookup env3 r1 tid tmpl) by congruence.
    - apply (template_resolves_lookup _ _ tid); [done|].
      rewrite Htm3. eauto. }
  rewrite Htm' in Htm. injection Htm as <- <-.
  apply bind_inv in H as ([] & env5 & H & Hret).
  injection Hret as <- <-. split; [done|].
  unfold created_services.
  destruct (next_template_id tmpl) as [next_serv|] eqn:Hnext.
  - apply bind_inv in H as (next_strt & env7 & Hstop & H).
    rewrite (read_ok _ _ _ _ Hr1) in Hstop. injection Hstop as <- <-.
    apply bind_inv in H as (next_cont & env8 & Hcont & H).
    apply first_id_inv in Hcont as (rest & Hcont & ->).
    apply bind_inv in H as (generation & env9 & Hgen & H).
    rewrite (read_ok _ _ _ _ Hr1) in Hgen. injection Hgen as <- <-.
    apply bind_inv in H as (nxt & env10 & Hnxt & H).
    apply base_create_inv in Hnxt
      as (tid' & cid' & start' & [= <-] & [= <-] & Hs' & Hres' & -> & ->).
    apply assign_inv in H as (r & Hr & ->).
    simpl in Hr. rewrite Hseq3 in Hr.
    rewrite lookup_insert_ne in Hr by lia.
    rewrite Hr1 in Hr. injection Hr as <-.
    rewrite Hcont. simpl. rewrite Hseq3, Hsv3, Htm3.
    split; [done|]. split.
    + unfold created_row at 2.
      rewrite (recompute_stop_frame env env3) by done. done.
    + split; [done|]. split; [by rewrite <- Htm3|done].
  - injection H as <-. rewrite Htm3, Hsv3, Hseq3. done.
Qed.

Lemma created_row_stop env values tid tmpl start :
  v_service_template_id values = Some tid →
  templates env !! tid = Some tmpl →
  v_scheduled_start values = Some start →
  scheduled_stop (created_row env values)
  = Some (resolve_stop start (duration tmpl)).
Proof.
  intros Ht Htmpl Hs. unfold created_row, recompute_stop, stop_after.
  simpl. rewrite Hs. simpl. f_equal. f_equal. f_equal.
  apply (the_template_lookup _ _ tid); [|done]. simpl. by rewrite Ht.
Qed.

(** A creation ends when the required values are given, the templates
    exist, the template has a container if it names a next template, the
    stops can be computed and the rule subsystem raises nothing. *)
Lemma create_ok values env tid cid start tmpl :
  v_service_template_id values = Some tid →
  v_service_container_id values = Some cid →
  v_scheduled_start values = Some start →
  templates env !! tid = Some tmpl →
  match next_template_id tmpl with
  | Some next_serv =>
      service_container_ids tmpl ≠ [] ∧ is_Some (templates env !! next_serv)
  | None => True
  end →
  creation_fits env start tmpl →
  rule_passes (service_seq env) →
  ∃ env', create values env = Ok (service_seq env, env').
Proof.
  intros Ht Hc Hs Htmpl Hnext [Hfit Hfitn] Hpass. unfold create.
  rewrite (bind_ok _ _ _ _ _
             (base_create_ok values env tid cid start tmpl Ht Hc Hs
                Htmpl Hfit)).
  set (sid := service_seq env).
  assert (Htid0 : service_template_id (created_row env values) = Some tid).
  { unfold created_row. simpl. by rewrite Ht. }
  pose proof (created_row_stop env values tid tmpl start Ht Htmpl Hs)
    as Hstop0.
  remember (created_row env values) as r0 eqn:Hr0def.
  set (env1 := with_service_seq _ _).
  assert (Hr0 : services env1 !! sid = Some r0) by apply lookup_insert_eq.
  rewrite (bind_ok _ _ _ _ _ (read_ok _ _ _ _ Hr0)).
  assert (Hstamp : ∃ env3,
    when (negb (truthy_char (generation_id r0)))
      (let! stamp := now_strftime in
       assign (generation_values stamp) sid) env1 = Ok (tt, env3) ∧
    services env3 !! sid = Some (stamped_row env r0) ∧
    service_seq env3 = Pos.succ sid ∧ templates env3 = templates env).
  { unfold stamped_row. destruct (truthy_char (generation_id r0));
      cbn [negb when].
    - by exists env1.
    - eexists. split.
      + unfold now_strftime, bind at 1.
        by apply (assign_ok sid _ env1 r0).
      + simpl. by rewrite lookup_insert_eq. }
  destruct Hstamp as (env3 & Hrun3 & Hr1 & Hseq3 & Htm3).
  unfold generation_values in Hrun3.
  rewrite (bind_ok _ _ _ _ _ Hrun3).
  set (r1 := stamped_row env r0) in *.
  assert (Htid1 : service_template_id r1 = Some tid).
  { unfold r1. by rewrite stamped_row_template. }
  assert (Htm' : template_of sid env3 = Ok (tmpl, env3)).
  { rewrite (template_of_ok _ _ _ Hr1).
    - by rewrite (the_template_lookup env3 r1 tid tmpl) by congruence.
    - apply (template_resolves_lookup _ _ tid); [done|].
      rewrite Htm3. eauto. }
  rewrite (bind_ok _ _ _ _ _ Htm').
  apply bind_ret_ok.
  destruct (next_template_id tmpl) as [next_serv|].
  - destruct Hnext as [Hcont [next_tmpl Hres]].
    specialize (Hfitn next_serv next_tmpl eq_refl Hres).
    destruct (service_container_ids tmpl) as [|next_cont rest]; [done|].
    rewrite (bind_ok _ _ _ _ _ (read_ok _ _ _ _ Hr1)).
    cbn [first_id]. rewrite bind_ret.
    rewrite (bind_ok _ _ _ _ _ (read_ok _ _ _ _ Hr1)).
    assert (Hstop1 : scheduled_stop r1
                     = Some (resolve_stop start (duration tmpl))).
    { unfold r1. by rewrite stamped_row_stop. }
    rewrite Hstop1.
    match goal with
    | |- context [base_create ?data] =>
        rewrite (bind_ok _ _ _ _ _
          (base_create_ok data env3 next_serv next_cont _ next_tmpl
             eq_refl eq_refl eq_refl ltac:(by rewrite Htm3) Hfitn))
    end.
    rewrite Hseq3.
    set (env4 := with_service_seq _ _).
    assert (Hr4 : services env4 !! sid = Some r1).
    { unfold env4. simpl. rewrite lookup_insert_ne by lia. done. }
    eexists.
    apply (assign_ok sid (next_values (Some (Pos.succ sid))) env4 r1 Hr4
             eq_refl Hpass).
  - unfold ret. eauto.
Qed.

End Creation.

(** C4, the part that holds. After the creation of a service whose
    template names a next template, the next pointer of the created
    service refers to a service that did not exist before, whose parent is
    the created service, whose scheduled start is the scheduled stop of
    the created service, whose template is the next template and whose
    generation id is the one of the created service. Such a creation ends
    when a container and a start are given, the template has a container,
    the next template exists, the stops of both services can be computed
    (they are datetimes) and the rule subsystem raises nothing. *)
Theorem create_links_successor `{ServiceRule} (values : Values) (env : Env)
    (tid : positive) (tmpl : template) (next_serv : positive) :
  ids_fresh env →
  v_service_template_id values = Some tid →
  templates env !! tid = Some tmpl →
  next_template_id tmpl = Some next_serv →
  (∀ sid env', create values env = Ok (sid, env') →
     ∃ r next rn,
       services env' !! sid = Some r ∧
       next_service_id r = Some next ∧
       next ≠ sid ∧ services env !! next = None ∧
       services env' !! next = Some rn ∧
       parent_service_id rn = Some sid ∧
       scheduled_start rn = scheduled_stop r ∧
       service_template_id rn = Some next_serv ∧
       generation_id rn = generation_id r ∧
       linked env' sid r) ∧
  (is_Some (v_service_container_id values) →
   is_Some (v_scheduled_start values) →
   service_container_ids tmpl ≠ [] →
   is_Some (templates env !! next_serv) →
   (∀ start, v_scheduled_start values = Some start →
      creation_fits env start tmpl) →
   rule_passes (service_seq env) →
   ∃ sid env', create values env = Ok (sid, env')).
Proof.
  intros Hfresh Ht Htmpl Hnext. split.
  - intros sid env' Hrun.
    apply create_inv in Hrun
      as (tid' & cid & start & tmpl' & Ht' & Hc & Hs & Htmpl' & -> & _ &
          Hsv & Hmatch).
    rewrite Ht in Ht'. injection Ht' as <-.
    rewrite Htmpl in Htmpl'. injection Htmpl' as <-.
    rewrite Hnext in Hmatch. destruct Hmatch as (Hcont & _ & _).
    unfold created_services in Hsv. rewrite Hnext in Hsv.
    destruct (service_container_ids tmpl) as [|next_cont rest]; [done|].
    set (sid := service_seq env) in *.
    set (r1 := stamped_row env (created_row env values)) in *.
    assert (Hne : Pos.succ sid ≠ sid) by lia.
    assert (Hrn : services env' !! Pos.succ sid =
              Some (created_row env
                      (successor_values next_serv next_cont
                         (scheduled_stop r1) sid (generation_id r1)))).
    { rewrite Hsv, lookup_insert_ne, lookup_insert_eq by done. done. }
    eexists _, (Pos.succ sid), _.
    split; [by rewrite Hsv, lookup_insert_eq|].
    split; [done|]. split; [done|]. split.
    { destruct (services env !! Pos.succ sid) eqn:E; [|done].
      assert (Pos.succ sid < sid)%positive by (apply Hfresh; eauto). lia. }
    assert (Hkeep : ∀ A (x : option A), keep_opt x None = x)
      by (by intros A [x|]).
    split; [exact Hrn|]. split; [done|]. split; [apply Hkeep|].
    split; [done|]. split; [apply Hkeep|].
    intros next [= <-]. eexists. split; [exact Hrn|].
    split; [done|apply Hkeep].
  - intros [cid Hc] [start Hs] Hcont Hres Hfit Hpass.
    destruct (create_ok values env tid cid start tmpl Ht Hc Hs Htmpl)
      as [env' Hrun]; [by rewrite Hnext|by apply Hfit|done|eauto].
Qed.

Lemma sample_env_fresh : ids_fresh sample_env.
Proof.
  intros sid [r Hr]. unfold sample_env in Hr. simpl in Hr.
  by rewrite lookup_empty in Hr.
Qed.

Lemma quiet_rule_passes sid : @rule_passes quiet_rule sid.
Proof. intros env. by exists tt. Qed.

Lemma create_links_successor_witness :
  ∃ r rn,
    services (env_after sample_env
                (create (rule := quiet_rule) (new_values 1 10 28800)
                   sample_env)) !! 1%positive = Some r ∧
    next_service_id r = Some 2%positive ∧
    services (env_after sample_env
                (create (rule := quiet_rule) (new_values 1 10 28800)
                   sample_env)) !! 2%positive = Some rn ∧
    parent_service_id rn = Some 1%positive ∧
    scheduled_start rn = Some 36000 ∧
    scheduled_stop r = Some 36000.
Proof.
  destruct (create_links_successor (H := quiet_rule) (new_values 1 10 28800)
              sample_env 1%positive
              {| duration := 2; next_template_id := Some 2%positive;
                 service_container_ids := [10%positive];
                 exp_skill_ids :=
                   [{| req_category := driver; min_qty := 2; max_qty := 0 |}];
                 exp_eqp_cat_ids := [];
                 exp_vehicle_ids :=
                   [{| req_category := van; min_qty := 1; max_qty := 1 |}] |}
              2%positive sample_env_fresh eq_refl eq_refl eq_refl)
    as [Hpost Hends].
  assert (Hrun : create (rule := quiet_rule) (new_values 1 10 28800)
                   sample_env
                 = Ok (1%positive,
                       env_after sample_env
                         (create (rule := quiet_rule) (new_values 1 10 28800)
                            sample_env)))
    by (vm_compute; reflexivity).
  destruct (Hpost 1%positive _ Hrun)
    as (r & next & rn & Hr & Hnext & _ & _ & Hrn & Hparent & Hstart & _).
  assert (Hr2 : services (env_after sample_env
                  (create (rule := quiet_rule) (new_values 1 10 28800)
                     sample_env)) !! 1%positive
                = Some (apply_values (next_values (Some 2%positive))
                          (stamped_row sample_env
                             (created_row sample_env
                                (new_values 1 10 28800)))))
    by (vm_compute; reflexivity).
  rewrite Hr2 in Hr. injection Hr as <-.
  injection Hnext as <-.
  exists (apply_values (next_values (Some 2%positive))
            (stamped_row sample_env
               (created_row sample_env (new_values 1 10 28800)))), rn.
  split; [exact Hr2|]. split; [reflexivity|]. split; [exact Hrn|].
  split; [exact Hparent|]. split; [rewrite Hstart; reflexivity|].
  reflexivity.
Defined.

(** C4 as it is stated fails: a [write] sets the next pointer of a service
    without touching the service it refers to. Services 1 and 2 are created
    one after the other; after [write] of [next_service_id] on service 1,
    the next pointer of service 1 is set and the parent of service 2 is
    not service 1. *)
Lemma next_link_not_invariant :
  two_services_env =
    env_after sample_env
      (create (rule := quiet_rule) (new_values 2 20 32400)
         (env_after sample_env
            (create (rule := quiet_rule) (new_values 2 20 28800) sample_env)))
  ∧ chain_linked two_services_env
  ∧ write (rule := quiet_rule) [1%positive] (next_values (Some 2%positive))
      two_services_env = Ok (true, relinked_env)
  ∧ ¬ chain_linked relinked_env.
Proof.
  split; [reflexivity|]. split; [|split; [vm_compute; reflexivity|]].
  - assert (Hsv : services two_services_env =
      <[2%positive := stamped_row sample_env
                        (created_row sample_env (new_values 2 20 32400))]>
        (<[1%positive := stamped_row sample_env
                           (created_row sample_env (new_values 2 20 28800))]>
           ∅)) by (vm_compute; reflexivity).
    intros sid r Hr next Hnext. rewrite Hsv in Hr.
    apply lookup_insert_Some in Hr as [[<- <-]|[_ Hr]]; [discriminate|].
    apply lookup_insert_Some in Hr as [[<- <-]|[_ Hr]]; [discriminate|].
    by rewrite lookup_empty in Hr.
  - intros Hlinked.
    assert (Hr1 : services relinked_env !! 1%positive
              = Some (apply_values (next_values (Some 2%positive))
                        (stamped_row sample_env
                           (created_row sample_env (new_values 2 20 28800)))))
      by (vm_compute; reflexivity).
    destruct (Hlinked 1%positive _ Hr1 2%positive eq_refl)
      as (rn & Hrn & Hparent & _).
    vm_compute in Hrn. injection Hrn as <-. discriminate.
Qed.

(** C8. A creation that ends has drawn one id from the sequence, or two
    when the template names a next template; the only new rows are the
    created service and, in the second case, its next service; and the
    next service has no next service of its own, whatever its template
    names: the chain grows by one service at most. A creation ends when
    the required values are given, the templates exist, the template has
    a container if it names a next template, the stops can be computed
    (they are datetimes) and the rule subsystem raises nothing. *)
Theorem create_one_hop `{ServiceRule} (values : Values) (env : Env) :
  (∀ sid env', create values env = Ok (sid, env') →
     sid = service_seq env ∧
     (service_seq env' = Pos.succ sid ∨
      service_seq env' = Pos.succ (Pos.succ sid)) ∧
     (∀ k, is_Some (services env' !! k) →
        is_Some (services env !! k) ∨ k = sid ∨
        (k = Pos.succ sid ∧ service_seq env' = Pos.succ (Pos.succ sid))) ∧
     (service_seq env' = Pos.succ (Pos.succ sid) →
      ∃ rn next_serv,
        services env' !! Pos.succ sid = Some rn ∧
        parent_service_id rn = Some sid ∧
        service_template_id rn = Some next_serv ∧
        is_Some (templates env' !! next_serv) ∧
        next_service_id rn = None)) ∧
  (∀ tid cid start tmpl,
     v_service_template_id values = Some tid →
     v_service_container_id values = Some cid →
     v_scheduled_start values = Some start →
     templates env !! tid = Some tmpl →
     match next_template_id tmpl with
     | Some next_serv =>
         service_container_ids tmpl ≠ [] ∧
         is_Some (templates env !! next_serv)
     | None => True
     end →
     creation_fits env start tmpl →
     rule_passes (service_seq env) →
     ∃ sid env', create values env = Ok (sid, env')).
Proof.
  split.
  2: { intros tid cid start tmpl Ht Hc Hs Htmpl Hnext Hfit Hpass.
       destruct (create_ok values env tid cid start tmpl) as [env' Hrun];
         eauto. }
  intros sid env' Hrun.
  apply create_inv in Hrun
    as (tid & cid & start & tmpl & Ht & Hc & Hs & Htmpl & -> & Htm &
        Hsv & Hmatch).
  set (sid := service_seq env) in *.
  split; [done|].
  unfold created_services in Hsv.
  destruct (next_template_id tmpl) as [next_serv|].
  - destruct Hmatch as (Hcont & Hres & Hseq).
    destruct (service_container_ids tmpl) as [|next_cont rest]; [done|].
    split; [by right|]. split.
    + intros k [rk Hk]. rewrite Hsv in Hk.
      apply lookup_insert_Some in Hk as [[<- _]|[_ Hk]]; [by right; left|].
      apply lookup_insert_Some in Hk as [[<- _]|[_ Hk]];
        [by right; right|].
      apply lookup_insert_Some in Hk as [[<- _]|[_ Hk]]; [by right; left|].
      left. eauto.
    + intros _. eexists _, next_serv.
      split.
      { rewrite Hsv, lookup_insert_ne, lookup_insert_eq by lia. done. }
      rewrite Htm. done.
  - split; [by left|]. split.
    + intros k [rk Hk]. rewrite Hsv in Hk.
      assert (Hk' : (<[sid:=stamped_row env (created_row env values)]>
                       (services env)) !! k = Some rk).
      { by destruct (service_container_ids tmpl). }
      apply lookup_insert_Some in Hk' as [[<- _]|[_ Hk']]; [by right; left|].
      left. eauto.
    + rewrite Hmatch. lia.
Qed.

Lemma create_one_hop_witness :
  service_seq (env_after sample_env
                 (create (rule := quiet_rule) (new_values 5 50 0) sample_env))
    = 3%positive ∧
  ∃ rn,
    services (env_after sample_env
                (create (rule := quiet_rule) (new_values 5 50 0) sample_env))
      !! 2%positive = Some rn ∧
    service_template_id rn = Some 1%positive ∧
    (next_template_id <$> sample_templates !! 1%positive)
      = Some (Some 2%positive) ∧
    next_service_id rn = None.
Proof.
  assert (Hrun : create (rule := quiet_rule) (new_values 5 50 0) sample_env
                 = Ok (1%positive,
                       env_after sample_env
                         (create (rule := quiet_rule) (new_values 5 50 0)
                            sample_env)))
    by (vm_compute; reflexivity).
  destruct (create_one_hop (H := quiet_rule) (new_values 5 50 0) sample_env)
    as [Hpost _].
  destruct (Hpost _ _ Hrun) as (_ & _ & _ & Hnext).
  assert (Hseq : service_seq (env_after sample_env
                   (create (rule := quiet_rule) (new_values 5 50 0)
                      sample_env)) = 3%positive)
    by (vm_compute; reflexivity).
  split; [exact Hseq|].
  destruct (Hnext Hseq) as (rn & next_serv & Hrn & _ & Htid & _ & Hnone).
  change (Pos.succ 1) with 2%positive in Hrn.
  exists rn. split; [exact Hrn|].
  assert (Hrn2 : service_template_id <$>
            services (env_after sample_env
              (create (rule := quiet_rule) (new_values 5 50 0) sample_env))
              !! 2%positive = Some (Some 1%positive))
    by (vm_compute; reflexivity).
  rewrite Hrn in Hrn2. injection Hrn2 as Hrn2.
  split; [exact Hrn2|]. split; [vm_compute; reflexivity | exact Hnone].
Defined.

(** C2, on the source. Template 1 is held in container 10 and names
    template 2, which is held in container 20. The next service of a
    service created from template 1 follows template 2 and is put in
    container 10, the first container of the template of the created
    service, and not in container 20. *)
Theorem successor_container_of_own_template :
  ∃ env' rn,
    create (rule := quiet_rule) (new_values 1 10 28800) sample_env
      = Ok (1%positive, env') ∧
    services env' !! 2%positive = Some rn ∧
    service_template_id rn = Some 2%positive ∧
    service_container_id rn = Some 10%positive ∧
    (service_container_ids <$> templates env' !! 1%positive)
      = Some [10%positive] ∧
    (service_container_ids <$> templates env' !! 2%positive)
      = Some [20%positive].
Proof.
  eexists _, _. split; [vm_compute; reflexivity|].
  split; [vm_compute; reflexivity|].
  repeat split; vm_compute; reflexivity.
Qed.

(** C6, on the source. Template 3 is held in container 30 and names
    template 4, which has no container: the creation of a service from
    template 3 ends without an error and its next service follows
    template 4 in container 30. Template 6 has no container and names
    template 2, which has one: the creation of a service from template 6
    raises [IndexError]. *)
Theorem successor_without_container_created :
  (∃ env' rn,
     create (rule := quiet_rule) (new_values 3 30 0) sample_env
       = Ok (1%positive, env') ∧
     (service_container_ids <$> templates env' !! 4%positive) = Some [] ∧
     services env' !! 2%positive = Some rn ∧
     service_template_id rn = Some 4%positive ∧
     service_container_id rn = Some 30%positive) ∧
  create (rule := quiet_rule) (new_values 6 20 0) sample_env
    = Err IndexError.
Proof.
  split.
  - eexists _, _. split; [vm_compute; reflexivity|].
    repeat split; vm_compute; reflexivity.
  - vm_compute. reflexivity.
Qed.

(** The general form of both: the container of the next service is the
    first container of the template of the created service. *)
Lemma successor_container `{ServiceRule} values env sid env' tid tmpl :
  create values env = Ok (sid, env') →
  v_service_template_id values = Some tid →
  templates env !! tid = Some tmpl →
  is_Some (next_template_id tmpl) →
  ∃ rn, services env' !! Pos.succ sid = Some rn ∧
        service_container_id rn = head (service_container_ids tmpl).
Proof.
  intros Hrun Ht Htmpl [next_serv Hnext].
  apply create_inv in Hrun
    as (tid' & cid & start & tmpl' & Ht' & Hc & Hs & Htmpl' & -> & _ &
        Hsv & Hmatch).
  rewrite Ht in Ht'. injection Ht' as <-.
  rewrite Htmpl in Htmpl'. injection Htmpl' as <-.
  rewrite Hnext in Hmatch. destruct Hmatch as (Hcont & _ & _).
  unfold created_services in Hsv. rewrite Hnext in Hsv.
  destruct (service_container_ids tmpl) as [|next_cont rest]; [done|].
  eexists. split.
  - rewrite Hsv, lookup_insert_ne, lookup_insert_eq by lia. done.
  - done.
Qed.

(** ** The conflict hook *)

(** C7, the part that holds. [write] on one service runs the inherited
    [write] first; when it has ended the rule subsystem is called once, on
    the written table, with the scope "all" and the id of the service; the
    value it returns is dropped and [write] returns what the inherited
    [write] returned, and an exception that it raises is raised by
    [write]. The journal of the calls grows by this one call. *)
Theorem write_calls_rule_once `{ServiceRule} (sid : positive)
    (values : Values) (env : Env) :
  write [sid] values env =
    match base_write [sid] values env with
    | Ok (written, env1) =>
        match service_rule_double_assign "all" (Some sid) env1 with
        | Ok _ => Ok (written, log_rule_call ("all", Some sid) env1)
        | Err e => Err e
        end
    | Err e => Err e
    end
  ∧ ∀ written env', write [sid] values env = Ok (written, env') →
      rule_calls env' = rule_calls env ++ [("all", Some sid)].
Proof.
  split.
  - unfold write, bind at 1.
    destruct (base_write [sid] values env) as [[written env1]|e]; [|done].
    unfold self_id. rewrite bind_ret. unfold bind, double_assign. simpl.
    by destruct (service_rule_double_assign _ _ _).
  - intros written env' Hrun.
    by apply write_single_inv in Hrun as (r & _ & _ & ->).
Qed.

(** C7 as it is stated fails. A creation with a generation id from a
    template without a next template ends and the rule subsystem has not
    been called; and a [write] whose inherited [write] ends is aborted
    when the rule subsystem raises. *)
Lemma hook_not_once_per_mutation :
  (∃ env', create (rule := quiet_rule) (batch_values 2 20 28800 "G")
             sample_env = Ok (1%positive, env') ∧
           rule_calls env' = []) ∧
  (∃ env1, base_write [1%positive] no_values staffed_env = Ok (true, env1)) ∧
  write (rule := strict_rule) [1%positive] no_values staffed_env
    = Err (RuleError "Elements with overlapped shift").
Proof.
  split; [|split].
  - eexists. split; vm_compute; reflexivity.
  - eexists. vm_compute. reflexivity.
  - vm_compute. reflexivity.
Qed.

(** The assignments of [create] go through [write]: a creation without a
    generation id from a template with a next template calls the rule
    subsystem twice, for the created service. *)
Example create_assigns_through_write :
  rule_calls chained_env
  = [("all", Some 1%positive); ("all", Some 1%positive)].
Proof. vm_compute. reflexivity. Qed.

(** C10. [write] on a recordset of two services or more never ends: when
    the inherited [write] has ended, reading [self.id] raises the error of
    [ensure_one], and the rule subsystem is not called, neither once nor
    once per service. *)
Theorem write_many_raises `{ServiceRule} (self : list positive)
    (values : Values) (env : Env) :
  (2 ≤ length self)%nat →
  write self values env =
    match base_write self values env with
    | Ok _ => Err ExpectedSingleton
    | Err e => Err e
    end.
Proof.
  intros Hlen. destruct self as [|a [|b self]]; simpl in Hlen; try lia.
  unfold write, bind at 1.
  by destruct (base_write (a :: b :: self) values env) as [[written env1]|e].
Qed.

Lemma write_many_raises_witness :
  write (rule := quiet_rule) [1%positive; 2%positive] no_values
    two_services_env = Err ExpectedSingleton.
Proof.
  rewrite (write_many_raises (H := quiet_rule) [1%positive; 2%positive]
             no_values two_services_env); [|simpl; lia].
  vm_compute. reflexivity.
Defined.

(** On the empty recordset [self.id] is [False], and the rule subsystem is
    called with it. *)
Lemma write_empty `{ServiceRule} values env :
  write [] values env =
    match base_write [] values env with
    | Ok (written, env1) =>
        match service_rule_double_assign "all" None env1 with
        | Ok _ => Ok (written, log_rule_call ("all", None) env1)
        | Err e => Err e
        end
    | Err e => Err e
    end.
Proof.
  unfold write, bind at 1.
  destruct (base_write [] values env) as [[written env1]|e]; [|done].
  unfold self_id. rewrite bind_ret. unfold bind, double_assign. simpl.
  by destruct (service_rule_double_assign _ _ _).
Qed.

(** ** The cascading deletion *)

Lemma delete_rows_lookup ids (m : gmap positive service) k :
  delete_rows ids m !! k =
    if decide (k ∈ ids) then None else null_refs ids <$> m !! k.
Proof.
  unfold delete_rows. rewrite lookup_fmap. case_decide as Hk.
  - by rewrite lookup_foldr_delete.
  - by rewrite lookup_foldr_delete_not_elem_of.
Qed.

Lemma deleted_gone ids env k :
  k ∈ ids → services (deleted ids env) !! k = None.
Proof.
  intros Hk. unfold deleted. simpl. rewrite delete_rows_lookup.
  by rewrite decide_True.
Qed.

Lemma shrinks_refl env : shrinks env env.
Proof. intros k r Hr. exists r. split; [done | by left]. Qed.

Lemma shrinks_gone env env' k :
  shrinks env env' → services env !! k = None → services env' !! k = None.
Proof.
  intros Hs Hk. destruct (services env' !! k) as [r'|] eqn:E; [|done].
  destruct (Hs k r' E) as (r & Hr & _). congruence.
Qed.

Lemma shrinks_trans env1 env2 env3 :
  shrinks env1 env2 → shrinks env2 env3 → shrinks env1 env3.
Proof.
  intros H12 H23 k r3 Hr3.
  destruct (H23 k r3 Hr3) as (r2 & Hr2 & Hn23).
  destruct (H12 k r2 Hr2) as (r1 & Hr1 & Hn12).
  exists r1. split; [done|].
  destruct Hn23 as [Heq|(Hnone & n & Hn & Hgone)].
  - destruct Hn12 as [Heq'|(Hnone & n & Hn & Hgone)].
    + left. congruence.
    + right. split; [congruence|]. exists n. split; [done|].
      by apply (shrinks_gone env2).
  - right. split; [done|]. exists n. split; [|done].
    destruct Hn12 as [Heq'|(Hnone' & _)]; congruence.
Qed.

Lemma shrinks_deleted ids env : shrinks env (deleted ids env).
Proof.
  intros k r' Hr'. unfold deleted in Hr'. simpl in Hr'.
  rewrite delete_rows_lookup in Hr'. case_decide as Hk; [done|].
  destruct (services env !! k) as [r|] eqn:Hr; [|done].
  injection Hr' as <-. exists r. split; [done|].
  unfold null_refs, set_null. simpl.
  destruct (next_service_id r) as [n|]; [|by left].
  case_bool_decide as Hn; [|by left].
  right. split; [done|]. exists n. split; [done|]. by apply deleted_gone.
Qed.

Lemma base_unlink_inv self env b env' :
  base_unlink self env = Ok (b, env') →
  b = true ∧ shrinks env env' ∧
  (∀ sid, sid ∈ self → services env' !! sid = None).
Proof.
  destruct self as [|x l].
  - intros [= <- <-]. split; [done|]. split; [apply shrinks_refl|].
    intros sid Hsid. by apply not_elem_of_nil in Hsid.
  - intros [= <- <-]. split; [done|]. split; [apply shrinks_deleted|].
    intros sid Hsid. by apply deleted_gone.
Qed.

Lemma unlink_next_inv rec self sid env env' :
  deletes rec →
  unlink_next rec self sid env = Ok (tt, env') →
  shrinks env env' ∧
  ∃ r, services env !! sid = Some r ∧
       ∀ n, next_service_id r = Some n → n ∉ self →
            services env' !! n = None.
Proof.
  intros Hrec H. unfold unlink_next in H.
  apply bind_inv in H as (next & env1 & Hread & H).
  unfold read in Hread.
  destruct (services env !! sid) as [r|] eqn:Hr; [|done].
  injection Hread as <- <-.
  destruct (next_service_id r) as [n|] eqn:Hn.
  - case_bool_decide as Hin; simpl in H.
    + injection H as <-. split; [apply shrinks_refl|].
      exists r. split; [done|]. intros n' Hn' Hnot.
      rewrite Hn in Hn'. by injection Hn' as <-.
    + apply bind_inv in H as (b & env2 & Hcall & Hret).
      injection Hret as <-.
      destruct (Hrec _ _ _ _ Hcall) as [Hs Hgone].
      split; [done|]. exists r. split; [done|].
      intros n' Hn' _. rewrite Hn in Hn'. injection Hn' as <-.
      apply Hgone. left.
  - injection H as <-. split; [apply shrinks_refl|].
    exists r. split; [done|]. intros n' Hn'. congruence.
Qed.

(** The scan of a part [todo] of the batch [self], from an environment
    [env0] that comes from [env]. *)
Lemma unlink_scan_inv rec self env todo env0 env1 :
  deletes rec →
  shrinks env env0 →
  for_each (unlink_next rec self) todo env0 = Ok (tt, env1) →
  shrinks env0 env1 ∧
  ∀ sid r n, sid ∈ todo → services env !! sid = Some r →
             next_service_id r = Some n → n ∉ self →
             services env1 !! n = None.
Proof.
  intros Hrec. revert env0. induction todo as [|x todo IH]; intros env0 Hs H.
  - injection H as <-. split; [apply shrinks_refl|].
    intros sid r n Hsid. by apply not_elem_of_nil in Hsid.
  - rewrite for_each_cons in H.
    apply bind_inv in H as ([] & env2 & Hx & Hrest).
    apply unlink_next_inv in Hx as (Hs02 & rx & Hrx & Hnext); [|done].
    destruct (IH env2 (shrinks_trans _ _ _ Hs Hs02) Hrest) as [Hs21 Htodo].
    split; [by apply (shrinks_trans _ env2)|].
    intros sid r n Hsid Hr Hn Hnot.
    apply elem_of_cons in Hsid as [->|Hsid]; [|by eapply Htodo].
    apply (shrinks_gone env2); [done|].
    destruct (Hs x rx Hrx) as (r0 & Hr0 & Hcase).
    rewrite Hr in Hr0. injection Hr0 as <-.
    destruct Hcase as [Heq|(_ & n' & Hn' & Hgone)].
    + apply Hnext; [congruence|done].
    + rewrite Hn in Hn'. injection Hn' as <-.
      by apply (shrinks_gone env0).
Qed.

Lemma unlink_deletes depth : deletes (unlink depth).
Proof.
  induction depth as [|depth IH]; intros self env b env' H; [done|].
  simpl in H. apply bind_inv in H as ([] & env1 & Hscan & Hbase).
  destruct (unlink_scan_inv _ _ env _ _ _ IH (shrinks_refl env) Hscan)
    as [Hs1 _].
  apply base_unlink_inv in Hbase as (_ & Hs2 & Hgone).
  split; [by apply (shrinks_trans _ env1)|done].
Qed.

(** Every service of a batch whose next service is not in the batch has
    it deleted by the scan, before the inherited [unlink] of the batch. *)
Lemma unlink_inv depth self env b env' :
  unlink depth self env = Ok (b, env') →
  ∃ env1,
    unlink_scan depth self env = Ok (tt, env1) ∧
    base_unlink self env1 = Ok (b, env') ∧
    (∀ sid r n, sid ∈ self → services env !! sid = Some r →
                next_service_id r = Some n → n ∉ self →
                services env1 !! n = None ∧ services env' !! n = None) ∧
    (∀ sid, sid ∈ self → services env' !! sid = None).
Proof.
  destruct depth as [|depth]; [done|]. intros H. simpl in H.
  apply bind_inv in H as ([] & env1 & Hscan & Hbase).
  exists env1. split; [done|]. split; [done|].
  destruct (unlink_scan_inv _ _ env _ _ _ (unlink_deletes depth)
              (shrinks_refl env) Hscan) as [_ Hnext].
  apply base_unlink_inv in Hbase as (_ & Hs & Hgone).
  split; [|done].
  intros sid r n Hsid Hr Hn Hnot.
  assert (services env1 !! n = None) by by eapply Hnext.
  split; [done|]. by apply (shrinks_gone env1).
Qed.

Lemma unlink_scan_closed rec self env todo :
  closed_batch env self → todo ⊆ self →
  for_each (unlink_next rec self) todo env = Ok (tt, env).
Proof.
  intros Hclosed. induction todo as [|x todo IH]; intros Hsub; [done|].
  rewrite for_each_cons.
  destruct (Hclosed x) as (r & Hr & Hnext); [apply Hsub; left|].
  assert (Hx : unlink_next rec self x env = Ok (tt, env)).
  { unfold unlink_next. rewrite (bind_ok _ _ _ _ _ (read_ok _ _ _ _ Hr)).
    destruct (next_service_id r) as [n|]; [|done].
    by rewrite bool_decide_eq_true_2 by by apply Hnext. }
  rewrite (bind_ok _ _ _ _ _ Hx). apply IH.
  intros y Hy. apply Hsub. by right.
Qed.

(** A batch that holds a whole chain is deleted by the inherited [unlink]
    alone. *)
Lemma unlink_closed depth self env :
  closed_batch env self →
  unlink (S depth) self env = base_unlink self env.
Proof.
  intros Hclosed. simpl.
  by rewrite (bind_ok _ _ _ _ _
                (unlink_scan_closed _ self env self Hclosed (reflexivity _))).
Qed.

(** The head of a chain, deleted on its own, takes the chain with it. *)
Lemma unlink_chain env sid l :
  chain_from env sid l →
  ∀ depth, (length l < depth)%nat →
    unlink depth [sid] env = Ok (true, cascade env sid l).
Proof.
  induction 1 as [sid r Hr Hend|sid r next l Hr Hnext Hne Hchain IH];
    intros [|depth] Hlen; simpl in Hlen; try lia.
  - cbn [unlink]. rewrite bind_for_each_single.
    assert (Hx : unlink_next (unlink depth) [sid] sid env = Ok (tt, env)).
    { unfold unlink_next. rewrite (bind_ok _ _ _ _ _ (read_ok _ _ _ _ Hr)).
      destruct Hend as [-> | ->]; [done|].
      by rewrite bool_decide_eq_true_2 by left. }
    by rewrite (bind_ok _ _ _ _ _ Hx).
  - cbn [unlink]. rewrite bind_for_each_single.
    assert (Hx : unlink_next (unlink depth) [sid] sid env
                 = Ok (tt, cascade env next l)).
    { unfold unlink_next. rewrite (bind_ok _ _ _ _ _ (read_ok _ _ _ _ Hr)).
      rewrite Hnext. rewrite bool_decide_eq_false_2.
      2: { rewrite list_elem_of_singleton. done. }
      cbn [negb when].
      by rewrite (bind_ok _ _ _ _ _ (IH depth ltac:(lia))). }
    by rewrite (bind_ok _ _ _ _ _ Hx).
Qed.

Lemma cascade_shrinks env sid l : shrinks env (cascade env sid l).
Proof.
  revert sid. induction l as [|n l IH]; intros sid; cbn [cascade].
  - apply shrinks_deleted.
  - eapply shrinks_trans; [apply IH | apply shrinks_deleted].
Qed.

Lemma cascade_gone env sid l k :
  k ∈ sid :: l → services (cascade env sid l) !! k = None.
Proof.
  revert sid. induction l as [|n l IH]; intros sid Hk; cbn [cascade].
  - by apply deleted_gone.
  - apply elem_of_cons in Hk as [->|Hk].
    + apply deleted_gone. left.
    + apply (shrinks_gone (cascade env n l)); [apply shrinks_deleted|].
      by apply IH.
Qed.

Lemma cascade_calls env sid l :
  unlink_calls (cascade env sid l)
  = unlink_calls env ++ ((fun k => [k]) <$> rev (sid :: l)).
Proof.
  revert sid. induction l as [|n l IH]; intros sid; [done|].
  cbn [cascade]. unfold deleted at 1. cbn [unlink_calls log_unlink_call].
  change (unlink_calls (with_services _ ?e)) with (unlink_calls e).
  rewrite IH. cbn [rev]. rewrite !fmap_app, <- !app_assoc. done.
Qed.

(** *** The cascades of a batch end *)

Lemma deleted_lookup ids env k :
  k ∉ ids →
  services (deleted ids env) !! k = null_refs ids <$> services env !! k.
Proof.
  intros Hk. unfold deleted. simpl. rewrite delete_rows_lookup.
  by rewrite decide_False.
Qed.

(** A chain whose head is kept is cut at its first deleted service. *)
Lemma chain_from_deleted ids env m l :
  chain_from env m l → m ∉ ids →
  ∃ l', chain_from (deleted ids env) m l' ∧
        (∀ k, k ∈ l' → k ∈ l) ∧ (length l' ≤ length l)%nat.
Proof.
  induction 1 as [m r Hr Hend|m r next l Hr Hnext Hne Hchain IH]; intros Hm.
  - exists []. split; [|split; [done|done]].
    apply (chain_end _ m (null_refs ids r)).
    + by rewrite deleted_lookup, Hr.
    + unfold null_refs, set_null. simpl.
      destruct Hend as [-> | ->]; [by left|].
      rewrite bool_decide_eq_false_2 by done. by right.
  - destruct (decide (next ∈ ids)) as [Hin|Hout].
    + exists []. split; [|split; [|simpl; lia]].
      2: { intros k Hk. by apply not_elem_of_nil in Hk. }
      apply (chain_end _ m (null_refs ids r)).
      * by rewrite deleted_lookup, Hr.
      * left. unfold null_refs, set_null. simpl. rewrite Hnext.
        by rewrite bool_decide_eq_true_2.
    + destruct (IH Hout) as (l' & Hchain' & Hsub & Hlen).
      exists (next :: l'). split; [|split].
      * apply (chain_step _ m (null_refs ids r)); [| |done|done].
        -- by rewrite deleted_lookup, Hr.
        -- unfold null_refs, set_null. simpl. rewrite Hnext.
           by rewrite bool_decide_eq_false_2.
      * intros k Hk. apply elem_of_cons in Hk as [->|Hk]; [left|right].
        by apply Hsub.
      * simpl. lia.
Qed.

Lemma chain_from_cascade env n l m lm :
  chain_from env m lm → m ∉ n :: l →
  ∃ l', chain_from (cascade env n l) m l' ∧
        (∀ k, k ∈ l' → k ∈ lm) ∧ (length l' ≤ length lm)%nat.
Proof.
  revert n. induction l as [|n2 l IH]; intros n Hchain Hm; cbn [cascade].
  - apply chain_from_deleted; [done|].
    intros Hin. apply Hm. apply list_elem_of_singleton in Hin as ->. left.
  - destruct (IH n2 Hchain) as (l1 & Hc1 & Hsub1 & Hlen1).
    { intros Hin. apply Hm. by right. }
    destruct (chain_from_deleted [n] _ m l1 Hc1) as (l2 & Hc2 & Hsub2 & Hlen2).
    { intros Hin. apply Hm. apply list_elem_of_singleton in Hin as ->. left. }
    exists l2. split; [done|]. split; [|lia].
    intros k Hk. by apply Hsub1, Hsub2.
Qed.

(** A row out of a cascade is kept, and does not refer to a deleted row. *)
Lemma cascade_keeps env n l k r :
  k ∉ n :: l → services env !! k = Some r →
  ∃ r', services (cascade env n l) !! k = Some r' ∧
        (next_service_id r' = None ∨
         (next_service_id r' = next_service_id r ∧
          ∀ m, next_service_id r' = Some m → m ∉ n :: l)).
Proof.
  revert n. induction l as [|n2 l IH]; intros n Hk Hr; cbn [cascade].
  - exists (null_refs [n] r). split.
    + rewrite deleted_lookup, Hr; [done|].
      intros Hin. apply Hk. apply list_elem_of_singleton in Hin as ->. left.
    + unfold null_refs, set_null. simpl.
      destruct (next_service_id r) as [m|]; [|by left].
      case_bool_decide as Hm; [by left|]. right. split; [done|].
      by intros m' [= <-].
  - destruct (IH n2) as (r1 & Hr1 & Hnext1); [|done|].
    { intros Hin. apply Hk. by right. }
    exists (null_refs [n] r1). split.
    + rewrite deleted_lookup, Hr1; [done|].
      intros Hin. apply Hk. apply list_elem_of_singleton in Hin as ->. left.
    + unfold null_refs, set_null. simpl.
      destruct (next_service_id r1) as [m|] eqn:Hm1; [|by left].
      case_bool_decide as Hm; [by left|]. right.
      destruct Hnext1 as [?|[Heq Hout]]; [done|].
      split; [done|]. intros m' [= <-].
      intros Hin. apply elem_of_cons in Hin as [->|Hin].
      * apply Hm. left.
      * by apply (Hout m).
Qed.

Lemma unlink_scan_total depth self todo env :
  todo ⊆ self →
  (∀ sid, sid ∈ todo →
     ∃ r, services env !! sid = Some r ∧
       ∀ n, next_service_id r = Some n → n ∉ self →
         ∃ l, chain_from env n l ∧ (∀ k, k ∈ n :: l → k ∉ self) ∧
              (length l < depth)%nat) →
  ∃ env1, for_each (unlink_next (unlink depth) self) todo env = Ok (tt, env1).
Proof.
  revert env. induction todo as [|x todo IH]; intros env Hsub Hall.
  - by exists env.
  - rewrite for_each_cons.
    destruct (Hall x) as (r & Hr & Hnext); [left|].
    assert (Htodo : todo ⊆ self) by (intros y Hy; apply Hsub; by right).
    assert (Hkeep : unlink_next (unlink depth) self x env = Ok (tt, env) →
      ∃ env1, (unlink_next (unlink depth) self x >>
               for_each (unlink_next (unlink depth) self) todo) env
              = Ok (tt, env1)).
    { intros Hx. rewrite (bind_ok _ _ _ _ _ Hx). apply IH; [done|].
      intros y Hy. apply Hall. by right. }
    destruct (next_service_id r) as [n|] eqn:Hn.
    2: { apply Hkeep. unfold unlink_next.
         rewrite (bind_ok _ _ _ _ _ (read_ok _ _ _ _ Hr)). by rewrite Hn. }
    destruct (decide (n ∈ self)) as [Hin|Hout].
    { apply Hkeep. unfold unlink_next.
      rewrite (bind_ok _ _ _ _ _ (read_ok _ _ _ _ Hr)). rewrite Hn.
      by rewrite bool_decide_eq_true_2. }
    destruct (Hnext n eq_refl Hout) as (l & Hchain & Hdisj & Hlen).
    assert (Hx : unlink_next (unlink depth) self x env
                 = Ok (tt, cascade env n l)).
    { unfold unlink_next.
      rewrite (bind_ok _ _ _ _ _ (read_ok _ _ _ _ Hr)). rewrite Hn.
      rewrite bool_decide_eq_false_2 by done. cbn [negb when].
      by rewrite (bind_ok _ _ _ _ _ (unlink_chain env n l Hchain depth Hlen)). }
    rewrite (bind_ok _ _ _ _ _ Hx). apply IH; [done|].
    intros y Hy.
    destruct (Hall y) as (ry & Hry & Hnexty); [by right|].
    assert (Hyout : y ∉ n :: l).
    { intros Hyin. apply (Hdisj y Hyin). by apply Htodo. }
    destruct (cascade_keeps env n l y ry Hyout Hry) as (ry' & Hry' & Hcase).
    exists ry'. split; [done|]. intros m Hm Hmout.
    destruct Hcase as [Hnone|[Heq Hmkept]]; [congruence|].
    destruct (Hnexty m) as (lm & Hcm & Hdm & Hlm); [congruence|done|].
    destruct (chain_from_cascade env n l m lm Hcm (Hmkept m Hm))
      as (l' & Hc' & Hsub' & Hlen').
    exists l'. split; [done|]. split; [|lia].
    intros k Hk. apply Hdm.
    apply elem_of_cons in Hk as [->|Hk]; [left|right]. by apply Hsub'.
Qed.

Lemma unlink_total depth self env :
  cascading_batch env self depth → depth ≠ O →
  ∃ env', unlink depth self env = Ok (true, env').
Proof.
  intros Hbatch Hdepth. destruct depth as [|depth]; [done|].
  destruct (unlink_scan_total depth self self env (reflexivity _))
    as [env1 Hscan].
  { intros sid Hsid. destruct (Hbatch sid Hsid) as (r & Hr & Hnext).
    exists r. split; [done|]. intros n Hn Hout.
    destruct (Hnext n Hn Hout) as (l & Hc & Hd & Hlen).
    exists l. split; [done|]. split; [done|lia]. }
  cbn [unlink]. rewrite (bind_ok _ _ _ _ _ Hscan).
  destruct self; eauto.
Qed.

(** *** The deletion follows the next pointers *)

Lemma cascaded_refl env : cascaded env env.
Proof. intros k r n Hk Hgone. congruence. Qed.

Lemma unlink_scan_cascaded rec self env todo :
  deletes rec →
  (∀ ids e b e', rec ids e = Ok (b, e') →
     shrinks env e → cascaded env e → cascaded env e') →
  ∀ env0 env1, shrinks env env0 → cascaded env env0 →
    for_each (unlink_next rec self) todo env0 = Ok (tt, env1) →
    cascaded env env1.
Proof.
  intros Hdel Hrec. induction todo as [|x todo IH];
    intros env0 env1 Hs Hc H.
  - by injection H as <-.
  - rewrite for_each_cons in H.
    apply bind_inv in H as ([] & env2 & Hx & Hrest).
    assert (Hx' := Hx).
    apply unlink_next_inv in Hx' as (Hs02 & _); [|done].
    apply (IH env2); [by apply (shrinks_trans _ env0)| |done].
    unfold unlink_next in Hx.
    apply bind_inv in Hx as (next & env3 & Hread & Hx).
    unfold read in Hread.
    destruct (services env0 !! x) as [r|]; [|done].
    injection Hread as <- <-.
    destruct (next_service_id r) as [n|].
    + destruct (negb (bool_decide (n ∈ self))); simpl in Hx.
      * apply bind_inv in Hx as (b & env4 & Hcall & Hret).
        injection Hret as <-. by eapply Hrec.
      * by injection Hx as <-.
    + by injection Hx as <-.
Qed.

Lemma unlink_cascaded depth :
  ∀ env self env0 b env',
    unlink depth self env0 = Ok (b, env') →
    shrinks env env0 → cascaded env env0 → cascaded env env'.
Proof.
  induction depth as [|depth IH]; intros env self env0 b env' H Hs Hc;
    [done|].
  simpl in H. apply bind_inv in H as ([] & env1 & Hscan & Hbase).
  destruct (unlink_scan_inv _ _ env _ _ _ (unlink_deletes depth) Hs Hscan)
    as [Hs01 Hnext].
  assert (Hc1 : cascaded env env1).
  { apply (unlink_scan_cascaded (unlink depth) self env self
             (unlink_deletes depth)) with (env0 := env0); [|done|done|done].
    intros ids e b0 e' Hcall. by apply (IH env ids e b0 e'). }
  destruct self as [|x l].
  - by injection Hbase as <- <-.
  - injection Hbase as <- <-.
    change (cascaded env (deleted (x :: l) env1)).
    intros k r n Hk Hgone Hn.
    destruct (services env1 !! k) as [r1|] eqn:E1.
    + assert (Hin : k ∈ x :: l).
      { destruct (decide (k ∈ x :: l)) as [|Hout]; [done|].
        rewrite deleted_lookup in Hgone by done. by rewrite E1 in Hgone. }
      destruct (decide (n ∈ x :: l)) as [|Hout]; [by apply deleted_gone|].
      apply (shrinks_gone env1); [apply shrinks_deleted|].
      by apply (Hnext k r n).
    + apply (shrinks_gone env1); [apply shrinks_deleted|].
      by apply (Hc1 k r n).
Qed.

(** A chain whose first service is gone is gone. *)
Lemma cascaded_chain env env' sid l :
  cascaded env env' → chain_from env sid l →
  services env' !! sid = None →
  ∀ k, k ∈ sid :: l → services env' !! k = None.
Proof.
  intros Hc. induction 1 as [sid r Hr Hend|sid r next l Hr Hnext Hne _ IH];
    intros Hgone k Hk.
  - by apply list_elem_of_singleton in Hk as ->.
  - apply elem_of_cons in Hk as [->|Hk]; [done|].
    apply IH; [|done]. by apply (Hc sid r next).
Qed.

(** C5, the part that holds. When [unlink] of a batch ends: its scan has
    ended first and has deleted the next service of each service of the
    batch whose next service is not in the batch, the inherited [unlink]
    of the batch has come after, the services of the batch are gone, and
    the deletion is recursive: with every service that is gone its next
    service is gone, so that the whole chain that follows a service of the
    batch is gone. [unlink] ends when the services of the batch exist and
    the chains that follow them out of the batch are finite, stay out of
    the batch and fit in the stack. A batch that holds the next service of
    each of its services is deleted without an error by one call of the
    inherited [unlink], in which it is passed as it is. A service deleted
    on its own takes with it the chain that follows it, last service
    first. *)
Theorem unlink_cascades (depth : nat) (self : list positive) (env : Env) :
  (∀ b env', unlink depth self env = Ok (b, env') →
     (∃ env1,
        unlink_scan depth self env = Ok (tt, env1) ∧
        base_unlink self env1 = Ok (b, env') ∧
        (∀ sid r n, sid ∈ self → services env !! sid = Some r →
                    next_service_id r = Some n → n ∉ self →
                    services env1 !! n = None ∧ services env' !! n = None)) ∧
     (∀ sid, sid ∈ self → services env' !! sid = None) ∧
     cascaded env env' ∧
     (∀ sid l k, sid ∈ self → chain_from env sid l → k ∈ sid :: l →
                 services env' !! k = None)) ∧
  (cascading_batch env self depth → depth ≠ O →
     ∃ env', unlink depth self env = Ok (true, env')) ∧
  (closed_batch env self → self ≠ [] → depth ≠ O →
     unlink depth self env = Ok (true, deleted self env) ∧
     unlink_calls (deleted self env) = unlink_calls env ++ [self] ∧
     (∀ sid, sid ∈ self → services (deleted self env) !! sid = None)) ∧
  (∀ sid l, self = [sid] → chain_from env sid l → (length l < depth)%nat →
     unlink depth self env = Ok (true, cascade env sid l) ∧
     unlink_calls (cascade env sid l)
       = unlink_calls env ++ ((fun k => [k]) <$> rev (sid :: l)) ∧
     (∀ k, k ∈ sid :: l → services (cascade env sid l) !! k = None)).
Proof.
  split; [|split; [|split]].
  - intros b env' Hrun.
    assert (Hc : cascaded env env').
    { apply (unlink_cascaded depth env self env b env' Hrun);
        [apply shrinks_refl | apply cascaded_refl]. }
    apply unlink_inv in Hrun as (env1 & Hscan & Hbase & Hnext & Hgone).
    split; [by exists env1|]. split; [done|]. split; [done|].
    intros sid l k Hsid Hchain.
    apply (cascaded_chain env env' sid l Hc Hchain). by apply Hgone.
  - apply unlink_total.
  - intros Hclosed Hne Hdepth. destruct depth as [|depth]; [done|].
    split; [|split].
    + rewrite (unlink_closed depth self env Hclosed).
      by destruct self.
    + done.
    + intros sid. apply deleted_gone.
  - intros sid l -> Hchain Hlen. split; [|split].
    + by apply unlink_chain.
    + apply cascade_calls.
    + intros k. apply cascade_gone.
Qed.

(** C5 as it is stated fails: not every batch can be deleted. In the chain
    of the services 1, 2 and 3, the batch of 1 and 3 holds a service, 3,
    that the cascade of another, 1, deletes. When 1 comes first, the scan
    reads 3 after its deletion and [unlink] raises [MissingError]: the
    deletion of the batch does not complete. When 3 comes first, [unlink]
    ends, and 3 is passed to the inherited [unlink] twice. *)
Lemma unlink_batch_overlap :
  chain_from three_chain_env 1 [2%positive; 3%positive] ∧
  unlink 1000 [1%positive; 3%positive] three_chain_env = Err MissingError ∧
  ∃ env',
    unlink 1000 [3%positive; 1%positive] three_chain_env = Ok (true, env') ∧
    unlink_calls env'
      = [[3%positive]; [2%positive]; [3%positive; 1%positive]].
Proof.
  split; [|split].
  - eapply chain_step; [vm_compute; reflexivity|reflexivity|discriminate|].
    eapply chain_step; [vm_compute; reflexivity|reflexivity|discriminate|].
    eapply chain_end; [vm_compute; reflexivity | left; reflexivity].
  - vm_compute. reflexivity.
  - eexists. split; vm_compute; reflexivity.
Qed.

Lemma chained_env_chain : chain_from chained_env 1 [2%positive].
Proof.
  eapply chain_step.
  - vm_compute. reflexivity.
  - reflexivity.
  - discriminate.
  - eapply chain_end; [vm_compute; reflexivity | left; reflexivity].
Qed.

Lemma chained_env_closed : closed_batch chained_env [1%positive; 2%positive].
Proof.
  intros sid Hsid. apply elem_of_cons in Hsid as [->|Hsid].
  - eexists. split; [vm_compute; reflexivity|].
    intros next [= <-]. right. left.
  - apply list_elem_of_singleton in Hsid as ->.
    eexists. split; [vm_compute; reflexivity|]. intros next [=].
Qed.

Lemma unlink_cascades_witness :
  (unlink 5 [1%positive] chained_env
     = Ok (true, cascade chained_env 1 [2%positive]) ∧
   unlink_calls (cascade chained_env 1 [2%positive])
     = [[2%positive]; [1%positive]] ∧
   services (cascade chained_env 1 [2%positive]) !! 2%positive = None) ∧
  (unlink 5 [1%positive; 2%positive] chained_env
     = Ok (true, deleted [1%positive; 2%positive] chained_env) ∧
   unlink_calls (deleted [1%positive; 2%positive] chained_env)
     = [[1%positive; 2%positive]]).
Proof.
  split.
  - destruct (unlink_cascades 5 [1%positive] chained_env)
      as (_ & _ & _ & Hc).
    destruct (Hc 1%positive [2%positive] eq_refl chained_env_chain)
      as (Hrun & Hcalls & Hgone); [simpl; lia|].
    split; [exact Hrun|]. split; [rewrite Hcalls; reflexivity|].
    apply Hgone. right. left.
  - destruct (unlink_cascades 5 [1%positive; 2%positive] chained_env)
      as (_ & _ & Hb & _).
    destruct (Hb chained_env_closed) as (Hrun & Hcalls & _);
      [discriminate | discriminate |].
    split; [exact Hrun | rewrite Hcalls; reflexivity].
Defined.

(** A chain that comes back to its first service exhausts the stack. *)
Example unlink_cycle_overflows :
  unlink 50 [1%positive]
    (env_after chained_env
       (write (rule := quiet_rule) [2%positive]
          (next_values (Some 1%positive)) chained_env))
  = Err RecursionError.
Proof. vm_compute. reflexivity. Qed.

Lemma write_calls_rule_once_witness :
  write (rule := quiet_rule) [1%positive] (next_values None) staffed_env
    = Ok (true,
          env_after staffed_env
            (write (rule := quiet_rule) [1%positive] (next_values None)
               staffed_env)) ∧
  rule_calls (env_after staffed_env
                (write (rule := quiet_rule) [1%positive] (next_values None)
                   staffed_env))
    = [("all", Some 1%positive)].
Proof.
  destruct (write_calls_rule_once (H := quiet_rule) 1%positive
              (next_values None) staffed_env) as [Heq Hlog].
  assert (Hrun : write (rule := quiet_rule) [1%positive] (next_values None)
                   staffed_env
                 = Ok (true,
                       env_after staffed_env
                         (write (rule := quiet_rule) [1%positive]
                            (next_values None) staffed_env))).
  { rewrite Heq. vm_compute. reflexivity. }
  split; [exact Hrun|]. rewrite (Hlog _ _ Hrun). reflexivity.
Defined.

(** ** The floor of one hour is kept by [create] and [write] *)

Lemma recompute_stop_floor env r start :
  scheduled_start (recompute_stop env r) = Some start →
  ∃ stop, scheduled_stop (recompute_stop env r) = Some stop ∧
          start + 3600 ≤ stop.
Proof.
  unfold recompute_stop, stop_after. simpl. intros ->.
  eexists. split; [done|]. unfold resolve_stop. lia.
Qed.

Lemma stop_floor_insert env sid r f :
  stop_floor env →
  (∀ start, scheduled_start r = Some start →
     ∃ stop, scheduled_stop r = Some stop ∧ start + 3600 ≤ stop) →
  services (f env) = <[sid := r]> (services env) →
  stop_floor (f env).
Proof.
  intros Hfloor Hr Hsv k rk start Hk Hstart. rewrite Hsv in Hk.
  apply lookup_insert_Some in Hk as [[_ <-]|[_ Hk]]; [by apply Hr|].
  by apply (Hfloor k).
Qed.

(** X14. [write] on one service keeps the floor of one hour: if in every
    service the stop was one hour after the start at least, it still is,
    the stop being computed again when the start is written and kept with
    the start otherwise. *)
Lemma stop_floor_write `{ServiceRule} sid values env written env' :
  stop_floor env → write [sid] values env = Ok (written, env') →
  stop_floor env'.
Proof.
  intros Hfloor Hrun.
  apply write_single_inv in Hrun as (r & Hr & _ & ->).
  apply (stop_floor_insert env sid (written_row env values r)
           (fun e => log_rule_call ("all", Some sid)
                       (with_services
                          (insert sid (written_row env values r)) e)));
    [done| |done].
  unfold written_row. destruct (v_scheduled_start values) as [new|] eqn:Hs.
  - apply recompute_stop_floor.
  - intros start Hstart. simpl in *. rewrite Hs in Hstart.
    by apply (Hfloor sid r).
Qed.

(** X13. [create] keeps the floor of one hour: if in every service the
    stop was one hour after the start at least, it still is after a
    creation, for the created service and for its next service too. *)
Lemma stop_floor_create `{ServiceRule} values env sid env' :
  stop_floor env → create values env = Ok (sid, env') → stop_floor env'.
Proof.
  intros Hfloor Hrun.
  apply create_inv in Hrun
    as (tid & cid & start & tmpl & Ht & Hc & Hs & Htmpl & -> & _ &
        Hsv & _).
  assert (Hrow : ∀ st, scheduled_start
                         (stamped_row env (created_row env values)) = Some st →
            ∃ stop, scheduled_stop
                      (stamped_row env (created_row env values)) = Some stop ∧
                    st + 3600 ≤ stop).
  { intros st. rewrite stamped_row_stop.
    replace (scheduled_start (stamped_row env (created_row env values)))
      with (scheduled_start (created_row env values))
      by (unfold stamped_row; by destruct (truthy_char _)).
    apply recompute_stop_floor. }
  intros k rk st Hk Hst. rewrite Hsv in Hk. unfold created_services in Hk.
  destruct (next_template_id tmpl) as [next_serv|];
    [destruct (service_container_ids tmpl) as [|next_cont rest]|].
  - apply lookup_insert_Some in Hk as [[_ <-]|[_ Hk]]; [by apply Hrow|].
    by apply (Hfloor k).
  - apply lookup_insert_Some in Hk as [[_ <-]|[_ Hk]]; [by apply Hrow|].
    apply lookup_insert_Some in Hk as [[_ <-]|[_ Hk]];
      [by apply recompute_stop_floor|].
    apply lookup_insert_Some in Hk as [[_ <-]|[_ Hk]]; [by apply Hrow|].
    by apply (Hfloor k).
  - apply lookup_insert_Some in Hk as [[_ <-]|[_ Hk]]; [by apply Hrow|].
    by apply (Hfloor k).
Qed.

(** * More properties of the methods *)

(** ** The coverage checks on other inputs *)

Lemma kind_of_laws kind : kind_laws (kind_of kind).
Proof.
  destruct kind;
    [apply skill_kind_laws | apply equipment_kind_laws
     | apply vehicle_kind_laws].
Qed.

Lemma check_method_shape kind : check_method kind = check_request (kind_of kind).
Proof. by destruct kind. Qed.

Lemma check_field_shape kind r : check_field kind r = check_of (kind_of kind) r.
Proof. by destruct kind. Qed.

Lemma check_request_not_single k self env :
  length self ≠ 1%nat →
  check_request k self env =
    match self with
    | [] => Ok (tt, env)
    | _ => Err ExpectedSingleton
    end.
Proof.
  intros Hlen. destruct self as [|a [|b self]]; [done|done|].
  unfold check_request. rewrite (bind_err _ _ _ ExpectedSingleton); [done|].
  rewrite for_each_cons. by rewrite (bind_err _ _ _ ExpectedSingleton).
Qed.

(** X1. A check is made for one service: on the empty recordset it ends
    and changes nothing, the text "All covered" is not written; on a
    recordset of two services or more it raises the error of
    [ensure_one]. *)
Theorem check_on_other_recordsets (kind : resource_kind)
    (self : list positive) (env : Env) :
  length self ≠ 1%nat →
  check_method kind self env =
    match self with
    | [] => Ok (tt, env)
    | _ => Err ExpectedSingleton
    end.
Proof.
  intros Hlen. rewrite check_method_shape.
  by apply check_request_not_single.
Qed.

Lemma check_on_other_recordsets_witness :
  _check_vehicle_request [1%positive; 2%positive] two_services_env
    = Err ExpectedSingleton ∧
  _check_vehicle_request [] two_services_env = Ok (tt, two_services_env).
Proof.
  split.
  - apply (check_on_other_recordsets VehicleCategory
             [1%positive; 2%positive] two_services_env).
    simpl. lia.
  - apply (check_on_other_recordsets VehicleCategory [] two_services_env).
    simpl. lia.
Defined.

Lemma violation_lines_ext count1 count2 reqs :
  (∀ q, count1 q = count2 q) →
  violation_lines count1 reqs = violation_lines count2 reqs.
Proof.
  intros Heq. unfold violation_lines. apply flat_map_ext. intros q.
  by rewrite Heq.
Qed.

Lemma count_holding_frame k env r f v :
  kind_laws k → ∀ q,
  count_holding k (with_services f env) (set_check k v r) q
  = count_holding k env r q.
Proof.
  intros Hk q. unfold count_holding. rewrite (assigned_set k Hk).
  f_equal. f_equal. apply List.filter_ext. intros x.
  apply (found_frame k Hk).
Qed.

Lemma check_request_again k env sid r :
  kind_laws k → services env !! sid = Some r → template_resolves env r →
  ∀ env1, check_request k [sid] env = Ok (tt, env1) →
    check_request k [sid] env1 = Ok (tt, env1).
Proof.
  intros Hk Hr Hres env1 Hrun.
  rewrite (check_request_single k Hk env sid r Hr Hres) in Hrun.
  injection Hrun as <-.
  set (text := diagnostic_of _).
  assert (Hr1 : services (with_check k env sid r text) !! sid
                = Some (set_check k (Some text) r))
    by apply lookup_insert_eq.
  assert (Hres1 : template_resolves (with_check k env sid r text)
                    (set_check k (Some text) r)).
  { unfold template_resolves. by rewrite (template_set k Hk). }
  rewrite (check_request_single k Hk _ sid _ Hr1 Hres1).
  f_equal. f_equal.
  assert (Htext : diagnostic_of
            (violation_lines
               (count_holding k (with_check k env sid r text)
                  (set_check k (Some text) r))
               (requested k
                  (the_template (with_check k env sid r text)
                     (set_check k (Some text) r)))) = text).
  { assert (Htm : the_template (with_check k env sid r text)
                      (set_check k (Some text) r) = the_template env r).
    { unfold the_template. by rewrite (template_set k Hk). }
    rewrite Htm. unfold text at 2. f_equal.
    apply violation_lines_ext. intros q. unfold with_check.
    by apply count_holding_frame. }
  rewrite Htext. unfold with_check. rewrite with_services_twice.
  apply with_services_ext. simpl.
  by rewrite insert_insert_eq, (set_check_twice k Hk).
Qed.

(** X2. A check that is run again on what it has left, the assigned
    resources being the same, changes nothing: the diagnostic is computed
    anew from an empty text and comes out the same. *)
Theorem check_idempotent (kind : resource_kind) (env : Env) (sid : positive)
    (r : service) (env1 : Env) :
  services env !! sid = Some r → template_resolves env r →
  check_method kind [sid] env = Ok (tt, env1) →
  check_method kind [sid] env1 = Ok (tt, env1).
Proof.
  rewrite check_method_shape. intros Hr Hres Hrun.
  by apply (check_request_again (kind_of kind) env sid r (kind_of_laws kind)).
Qed.

Lemma check_idempotent_witness :
  _check_skill_request [1%positive]
    (env_after staffed_env (_check_skill_request [1%positive] staffed_env))
  = Ok (tt, env_after staffed_env
              (_check_skill_request [1%positive] staffed_env)).
Proof.
  assert (Hres : template_resolves staffed_env staffed_service).
  { simpl. eexists. reflexivity. }
  assert (Hrun : check_method Skill [1%positive] staffed_env
                 = Ok (tt, env_after staffed_env
                             (_check_skill_request [1%positive] staffed_env)))
    by (vm_compute; reflexivity).
  exact (check_idempotent Skill staffed_env 1%positive staffed_service _
           eq_refl Hres Hrun).
Defined.

Lemma filter_length_Permutation {A} (f : A → bool) (l1 l2 : list A) :
  l1 ≡ₚ l2 → length (List.filter f l1) = length (List.filter f l2).
Proof.
  induction 1 as [|x l1 l2 _ IH|x y l|l1 l2 l3 _ IH1 _ IH2]; simpl.
  - done.
  - destruct (f x); simpl; by rewrite IH.
  - by destruct (f x), (f y).
  - by rewrite IH1.
Qed.

Lemma check_request_text k env sid r :
  kind_laws k → services env !! sid = Some r → template_resolves env r →
  ∃ env' r',
    check_request k [sid] env = Ok (tt, env') ∧
    services env' !! sid = Some r' ∧
    check_of k r' =
      Some (diagnostic_of
              (violation_lines (count_holding k env r)
                 (requested k (the_template env r)))).
Proof.
  intros Hk Hr Hres. eexists _, _.
  split; [apply (check_request_single k Hk env sid r Hr Hres)|].
  split; [apply lookup_insert_eq|]. by rewrite (check_of_set k Hk).
Qed.

(** X3. The diagnostic does not depend on the order of the assigned
    resources: two services with the same template whose assigned
    resources of the kind are the same up to their order get the same
    text. *)
Theorem check_order_independent (kind : resource_kind) (env : Env)
    (sid : positive) (r r2 : service) :
  services env !! sid = Some r → template_resolves env r →
  service_template_id r2 = service_template_id r →
  assigned (kind_of kind) r2 ≡ₚ assigned (kind_of kind) r →
  ∃ env1 env2 r1' r2',
    check_method kind [sid] env = Ok (tt, env1) ∧
    check_method kind [sid] (with_services (insert sid r2) env)
      = Ok (tt, env2) ∧
    services env1 !! sid = Some r1' ∧ services env2 !! sid = Some r2' ∧
    check_field kind r1' = check_field kind r2'.
Proof.
  intros Hr Hres Htid Hperm. rewrite check_method_shape.
  pose proof (kind_of_laws kind) as Hk.
  set (env0 := with_services (insert sid r2) env).
  assert (Hr2 : services env0 !! sid = Some r2) by apply lookup_insert_eq.
  assert (Hres2 : template_resolves env0 r2).
  { unfold template_resolves in *. by rewrite Htid. }
  destruct (check_request_text _ env sid r Hk Hr Hres)
    as (env1 & r1' & Hrun1 & Hlook1 & Htext1).
  destruct (check_request_text _ env0 sid r2 Hk Hr2 Hres2)
    as (env2 & r2' & Hrun2 & Hlook2 & Htext2).
  exists env1, env2, r1', r2'. do 4 (split; [done|]).
  rewrite !check_field_shape, Htext1, Htext2. do 2 f_equal.
  replace (the_template env0 r2) with (the_template env r)
    by (unfold the_template; by rewrite Htid).
  apply violation_lines_ext. intros q. unfold count_holding. f_equal.
  rewrite (filter_length_Permutation _ _ _ Hperm). f_equal.
  apply List.filter_ext. intros x. symmetry. apply (found_frame _ Hk).
Qed.

Lemma check_order_independent_witness :
  ∃ env1 env2 r1' r2',
    _check_vehicle_request [1%positive] staffed_env = Ok (tt, env1) ∧
    _check_vehicle_request [1%positive]
      (with_services
         (insert 1%positive
            (apply_values
               {| v_service_template_id := None;
                  v_service_container_id := None;
                  v_generation_id := None;
                  v_vehicle_ids := Some [41%positive; 40%positive];
                  v_vehicle_check := None;
                  v_employee_ids := None; v_employee_check := None;
                  v_equipment_ids := None; v_equipment_check := None;
                  v_scheduled_start := None; v_parent_service_id := None;
                  v_next_service_id := None |} staffed_service))
         staffed_env) = Ok (tt, env2) ∧
    services env1 !! 1%positive = Some r1' ∧
    services env2 !! 1%positive = Some r2' ∧
    vehicle_check r1' = vehicle_check r2'.
Proof.
  assert (Hres : template_resolves staffed_env staffed_service).
  { simpl. eexists. reflexivity. }
  set (r2 := apply_values _ staffed_service).
  apply (check_order_independent VehicleCategory staffed_env 1%positive
           staffed_service r2 eq_refl Hres eq_refl).
  simpl. apply perm_swap.
Defined.

Lemma violation_lines_bounded count reqs :
  Forall coherent_bounds reqs →
  (length (violation_lines count reqs) ≤ length reqs)%nat.
Proof.
  induction 1 as [|q reqs Hq _ IH]; simpl; [done|].
  rewrite length_app, length_app. unfold coherent_bounds in Hq.
  destruct (Z.ltb_spec (count q) (min_qty q));
    destruct (Z.ltb_spec 0 (max_qty q));
    destruct (Z.ltb_spec (max_qty q) (count q)); simpl; lia.
Qed.

(** X4. When the bounds of every request of the template are coherent (no
    maximum, or a minimum that is not above the maximum), the diagnostic
    has one line at most for each request: a request is not reported both
    missing and in excess. *)
Theorem check_line_per_request (kind : resource_kind) (env : Env)
    (sid : positive) (r : service) :
  services env !! sid = Some r → template_resolves env r →
  Forall coherent_bounds (requested (kind_of kind) (the_template env r)) →
  ∃ env' r',
    check_method kind [sid] env = Ok (tt, env') ∧
    services env' !! sid = Some r' ∧
    check_field kind r' =
      Some (diagnostic_of
              (violation_lines (count_holding (kind_of kind) env r)
                 (requested (kind_of kind) (the_template env r)))) ∧
    (length (violation_lines (count_holding (kind_of kind) env r)
               (requested (kind_of kind) (the_template env r)))
     ≤ length (requested (kind_of kind) (the_template env r)))%nat.
Proof.
  intros Hr Hres Hbounds. rewrite check_method_shape.
  destruct (check_request_text _ env sid r (kind_of_laws kind) Hr Hres)
    as (env' & r' & Hrun & Hlook & Htext).
  exists env', r'. split; [done|]. split; [done|].
  split; [by rewrite check_field_shape|].
  by apply violation_lines_bounded.
Qed.

Lemma check_line_per_request_witness :
  ∃ env' r',
    _check_vehicle_request [1%positive] staffed_env = Ok (tt, env') ∧
    services env' !! 1%positive = Some r' ∧
    vehicle_check r' = Some ("Too many van" +:+ newline).
Proof.
  assert (Hres : template_resolves staffed_env staffed_service).
  { simpl. eexists. reflexivity. }
  destruct (check_line_per_request VehicleCategory staffed_env 1%positive
              staffed_service eq_refl Hres)
    as (env' & r' & Hrun & Hlook & Htext & _).
  { replace (requested (kind_of VehicleCategory)
               (the_template staffed_env staffed_service))
      with [{| req_category := van; min_qty := 1; max_qty := 1 |}]
      by (vm_compute; reflexivity).
    constructor; [right; simpl; lia | constructor]. }
  exists env', r'. split; [exact Hrun|]. split; [exact Hlook|].
  etransitivity; [exact Htext|]. vm_compute. reflexivity.
Defined.

Lemma violation_lines_unassigned count reqs :
  (∀ q, count q = 0) → violation_lines count reqs = unassigned_lines reqs.
Proof.
  intros Hzero. unfold unassigned_lines.
  induction reqs as [|q reqs IH]; simpl; [done|].
  rewrite IH, Hzero.
  destruct (Z.ltb_spec 0 (min_qty q));
    destruct (Z.ltb_spec 0 (max_qty q));
    destruct (Z.ltb_spec (max_qty q) 0); simpl; try done; lia.
Qed.

(** X5. For a service without any assigned resource of the kind, the
    diagnostic is made of a "Missing" line for each request whose minimum
    is positive, in the order of the requests, and of no "Too many" line;
    it is "All covered" when no request has a positive minimum. *)
Theorem check_unassigned (kind : resource_kind) (env : Env) (sid : positive)
    (r : service) :
  services env !! sid = Some r → template_resolves env r →
  assigned (kind_of kind) r = [] →
  ∃ env' r',
    check_method kind [sid] env = Ok (tt, env') ∧
    services env' !! sid = Some r' ∧
    check_field kind r' =
      Some (diagnostic_of
              (unassigned_lines
                 (requested (kind_of kind) (the_template env r)))).
Proof.
  intros Hr Hres Hnone. rewrite check_method_shape.
  destruct (check_request_text _ env sid r (kind_of_laws kind) Hr Hres)
    as (env' & r' & Hrun & Hlook & Htext).
  exists env', r'. split; [done|]. split; [done|].
  rewrite check_field_shape, Htext. do 2 f_equal.
  apply violation_lines_unassigned. intros q.
  unfold count_holding. by rewrite Hnone.
Qed.

Lemma check_unassigned_witness :
  ∃ env' r',
    _check_equipment_request [1%positive] staffed_env = Ok (tt, env') ∧
    services env' !! 1%positive = Some r' ∧
    equipment_check r' = Some "All covered".
Proof.
  assert (Hres : template_resolves staffed_env staffed_service).
  { simpl. eexists. reflexivity. }
  destruct (check_unassigned EquipmentCategory staffed_env 1%positive
              staffed_service eq_refl Hres eq_refl)
    as (env' & r' & Hrun & Hlook & Htext).
  exists env', r'. split; [exact Hrun|]. split; [exact Hlook|].
  etransitivity; [exact Htext|]. vm_compute. reflexivity.
Defined.

(** ** The duration rule on the whole table *)

Lemma stops_recomputed_lookup_all self env k :
  services (stops_recomputed self env) !! k =
    (fun r => if bool_decide (k ∈ self) then recompute_stop env r else r)
      <$> services env !! k.
Proof.
  unfold stops_recomputed. simpl. rewrite map_lookup_imap.
  by destruct (services env !! k).
Qed.

(** X6. [_compute_scheduled_stop] writes the stop of the services of the
    recordset that have a start and nothing else: whenever it ends, a
    service that is not in the recordset or has no start is left as it
    is, no service appears or disappears, and the other fields of a
    service are kept. It ends when the stops can be computed. *)
Theorem compute_stop_frame (env : Env) (self : list positive) :
  rows_resolve env self →
  (∀ env', _compute_scheduled_stop self env = Ok (tt, env') →
     (∀ k, services env !! k = None → services env' !! k = None) ∧
     (∀ k r, services env !! k = Some r →
        ∃ r', services env' !! k = Some r' ∧
              r' = set_scheduled_stop (scheduled_stop r') r ∧
              (k ∉ self ∨ scheduled_start r = None → r' = r))) ∧
  (rows_fit env self →
   ∃ env', _compute_scheduled_stop self env = Ok (tt, env')).
Proof.
  intros Hall. split.
  2: { intros Hfit. eexists. by apply compute_scheduled_stop_all. }
  intros env' Hrun.
  apply compute_scheduled_stop_inv in Hrun as [_ ->]; [|done]. split.
  - intros k Hk. by rewrite stops_recomputed_lookup_all, Hk.
  - intros k r Hr. rewrite stops_recomputed_lookup_all, Hr. simpl.
    eexists. split; [done|]. case_bool_decide as Hin.
    + split; [done|]. intros [Hout|Hstart]; [done|].
      unfold recompute_stop, stop_after. rewrite Hstart.
      apply set_scheduled_stop_id.
    + split; [by rewrite set_scheduled_stop_id|done].
Qed.

Lemma compute_stop_frame_witness :
  ∃ env',
    _compute_scheduled_stop [2%positive] chained_env = Ok (tt, env') ∧
    services env' !! 1%positive = services chained_env !! 1%positive.
Proof.
  assert (Hall : rows_resolve chained_env [2%positive]).
  { intros sid Hin. apply list_elem_of_singleton in Hin. subst sid.
    eexists. split; [vm_compute; reflexivity|]. simpl. eexists.
    vm_compute. reflexivity. }
  assert (Hfit : rows_fit chained_env [2%positive])
    by (apply rows_fit_check; vm_compute; reflexivity).
  destruct (compute_stop_frame chained_env [2%positive] Hall)
    as [Hframe Hends].
  destruct (Hends Hfit) as [env' Hrun].
  destruct (Hframe env' Hrun) as [_ Hkept].
  exists env'. split; [exact Hrun|].
  destruct (services chained_env !! 1%positive) as [r|] eqn:Hr;
    [|vm_compute in Hr; discriminate].
  destruct (Hkept 1%positive r Hr) as (r' & Hr' & _ & Hsame).
  rewrite Hr'. f_equal. apply Hsame. left.
  intros Hin. apply list_elem_of_singleton in Hin. discriminate.
Defined.

(** X7. Computing the stops again changes nothing: the stop depends on the
    start and on the template only, which the computation does not
    write. *)
Theorem compute_stop_idempotent (env : Env) (self : list positive)
    (env1 : Env) :
  rows_resolve env self →
  _compute_scheduled_stop self env = Ok (tt, env1) →
  _compute_scheduled_stop self env1 = Ok (tt, env1).
Proof.
  intros Hall Hrun.
  apply compute_scheduled_stop_inv in Hrun as [Hfit ->]; [|done].
  assert (Htm : templates (stops_recomputed self env) = templates env)
    by done.
  rewrite compute_scheduled_stop_all.
  - f_equal. f_equal. unfold stops_recomputed at 1.
    apply with_services_id.
    apply map_eq. intros k.
    rewrite map_lookup_imap, stops_recomputed_lookup_all.
    destruct (services env !! k) as [r|]; simpl; [|done].
    case_bool_decide; [|done].
    by rewrite (recompute_stop_frame env), recompute_stop_idem.
  - intros sid Hsid. destruct (Hall sid Hsid) as (r & Hr & Hres).
    rewrite stops_recomputed_lookup_all, Hr. simpl.
    rewrite bool_decide_eq_true_2 by done.
    eexists. split; [done|]. by apply (template_resolves_frame env).
  - intros sid r' Hsid Hr'. destruct (Hall sid Hsid) as (r & Hr & Hres).
    rewrite stops_recomputed_lookup_all, Hr in Hr'. simpl in Hr'.
    rewrite bool_decide_eq_true_2 in Hr' by done. injection Hr' as <-.
    apply (row_fits_frame env); [done|]. by apply (Hfit sid).
Qed.

Lemma compute_stop_idempotent_witness :
  _compute_scheduled_stop [1%positive; 2%positive]
    (env_after chained_env
       (_compute_scheduled_stop [1%positive; 2%positive] chained_env))
  = Ok (tt, env_after chained_env
              (_compute_scheduled_stop [1%positive; 2%positive]
                 chained_env)).
Proof.
  assert (Hall : rows_resolve chained_env [1%positive; 2%positive]).
  { intros sid Hin. apply elem_of_cons in Hin as [->|Hin].
    - eexists. split; [vm_compute; reflexivity|]. simpl. eexists.
      vm_compute. reflexivity.
    - apply list_elem_of_singleton in Hin. subst sid.
      eexists. split; [vm_compute; reflexivity|]. simpl. eexists.
      vm_compute. reflexivity. }
  assert (Hrun : _compute_scheduled_stop [1%positive; 2%positive] chained_env
                 = Ok (tt, env_after chained_env
                             (_compute_scheduled_stop
                                [1%positive; 2%positive] chained_env)))
    by (vm_compute; reflexivity).
  exact (compute_stop_idempotent chained_env _ _ Hall Hrun).
Defined.

(** ** More on the creation *)

Lemma created_services_lookup env sid r tmpl :
  ∃ r', created_services env sid r tmpl !! sid = Some r' ∧
        (r' = r ∨ ∃ n, r' = apply_values (next_values (Some n)) r).
Proof.
  unfold created_services.
  destruct (next_template_id tmpl) as [next_serv|];
    [destruct (service_container_ids tmpl) as [|next_cont rest]|].
  - exists r. rewrite lookup_insert_eq. eauto.
  - eexists. rewrite lookup_insert_eq. eauto.
  - exists r. rewrite lookup_insert_eq. eauto.
Qed.

Lemma created_services_other env sid r tmpl k :
  k ≠ sid → k ≠ Pos.succ sid →
  created_services env sid r tmpl !! k = services env !! k.
Proof.
  intros H1 H2. unfold created_services.
  destruct (next_template_id tmpl) as [next_serv|];
    [destruct (service_container_ids tmpl) as [|next_cont rest]|];
    by rewrite ?lookup_insert_ne by done.
Qed.

Lemma keep_opt_None {A} (x : option A) : keep_opt x None = x.
Proof. by destruct x. Qed.

Lemma stamped_row_generation env r :
  truthy_char (generation_id (stamped_row env r)) = true ∧
  (truthy_char (generation_id r) = true →
   generation_id (stamped_row env r) = generation_id r) ∧
  (truthy_char (generation_id r) = false →
   generation_id (stamped_row env r) = Some ("M " +:+ clock env)).
Proof.
  unfold stamped_row. destruct (truthy_char (generation_id r)) eqn:E.
  - done.
  - split; [done|]. split; [done|]. done.
Qed.

(** X8. Every created service has a generation id that is not empty: the
    one of the values when it is given and not empty, the text "M "
    followed by the time of the creation otherwise. *)
Theorem create_generation_id `{ServiceRule} (values : Values) (env : Env) (sid : positive)
    (env' : Env) :
  create values env = Ok (sid, env') →
  ∃ r, services env' !! sid = Some r ∧
       truthy_char (generation_id r) = true ∧
       (truthy_char (v_generation_id values) = true →
        generation_id r = v_generation_id values) ∧
       (truthy_char (v_generation_id values) = false →
        generation_id r = Some ("M " +:+ clock env)).
Proof.
  intros Hrun.
  apply create_inv in Hrun
    as (tid & cid & start & tmpl & _ & _ & _ & _ & -> & _ & Hsv & _).
  destruct (created_services_lookup env (service_seq env)
              (stamped_row env (created_row env values)) tmpl)
    as (r' & Hr' & Hcase).
  exists r'. split; [by rewrite Hsv|].
  assert (Hgen : generation_id r'
                 = generation_id (stamped_row env (created_row env values))).
  { destruct Hcase as [->|[n ->]]; done. }
  assert (Hv : generation_id (created_row env values)
               = v_generation_id values).
  { unfold created_row. simpl. apply keep_opt_None. }
  rewrite Hgen, <- Hv. apply stamped_row_generation.
Qed.

Lemma create_generation_id_witness :
  ∃ r, services (env_after sample_env
                   (create (rule := quiet_rule) (new_values 2 20 0)
                      sample_env)) !! 1%positive = Some r ∧
       generation_id r = Some "M 2024-01-01-08-00-00".
Proof.
  assert (Hrun : create (rule := quiet_rule) (new_values 2 20 0) sample_env
                 = Ok (1%positive,
                       env_after sample_env
                         (create (rule := quiet_rule) (new_values 2 20 0)
                            sample_env)))
    by (vm_compute; reflexivity).
  destruct (create_generation_id (H := quiet_rule) _ _ _ _ Hrun)
    as (r & Hr & _ & _ & Hstamp).
  exists r. split; [exact Hr|]. rewrite Hstamp; reflexivity.
Defined.

(** X9. The creation of a service whose template names no next template
    stores the service and nothing else: one id is drawn, the other
    services are as they were, and the next pointer of the service is the
    one of the values, unset when the values give none. *)
Theorem create_without_next_template `{ServiceRule} (values : Values) (env : Env)
    (sid : positive) (env' : Env) (tid : positive) (tmpl : template) :
  create values env = Ok (sid, env') →
  v_service_template_id values = Some tid →
  templates env !! tid = Some tmpl →
  next_template_id tmpl = None →
  ∃ r, services env' = <[sid := r]> (services env) ∧
       next_service_id r = keep (v_next_service_id values) None ∧
       service_seq env' = Pos.succ sid ∧ sid = service_seq env.
Proof.
  intros Hrun Ht Htmpl Hnext.
  apply create_inv in Hrun
    as (tid' & cid & start & tmpl' & Ht' & _ & _ & Htmpl' & -> & _ & Hsv &
        Hmatch).
  rewrite Ht in Ht'. injection Ht' as <-.
  rewrite Htmpl in Htmpl'. injection Htmpl' as <-.
  rewrite Hnext in Hmatch. unfold created_services in Hsv.
  rewrite Hnext in Hsv.
  exists (stamped_row env (created_row env values)).
  split; [done|]. split; [|done].
  unfold stamped_row. by destruct (truthy_char _).
Qed.

Lemma create_without_next_template_witness :
  ∃ r, services (env_after sample_env
                   (create (rule := quiet_rule) (new_values 2 20 0)
                      sample_env))
       = <[1%positive := r]> (services sample_env) ∧
       next_service_id r = None.
Proof.
  assert (Hrun : create (rule := quiet_rule) (new_values 2 20 0) sample_env
                 = Ok (1%positive,
                       env_after sample_env
                         (create (rule := quiet_rule) (new_values 2 20 0)
                            sample_env)))
    by (vm_compute; reflexivity).
  destruct (create_without_next_template (H := quiet_rule) _ _ _ _
              2%positive
              {| duration := 0; next_template_id := None;
                 service_container_ids := [20%positive];
                 exp_skill_ids := []; exp_eqp_cat_ids := [];
                 exp_vehicle_ids := [] |} Hrun eq_refl eq_refl eq_refl)
    as (r & Hsv & Hnext & _).
  exists r. split; [exact Hsv | exact Hnext].
Defined.

(** X10. When the ids of the table come from the sequence, a creation
    takes an id that no service has, leaves every service that existed as
    it was, and the ids of the table still come from the sequence. *)
Theorem create_keeps_existing `{ServiceRule} (values : Values) (env : Env) (sid : positive)
    (env' : Env) :
  ids_fresh env →
  create values env = Ok (sid, env') →
  services env !! sid = None ∧
  (∀ k r, services env !! k = Some r → services env' !! k = Some r) ∧
  ids_fresh env'.
Proof.
  intros Hfresh Hrun.
  apply create_inv in Hrun
    as (tid & cid & start & tmpl & _ & _ & _ & _ & -> & _ & Hsv & Hmatch).
  set (sid := service_seq env) in *.
  assert (Hold : ∀ k, is_Some (services env !! k) → (k < sid)%positive)
    by exact Hfresh.
  split; [|split].
  - destruct (services env !! sid) eqn:E; [|done].
    assert (sid < sid)%positive by (apply Hold; eauto). lia.
  - intros k r Hk. rewrite Hsv.
    assert (k < sid)%positive by (apply Hold; eauto).
    rewrite created_services_other by lia. done.
  - intros k [rk Hk]. rewrite Hsv in Hk.
    assert (Hseq : (Pos.succ sid ≤ service_seq env')%positive).
    { destruct (next_template_id tmpl).
      - destruct Hmatch as (_ & _ & ->). lia.
      - rewrite Hmatch. lia. }
    destruct (decide (k = sid)) as [->|Hne1]; [lia|].
    destruct (decide (k = Pos.succ sid)) as [->|Hne2].
    + unfold created_services in Hk.
      destruct (next_template_id tmpl) as [next_serv|].
      * destruct Hmatch as (_ & _ & ->). lia.
      * rewrite lookup_insert_ne in Hk by done.
        assert (Pos.succ sid < sid)%positive by (apply Hold; eauto). lia.
    + rewrite created_services_other in Hk by done.
      assert (k < sid)%positive by (apply Hold; eauto). lia.
Qed.

Lemma create_keeps_existing_witness :
  services chained_env !! 3%positive = None ∧
  ids_fresh (env_after chained_env
               (create (rule := quiet_rule) (new_values 2 20 0) chained_env)).
Proof.
  assert (Hfresh : ids_fresh chained_env).
  { intros k [r Hr].
    assert (Hsv : services chained_env =
              <[1%positive :=
                  default null_service (services chained_env !! 1%positive)]>
                (<[2%positive :=
                     default null_service
                       (services chained_env !! 2%positive)]> ∅))
      by (vm_compute; reflexivity).
    rewrite Hsv in Hr.
    apply lookup_insert_Some in Hr as [[<- _]|[_ Hr]]; [reflexivity|].
    apply lookup_insert_Some in Hr as [[<- _]|[_ Hr]]; [reflexivity|].
    by rewrite lookup_empty in Hr. }
  assert (Hrun : create (rule := quiet_rule) (new_values 2 20 0) chained_env
                 = Ok (3%positive,
                       env_after chained_env
                         (create (rule := quiet_rule) (new_values 2 20 0)
                            chained_env)))
    by (vm_compute; reflexivity).
  destruct (create_keeps_existing (H := quiet_rule) _ _ _ _ Hfresh Hrun)
    as (Hnew & _ & Hfresh').
  split; [exact Hnew | exact Hfresh'].
Defined.

(** The calls of the rule subsystem that a creation has made. *)
Lemma create_calls_inv `{ServiceRule} values env sid env' :
  create values env = Ok (sid, env') →
  ∃ tid tmpl,
    v_service_template_id values = Some tid ∧
    templates env !! tid = Some tmpl ∧
    rule_calls env' =
      rule_calls env ++
      (if truthy_char (v_generation_id values) then []
       else [("all", Some sid)]) ++
      match next_template_id tmpl with
      | Some _ => [("all", Some sid)]
      | None => []
      end.
Proof.
  intros Hcreate. unfold create in Hcreate.
  apply bind_inv in Hcreate as (new_service & env1 & Hbase & Hcreate).
  apply base_create_inv in Hbase
    as (tid & cid & start & Ht & Hc & Hs & [tmpl Htmpl] & -> & ->).
  set (sid0 := service_seq env) in *.
  exists tid, tmpl. do 2 (split; [done|]).
  assert (Htid0 : service_template_id (created_row env values) = Some tid).
  { unfold created_row. simpl. by rewrite Ht. }
  assert (Hgen0 : generation_id (created_row env values)
                  = v_generation_id values).
  { unfold created_row. simpl. apply keep_opt_None. }
  remember (created_row env values) as r0 eqn:Hr0def.
  set (env1 := with_service_seq _ _) in *.
  assert (Hr0 : services env1 !! sid0 = Some r0) by apply lookup_insert_eq.
  apply bind_inv in Hcreate as (generation & env2 & Hgen & Hcreate).
  rewrite (read_ok _ _ _ _ Hr0) in Hgen. injection Hgen as <- <-.
  apply bind_inv in Hcreate as ([] & env3 & Hstamp & Hcreate).
  assert (Henv3 : services env3 = <[sid0 := stamped_row env r0]> (services env)
                  ∧ service_seq env3 = Pos.succ sid0
                  ∧ templates env3 = templates env
                  ∧ rule_calls env3 =
                      rule_calls env ++
                      (if truthy_char (v_generation_id values) then []
                       else [("all", Some sid0)])).
  { unfold stamped_row. rewrite <- Hgen0.
    destruct (truthy_char (generation_id r0)) eqn:Hg;
      cbn [negb when] in Hstamp.
    - injection Hstamp as <-. by rewrite app_nil_r.
    - apply bind_inv in Hstamp as (stamp & env4 & Hnow & Ha).
      injection Hnow as <- <-.
      apply assign_inv in Ha as (r & Hr & ->).
      rewrite Hr0 in Hr. injection Hr as <-.
      simpl. by rewrite insert_insert_eq. }
  destruct Henv3 as (Hsv3 & Hseq3 & Htm3 & Hcalls3).
  set (r1 := stamped_row env r0) in *.
  assert (Hr1 : services env3 !! sid0 = Some r1).
  { rewrite Hsv3. apply lookup_insert_eq. }
  assert (Htid1 : service_template_id r1 = Some tid).
  { unfold r1. by rewrite stamped_row_template. }
  apply bind_inv in Hcreate as (tmpl' & env6 & Htm & Hcreate).
  assert (Htm' : template_of sid0 env3 = Ok (tmpl, env3)).
  { rewrite (template_of_ok _ _ _ Hr1).
    - by rewrite (the_template_lookup env3 r1 tid tmpl) by congruence.
    - apply (template_resolves_lookup _ _ tid); [done|].
      rewrite Htm3. eauto. }
  rewrite Htm' in Htm. injection Htm as <- <-.
  apply bind_inv in Hcreate as ([] & env5 & Hcreate & Hret).
  injection Hret as <- <-.
  destruct (next_template_id tmpl) as [next_serv|] eqn:Hnext.
  - apply bind_inv in Hcreate as (next_strt & env7 & Hstop & Hcreate).
    rewrite (read_ok _ _ _ _ Hr1) in Hstop. injection Hstop as <- <-.
    apply bind_inv in Hcreate as (next_cont & env8 & Hcont & Hcreate).
    apply first_id_inv in Hcont as (rest & Hcont & ->).
    apply bind_inv in Hcreate as (generation & env9 & Hgen & Hcreate).
    rewrite (read_ok _ _ _ _ Hr1) in Hgen. injection Hgen as <- <-.
    apply bind_inv in Hcreate as (nxt & env10 & Hnxt & Hcreate).
    apply base_create_inv in Hnxt
      as (tid' & cid' & start' & _ & _ & _ & _ & -> & ->).
    apply assign_inv in Hcreate as (r & Hr & ->).
    simpl. rewrite Hcalls3. by rewrite <- app_assoc.
  - injection Hcreate as <-. rewrite Hcalls3. by rewrite app_nil_r.
Qed.

(** X11. The rule subsystem is called by a creation for the created
    service only, with the scope "all": once when the values give no
    generation id, for the assignment of the generation id, and once when
    the template names a next template, for the assignment of the next
    pointer; never for the next service. *)
Theorem create_rule_calls `{ServiceRule} (values : Values) (env : Env)
    (sid : positive) (env' : Env) (tid : positive) (tmpl : template) :
  create values env = Ok (sid, env') →
  v_service_template_id values = Some tid →
  templates env !! tid = Some tmpl →
  rule_calls env' =
    rule_calls env ++
    (if truthy_char (v_generation_id values) then []
     else [("all", Some sid)]) ++
    match next_template_id tmpl with
    | Some _ => [("all", Some sid)]
    | None => []
    end.
Proof.
  intros Hrun Ht Htmpl.
  apply create_calls_inv in Hrun as (tid' & tmpl' & Ht' & Htmpl' & Hcalls).
  rewrite Ht in Ht'. injection Ht' as <-.
  rewrite Htmpl in Htmpl'. by injection Htmpl' as <-.
Qed.

Lemma create_rule_calls_witness :
  rule_calls (env_after sample_env
                (create (rule := quiet_rule) (batch_values 1 10 28800 "G")
                   sample_env))
  = [("all", Some 1%positive)].
Proof.
  assert (Hrun : create (rule := quiet_rule) (batch_values 1 10 28800 "G")
                   sample_env
                 = Ok (1%positive,
                       env_after sample_env
                         (create (rule := quiet_rule)
                            (batch_values 1 10 28800 "G") sample_env)))
    by (vm_compute; reflexivity).
  rewrite (create_rule_calls (H := quiet_rule) _ _ _ _ 1%positive
             {| duration := 2; next_template_id := Some 2%positive;
                service_container_ids := [10%positive];
                exp_skill_ids :=
                  [{| req_category := driver; min_qty := 2; max_qty := 0 |}];
                exp_eqp_cat_ids := [];
                exp_vehicle_ids :=
                  [{| req_category := van; min_qty := 1; max_qty := 1 |}] |}
             Hrun eq_refl eq_refl).
  reflexivity.
Defined.

(** X12. The creation of a service whose template names a next template
    and allows no container never ends; when a container and a start are
    given, the stop of the service can be computed (it is a datetime) and
    the rule subsystem raises nothing, the exception is the [IndexError]
    of the index 0, whatever the next template allows. *)
Theorem create_index_error `{ServiceRule} (values : Values) (env : Env)
    (tid : positive) (tmpl : template) :
  v_service_template_id values = Some tid →
  templates env !! tid = Some tmpl →
  is_Some (next_template_id tmpl) →
  service_container_ids tmpl = [] →
  (∀ sid env', create values env ≠ Ok (sid, env')) ∧
  (is_Some (v_service_container_id values) →
   is_Some (v_scheduled_start values) →
   (∀ start, v_scheduled_start values = Some start →
      stop_fits start (duration tmpl)) →
   rule_passes (service_seq env) →
   create values env = Err IndexError).
Proof.
  intros Ht Htmpl [next_serv Hnext] Hcont. split.
  { intros sid env' Hrun.
    apply create_inv in Hrun
      as (tid' & cid & start & tmpl' & Ht' & _ & _ & Htmpl' & _ & _ & _ &
          Hmatch).
    rewrite Ht in Ht'. injection Ht' as <-.
    rewrite Htmpl in Htmpl'. injection Htmpl' as <-.
    rewrite Hnext in Hmatch. by destruct Hmatch as (Hne & _). }
  intros [cid Hc] [start Hs] Hfit Hpass. unfold create.
  rewrite (bind_ok _ _ _ _ _
             (base_create_ok values env tid cid start tmpl Ht Hc Hs
                Htmpl (Hfit start Hs))).
  set (sid := service_seq env).
  assert (Htid0 : service_template_id (created_row env values) = Some tid).
  { unfold created_row. simpl. by rewrite Ht. }
  remember (created_row env values) as r0 eqn:Hr0def.
  set (env1 := with_service_seq _ _).
  assert (Hr0 : services env1 !! sid = Some r0) by apply lookup_insert_eq.
  rewrite (bind_ok _ _ _ _ _ (read_ok _ _ _ _ Hr0)).
  assert (Hstamp : ∃ env3,
    when (negb (truthy_char (generation_id r0)))
      (let! stamp := now_strftime in
       assign (generation_values stamp) sid) env1 = Ok (tt, env3) ∧
    services env3 !! sid = Some (stamped_row env r0) ∧
    templates env3 = templates env).
  { unfold stamped_row. destruct (truthy_char (generation_id r0));
      cbn [negb when].
    - by exists env1.
    - eexists. split.
      + unfold now_strftime, bind at 1.
        by apply (assign_ok sid _ env1 r0).
      + simpl. by rewrite lookup_insert_eq. }
  destruct Hstamp as (env3 & Hrun3 & Hr1 & Htm3).
  unfold generation_values in Hrun3.
  rewrite (bind_ok _ _ _ _ _ Hrun3).
  set (r1 := stamped_row env r0) in *.
  assert (Htid1 : service_template_id r1 = Some tid).
  { unfold r1. by rewrite stamped_row_template. }
  assert (Htm' : template_of sid env3 = Ok (tmpl, env3)).
  { rewrite (template_of_ok _ _ _ Hr1).
    - by rewrite (the_template_lookup env3 r1 tid tmpl) by congruence.
    - apply (template_resolves_lookup _ _ tid); [done|].
      rewrite Htm3. eauto. }
  rewrite (bind_ok _ _ _ _ _ Htm'). rewrite Hnext, Hcont.
  apply bind_err.
  rewrite (bind_ok _ _ _ _ _ (read_ok _ _ _ _ Hr1)). done.
Qed.

Lemma create_index_error_witness :
  create (rule := quiet_rule) (new_values 6 20 0) sample_env
  = Err IndexError.
Proof.
  destruct (create_index_error (H := quiet_rule) (new_values 6 20 0)
              sample_env 6%positive
              {| duration := 1; next_template_id := Some 2%positive;
                 service_container_ids := [];
                 exp_skill_ids := []; exp_eqp_cat_ids := [];
                 exp_vehicle_ids := [] |} eq_refl eq_refl)
    as [_ Herr]; [by eexists | reflexivity |].
  apply Herr; [by eexists | by eexists | | apply quiet_rule_passes].
  intros start [= <-]. apply stop_fits_check. vm_compute. reflexivity.
Defined.

Lemma sample_env_floor : stop_floor sample_env.
Proof.
  intros sid r start Hr. unfold sample_env in Hr. simpl in Hr.
  by rewrite lookup_empty in Hr.
Qed.

Lemma stop_floor_create_witness :
  stop_floor sample_env ∧
  create (rule := quiet_rule) (new_values 1 10 28800) sample_env
    = Ok (1%positive, chained_env) ∧
  stop_floor chained_env.
Proof.
  assert (Hrun : create (rule := quiet_rule) (new_values 1 10 28800)
                   sample_env = Ok (1%positive, chained_env))
    by (vm_compute; reflexivity).
  split; [apply sample_env_floor|]. split; [exact Hrun|].
  exact (stop_floor_create (H := quiet_rule) _ _ _ _ sample_env_floor Hrun).
Defined.

Lemma stop_floor_write_witness :
  stop_floor
    (with_services
       (insert 1%positive (created_row sample_env (new_values 2 20 28800)))
       sample_env) ∧
  stop_floor
    (env_after sample_env
       (write (rule := quiet_rule) [1%positive] (next_values None)
          (with_services
             (insert 1%positive
                (created_row sample_env (new_values 2 20 28800)))
             sample_env))).
Proof.
  set (env := with_services _ sample_env).
  assert (Hfloor : stop_floor env).
  { apply (stop_floor_insert sample_env 1%positive
             (created_row sample_env (new_values 2 20 28800))
             (with_services
                (insert 1%positive
                   (created_row sample_env (new_values 2 20 28800)))));
      [apply sample_env_floor | apply recompute_stop_floor | done]. }
  assert (Hrun : write (rule := quiet_rule) [1%positive] (next_values None)
                   env
                 = Ok (true,
                       env_after sample_env
                         (write (rule := quiet_rule) [1%positive]
                            (next_values None) env)))
    by (vm_compute; reflexivity).
  split; [exact Hfloor|].
  exact (stop_floor_write (H := quiet_rule) _ _ _ _ _ Hfloor Hrun).
Defined.

(** ** More on the deletion *)

(** X15. [unlink] has no guard against a chain of next pointers that never
    ends, as a chain that comes back to one of its services: deleting a
    service of such a chain on its own raises [RecursionError], however
    deep the stack is. *)
Theorem unlink_endless_chain (env : Env) (chain : nat → positive)
    (depth : nat) :
  endless env chain →
  unlink depth [chain 0%nat] env = Err RecursionError.
Proof.
  intros Hchain. generalize 0%nat as i.
  induction depth as [|depth IH]; intros i; [done|].
  destruct (Hchain i) as (r & Hr & Hnext & Hne).
  cbn [unlink]. apply bind_err. rewrite for_each_cons. apply bind_err.
  unfold unlink_next. rewrite (bind_ok _ _ _ _ _ (read_ok _ _ _ _ Hr)).
  rewrite Hnext. rewrite bool_decide_eq_false_2.
  2: { rewrite list_elem_of_singleton. done. }
  cbn [negb when]. apply bind_err. apply IH.
Qed.

Lemma cyclic_env_endless :
  endless cyclic_env (fun i => if Nat.even i then 1%positive else 2%positive).
Proof.
  intros i. rewrite Nat.even_succ, <- Nat.negb_even.
  destruct (Nat.even i); simpl.
  - eexists. split; [vm_compute; reflexivity|]. split; [reflexivity|done].
  - eexists. split; [vm_compute; reflexivity|]. split; [reflexivity|done].
Qed.

Lemma unlink_endless_chain_witness :
  unlink 1000 [1%positive] cyclic_env = Err RecursionError.
Proof.
  exact (unlink_endless_chain cyclic_env
           (fun i => if Nat.even i then 1%positive else 2%positive) 1000
           cyclic_env_endless).
Defined.

Lemma set_null_nil ref : set_null [] ref = ref.
Proof. by destruct ref. Qed.

Lemma null_refs_nil r : null_refs [] r = r.
Proof. destruct r. unfold null_refs. simpl. by rewrite !set_null_nil. Qed.

Lemma set_null_app ids1 ids2 ref :
  set_null ids2 (set_null ids1 ref) = set_null (ids1 ++ ids2) ref.
Proof.
  destruct ref as [n|]; [|done]. simpl.
  destruct (decide (n ∈ ids1)) as [H1|H1].
  - rewrite bool_decide_eq_true_2 by done. simpl.
    rewrite bool_decide_eq_true_2; [done|]. apply elem_of_app. by left.
  - rewrite bool_decide_eq_false_2 by done. simpl.
    destruct (decide (n ∈ ids2)) as [H2|H2].
    + rewrite !bool_decide_eq_true_2; [done| |done].
      apply elem_of_app. by right.
    + rewrite !bool_decide_eq_false_2; [done| |done].
      rewrite elem_of_app. tauto.
Qed.

Lemma null_refs_app ids1 ids2 r :
  null_refs ids2 (null_refs ids1 r) = null_refs (ids1 ++ ids2) r.
Proof. unfold null_refs. simpl. by rewrite !set_null_app. Qed.

Lemma only_deleted_refl env : only_deleted env env.
Proof.
  do 3 (split; [done|]). intros k r Hr. exists r, [].
  split; [done|]. split; [by rewrite null_refs_nil|].
  intros j Hj. by apply not_elem_of_nil in Hj.
Qed.

Lemma only_deleted_trans env1 env2 env3 :
  only_deleted env1 env2 → only_deleted env2 env3 → only_deleted env1 env3.
Proof.
  intros (Hs12 & Ht12 & Hc12 & H12) (Hs23 & Ht23 & Hc23 & H23).
  split; [congruence|]. split; [congruence|]. split; [congruence|].
  intros k r3 Hr3.
  destruct (H23 k r3 Hr3) as (r2 & ids2 & Hr2 & -> & Hgone2).
  destruct (H12 k r2 Hr2) as (r1 & ids1 & Hr1 & -> & Hgone1).
  exists r1, (ids1 ++ ids2). split; [done|].
  split; [by rewrite null_refs_app|].
  intros j Hj. apply elem_of_app in Hj as [Hj|Hj]; [|by apply Hgone2].
  destruct (services env3 !! j) as [rj|] eqn:E; [|done].
  destruct (H23 j rj E) as (rj2 & _ & Hrj2 & _).
  rewrite (Hgone1 j Hj) in Hrj2. done.
Qed.

Lemma only_deleted_deleted ids env : only_deleted env (deleted ids env).
Proof.
  do 3 (split; [done|]). intros k r' Hr'.
  unfold deleted in Hr'. simpl in Hr'.
  rewrite delete_rows_lookup in Hr'. case_decide as Hk; [done|].
  destruct (services env !! k) as [r|] eqn:Hr; [|done].
  injection Hr' as <-. exists r, ids. split; [done|]. split; [done|].
  intros j Hj. by apply deleted_gone.
Qed.

Lemma unlink_scan_only_deleted rec self todo env env1 :
  (∀ ids e b e', rec ids e = Ok (b, e') → only_deleted e e') →
  for_each (unlink_next rec self) todo env = Ok (tt, env1) →
  only_deleted env env1.
Proof.
  intros Hrec. revert env. induction todo as [|x todo IH]; intros env Hrun.
  - injection Hrun as <-. apply only_deleted_refl.
  - rewrite for_each_cons in Hrun.
    apply bind_inv in Hrun as ([] & env2 & Hx & Hrest).
    apply (only_deleted_trans _ env2); [|by apply IH].
    unfold unlink_next in Hx.
    apply bind_inv in Hx as (next & env3 & Hread & Hx).
    unfold read in Hread.
    destruct (services env !! x) as [r|]; [|done].
    injection Hread as <- <-.
    destruct (next_service_id r) as [n|].
    + destruct (negb (bool_decide (n ∈ self))); simpl in Hx.
      * apply bind_inv in Hx as (b & env4 & Hcall & Hret).
        injection Hret as <-. by eapply Hrec.
      * injection Hx as <-. apply only_deleted_refl.
    + injection Hx as <-. apply only_deleted_refl.
Qed.

(** X16. [unlink] only deletes: when it ends, no service has been created,
    the rule subsystem has not been called, and every service that is
    left is the one it was, with its references to deleted services set
    to null and no other field changed. *)
Theorem unlink_only_deletes (depth : nat) (self : list positive) (env : Env)
    (b : bool) (env' : Env) :
  unlink depth self env = Ok (b, env') →
  only_deleted env env'.
Proof.
  revert self env b env'.
  induction depth as [|depth IH]; intros self env b env' Hrun; [done|].
  cbn [unlink] in Hrun.
  apply bind_inv in Hrun as ([] & env1 & Hscan & Hbase).
  apply (only_deleted_trans _ env1).
  - apply (unlink_scan_only_deleted (unlink depth) self self env env1);
      [|done].
    intros ids e b0 e'. apply IH.
  - destruct self as [|x l].
    + injection Hbase as <- <-. apply only_deleted_refl.
    + injection Hbase as <- <-. apply only_deleted_deleted.
Qed.

Lemma unlink_only_deletes_witness :
  only_deleted chained_env (cascade chained_env 1 [2%positive]).
Proof.
  apply (unlink_only_deletes 5 [1%positive] chained_env true).
  apply unlink_chain; [apply chained_env_chain | simpl; lia].
Defined.

(** ** The names of the employees *)

Lemma team_named_cons hr e team :
  team_named hr (e :: team) →
  (∃ row name, hr !! e = Some row ∧ employee_name row = Some name) ∧
  team_named hr team.
Proof.
  intros H. split.
  - apply H. by left.
  - intros x Hx. apply H. by right.
Qed.

Lemma team_text_cons hr e team row name :
  hr !! e = Some row → employee_name row = Some name →
  team_text hr (e :: team) = (name +:+ newline) +:+ team_text hr team.
Proof.
  intros He Hname. unfold team_text. simpl. rewrite He. simpl.
  by rewrite Hname.
Qed.

Lemma emply_name_loop hr (service : positive) team :
  team_named hr team →
  ∀ (names : gmap positive string) text,
    names !! service = Some text →
    fold_result (fun employee names =>
        match names !! service with
        | None => inl TypeError
        | Some text =>
            match hr !! employee with
            | None => inl MissingError
            | Some e =>
                match employee_name e with
                | None => inl TypeError
                | Some name =>
                    inr (<[service := text +:+ (name +:+ newline)]> names)
                end
            end
        end) team names
    = inr (<[service := text +:+ team_text hr team]> names).
Proof.
  induction team as [|e team IH]; intros Hteam names text Htext.
  - simpl. unfold team_text. simpl. rewrite append_nil_r.
    by rewrite insert_id.
  - apply team_named_cons in Hteam as ((row & name & He & Hname) & Hteam).
    cbn [fold_result]. rewrite Htext, He, Hname.
    rewrite (IH Hteam _ (text +:+ (name +:+ newline)));
      [|apply lookup_insert_eq].
    rewrite insert_insert_eq.
    by rewrite (team_text_cons hr e team row name He Hname), append_assoc.
Qed.

(** X17. [_compute_emply_name] on a batch of services whose employees
    have a name: the text of each service of the batch is made of the
    names of its employees, in their order, each followed by a newline,
    whatever the text was; the text of the other services is kept. *)
Theorem compute_emply_name_text (hr_employee : gmap positive employee)
    (self : list positive) (env : Env) (names : gmap positive string) :
  (∀ sid, sid ∈ self →
     ∃ r, services env !! sid = Some r ∧
          team_named hr_employee (employee_ids r)) →
  ∃ names',
    _compute_emply_name hr_employee self env names = inr names' ∧
    (∀ sid r, sid ∈ self → services env !! sid = Some r →
       names' !! sid = Some (team_text hr_employee (employee_ids r))) ∧
    (∀ k, k ∉ self → names' !! k = names !! k).
Proof.
  revert names. induction self as [|x self IH]; intros names Hself.
  - exists names. split; [done|]. split; [|done].
    intros sid r Hsid. by apply not_elem_of_nil in Hsid.
  - destruct (Hself x) as (rx & Hrx & Hteam); [by left|].
    destruct (IH (<[x := team_text hr_employee (employee_ids rx)]> names))
      as (names' & Hrun & Hin & Hout).
    { intros sid Hsid. apply Hself. by right. }
    exists names'. split; [|split].
    + unfold _compute_emply_name in *. cbn [fold_result]. rewrite Hrx.
      rewrite (emply_name_loop hr_employee x (employee_ids rx) Hteam _ "");
        [|apply lookup_insert_eq].
      by rewrite insert_insert_eq, append_nil_l.
    + intros sid r Hsid Hr.
      destruct (decide (sid ∈ self)) as [Hs|Hs]; [by apply Hin|].
      apply elem_of_cons in Hsid as [->|Hsid]; [|done].
      rewrite (Hout x Hs), lookup_insert_eq. congruence.
    + intros k Hk. apply not_elem_of_cons in Hk as [Hkx Hk].
      by rewrite (Hout k Hk), lookup_insert_ne.
Qed.

Lemma staffed_team_named :
  ∀ sid, sid ∈ [1%positive] →
    ∃ r, services staffed_env !! sid = Some r ∧
         team_named sample_employees (employee_ids r).
Proof.
  intros sid Hsid. apply list_elem_of_singleton in Hsid as ->.
  exists staffed_service. split; [vm_compute; reflexivity|].
  intros e He. apply list_elem_of_singleton in He as ->.
  eexists _, "Ada". split; [vm_compute; reflexivity | reflexivity].
Qed.

Lemma compute_emply_name_text_witness :
  ∃ names',
    _compute_emply_name sample_employees [1%positive] staffed_env
      {[ 1%positive := "Bob" ]} = inr names' ∧
    (∀ sid r, sid ∈ [1%positive] → services staffed_env !! sid = Some r →
       names' !! sid = Some (team_text sample_employees (employee_ids r))) ∧
    (∀ k, k ∉ [1%positive] →
       names' !! k = ({[ 1%positive := "Bob" ]} : gmap positive string) !! k).
Proof.
  exact (compute_emply_name_text sample_employees [1%positive] staffed_env
           {[ 1%positive := "Bob" ]} staffed_team_named).
Defined.

(** ** The rules of the employees *)

Lemma dict_get_set_eq {V} k (v : V) d : dict_get k (dict_set k v d) = Some v.
Proof.
  induction d as [|[k' v'] d IH]; simpl.
  - by rewrite decide_True.
  - destruct (decide (k = k')) as [->|Hne]; simpl.
    + by rewrite decide_True.
    + by rewrite decide_False.
Qed.

Lemma dict_get_set_ne {V} k k' (v : V) d :
  k' ≠ k → dict_get k' (dict_set k v d) = dict_get k' d.
Proof.
  intros Hne. induction d as [|[k0 v0] d IH]; simpl.
  - by rewrite decide_False.
  - destruct (decide (k = k0)) as [->|Hk]; simpl.
    + by rewrite !decide_False.
    + destruct (decide (k' = k0)); [done|apply IH].
Qed.

Lemma rule_method_turn_spec d rule :
  ∃ d', rule_method_turn d rule = Some d' ∧
    ∀ m f, rule_value m f d' =
      if decide (rule_method_name rule = m ∧ rule_field_name rule = f)
      then Some (field_value rule) else rule_value m f d.
Proof.
  unfold rule_method_turn.
  destruct (dict_get (rule_method_name rule) d) as [fields|] eqn:Hget.
  - rewrite Hget. eexists. split; [done|]. intros m f. unfold rule_value.
    destruct (decide (m = rule_method_name rule)) as [->|Hm].
    + rewrite dict_get_set_eq, Hget. simpl.
      destruct (decide (f = rule_field_name rule)) as [->|Hf].
      * rewrite dict_get_set_eq. by rewrite decide_True.
      * rewrite dict_get_set_ne by done. rewrite decide_False; [done|].
        intros [_ Hf']. by apply Hf.
    + rewrite dict_get_set_ne by done. rewrite decide_False; [done|].
      intros [Hm' _]. by apply Hm.
  - rewrite dict_get_set_eq. eexists. split; [done|]. intros m f.
    unfold rule_value.
    destruct (decide (m = rule_method_name rule)) as [->|Hm].
    + rewrite dict_get_set_eq, Hget. simpl.
      destruct (decide (f = rule_field_name rule)) as [->|Hf].
      * by rewrite !decide_True.
      * rewrite decide_False; [done|].
        intros [_ Hf']. by apply Hf.
    + rewrite !dict_get_set_ne by done. rewrite decide_False; [done|].
      intros [Hm' _]. by apply Hm.
Qed.

Lemma rule_method_of_spec rules :
  ∀ d0, ∃ d, rule_method_of rules d0 = Some d ∧
    ∀ m f, rule_value m f d =
      match last_value m f rules with
      | Some v => Some v
      | None => rule_value m f d0
      end.
Proof.
  induction rules as [|rule rules IH]; intros d0.
  - exists d0. by split.
  - destruct (rule_method_turn_spec d0 rule) as (d1 & Hturn & Hd1).
    destruct (IH d1) as (d & Hrun & Hd).
    exists d. split; [simpl; by rewrite Hturn|].
    intros m f. rewrite Hd, Hd1. simpl.
    destruct (last_value m f rules); [done|].
    by destruct (decide _).
Qed.

(** X18. The dictionary that [check_resource_rule] builds from the
    parameters of a profile: the construction never raises a [KeyError],
    and the dictionary gives, for a method and a field, the value of the
    last parameter of the profile for them, and nothing when the profile
    has none. *)
Theorem rule_method_last_wins (rules : list rule_parameter) :
  ∃ d, rule_method_of rules [] = Some d ∧
       ∀ m f, rule_value m f d = last_value m f rules.
Proof.
  destruct (rule_method_of_spec rules []) as (d & Hrun & Hd).
  exists d. split; [done|]. intros m f. rewrite Hd.
  by destruct (last_value m f rules).
Qed.

Lemma resource_rule_loop json_dumps hr team :
  team_named hr team →
  ∀ logged0, ∃ lines,
    fold_result (fun employee logged =>
      match hr !! employee with
      | None => inl (OrmError MissingError)
      | Some e =>
          match rule_method_of (parameter_ids e) [] with
          | None => inl KeyError
          | Some rule_method =>
              match employee_name e with
              | None => inl (OrmError TypeError)
              | Some name =>
                  inr (logged ++ [name +:+ " " +:+ json_dumps rule_method])
              end
          end
      end) team logged0 = inr (logged0 ++ lines) ∧
    Forall2 (logged_line json_dumps hr) team lines.
Proof.
  induction team as [|e team IH]; intros Hteam logged0.
  - exists []. split; [by rewrite app_nil_r | constructor].
  - apply team_named_cons in Hteam as ((row & name & He & Hname) & Hteam).
    destruct (rule_method_of_spec (parameter_ids row) [])
      as (d & Hrun & Hd).
    destruct (IH Hteam (logged0 ++ [name +:+ " " +:+ json_dumps d]))
      as (lines & Hloop & Hlines).
    exists ((name +:+ " " +:+ json_dumps d) :: lines). split.
    + cbn [fold_result]. rewrite He, Hrun, Hname, Hloop.
      by rewrite <- app_assoc.
    + constructor; [|done]. exists row, name, d.
      do 3 (split; [done|]). intros m f. rewrite Hd.
      by destruct (last_value m f (parameter_ids row)).
Qed.

(** X19. [check_resource_rule] for a service whose employees have a name
    does not raise and gives the logger one message for each employee of
    the service, in their order: the name of the employee, a space and the
    dump of the dictionary of the parameters of the profile, in which the
    last value of a method and field is the one that counts. *)
Theorem check_resource_rule_log
    (json_dumps : list (string * list (string * string)) → string)
    (hr_employee : gmap positive employee) (sid : positive) (env : Env)
    (r : service) :
  services env !! sid = Some r →
  team_named hr_employee (employee_ids r) →
  ∃ lines,
    check_resource_rule json_dumps hr_employee (Some sid) env = inr lines ∧
    Forall2 (logged_line json_dumps hr_employee) (employee_ids r) lines.
Proof.
  intros Hr Hteam. unfold check_resource_rule. rewrite Hr.
  destruct (resource_rule_loop json_dumps hr_employee (employee_ids r)
              Hteam []) as (lines & Hloop & Hlines).
  exists lines. by split.
Qed.

Lemma check_resource_rule_log_witness :
  ∃ lines,
    check_resource_rule sample_dumps sample_employees (Some 1%positive)
      staffed_env = inr lines ∧
    Forall2 (logged_line sample_dumps sample_employees)
      (employee_ids staffed_service) lines.
Proof.
  apply (check_resource_rule_log sample_dumps sample_employees 1%positive
           staffed_env staffed_service).
  - vm_compute. reflexivity.
  - intros e He. apply list_elem_of_singleton in He as ->.
    eexists _, "Ada". split; [vm_compute; reflexivity | reflexivity].
Defined.

(** ** The containers of the template *)

Lemma container_loop (l acc : list positive) :
  fold_left (fun container_services glob_srv =>
               container_services ++ [glob_srv]) l acc = acc ++ l.
Proof.
  revert acc. induction l as [|x l IH]; intros acc; simpl.
  - by rewrite app_nil_r.
  - by rewrite IH, <- app_assoc.
Qed.

(** X20. [_get_template_container] on one service whose template can be
    read: the domain lists the containers of the template of the service,
    in their order, whatever the container of the service was; the
    container of the service is reset, and no other field and no other
    service is changed. *)
Theorem get_template_container_domain (sid : positive) (env : Env)
    (r : service) :
  services env !! sid = Some r → template_resolves env r →
  _get_template_container [sid] env =
    Ok (service_container_ids (the_template env r),
        with_services (insert sid (set_service_container_id None r)) env).
Proof.
  intros Hr Hres. unfold _get_template_container.
  unfold assign_cache.
  rewrite (bind_ok _ _ _ _ _ (update_ok _ _ _ _ Hr)).
  unfold template_of_self.
  set (env' := with_services _ env).
  assert (Ht : template_of sid env' = Ok (the_template env r, env')).
  { apply (template_of_ok sid env' (set_service_container_id None r));
      [apply lookup_insert_eq | exact Hres]. }
  rewrite (bind_ok _ _ _ _ _ Ht).
  unfold ret. by rewrite container_loop.
Qed.

Lemma get_template_container_domain_witness :
  _get_template_container [1%positive] staffed_env =
    Ok ([10%positive],
        with_services
          (insert 1%positive
             (set_service_container_id None staffed_service))
          staffed_env).
Proof.
  apply (get_template_container_domain 1%positive staffed_env
           staffed_service).
  - vm_compute. reflexivity.
  - vm_compute. eauto.
Defined.

(** ** The change of the employees *)

(** X21. [_employee_ids_change] on one service whose template can be read
    and whose employees have a name does both updates: the text of the
    names is the one of the employees of the service, and the check of
    the employees is the diagnostic of the requested skills. *)
Theorem employee_ids_change_single (hr_employee : gmap positive employee)
    (sid : positive) (env : Env) (names : gmap positive string)
    (r : service) :
  services env !! sid = Some r → template_resolves env r →
  team_named hr_employee (employee_ids r) →
  ∃ env' names' r',
    _employee_ids_change hr_employee [sid] env names = inr (env', names') ∧
    names' !! sid = Some (team_text hr_employee (employee_ids r)) ∧
    services env' !! sid = Some r' ∧
    employee_check r' =
      Some (diagnostic_of
              (violation_lines (count_holding skill_kind env r)
                 (exp_skill_ids (the_template env r)))).
Proof.
  intros Hr Hres Hteam.
  destruct (check_request_text skill_kind env sid r
              (kind_of_laws Skill) Hr Hres) as (env' & r' & Hrun & Hr' & Hc).
  unfold _employee_ids_change, _compute_emply_name.
  cbn [fold_result]. rewrite Hr.
  rewrite (emply_name_loop hr_employee sid (employee_ids r) Hteam _ "");
    [|apply lookup_insert_eq].
  change (_check_skill_request [sid] env)
    with (check_request skill_kind [sid] env).
  rewrite Hrun. eexists env', _, r'. split; [done|].
  split; [by rewrite lookup_insert_eq, append_nil_l|]. by split.
Qed.

Lemma employee_ids_change_single_witness :
  ∃ env' names' r',
    _employee_ids_change sample_employees [1%positive] staffed_env ∅
      = inr (env', names') ∧
    names' !! 1%positive
      = Some (team_text sample_employees (employee_ids staffed_service)) ∧
    services env' !! 1%positive = Some r' ∧
    employee_check r' =
      Some (diagnostic_of
              (violation_lines
                 (count_holding skill_kind staffed_env staffed_service)
                 (exp_skill_ids (the_template staffed_env staffed_service)))).
Proof.
  apply (employee_ids_change_single sample_employees 1%positive staffed_env
           ∅ staffed_service).
  - vm_compute. reflexivity.
  - vm_compute. eauto.
  - intros e He. apply list_elem_of_singleton in He as ->.
    eexists _, "Ada". split; [vm_compute; reflexivity | reflexivity].
Defined.

(** ** The write of no service *)

(** X22. [write] on the empty recordset writes nothing, and calls the rule
    subsystem all the same, for every type of resource and without a
    service ([self.id] is [False]): it ends with that call in the journal
    and the tables as they were, or raises what the rule subsystem
    raises. *)
Theorem write_nothing_calls_rule `{ServiceRule} (values : Values)
    (env : Env) :
  write [] values env =
    match service_rule_double_assign "all" None env with
    | Ok _ => Ok (true, log_rule_call ("all", None) env)
    | Err e => Err e
    end.
Proof.
  rewrite write_empty.
  assert (Hbase : base_write [] values env = Ok (true, env)).
  { unfold base_write. by destruct (bool_decide _). }
  by rewrite Hbase.
Qed.
